(** * Balance carry and yield apportionment of gestao.py

    A shallow embedding of the ledger engine of [src/gestao.py]
    (functions [get_saldo_anterior], [calcular_rateio_rendimento], the
    save handler and the annual summary of [render_year_view]) together
    with the properties its specification states about them.

    Currency amounts are Python floats in the source; they are embedded as
    exact rationals [Q], compared with [==] ([Qeq]).  Python dictionaries
    that are only indexed are finite maps ([gmap string _]); the entries
    dictionary, which is iterated in insertion order, is an association
    list whose keys are pairwise distinct.  Exceptions are values of
    [result]. *)

From Stdlib Require Import QArith Qminmax Qfield Lqa ZArith Ascii.
From stdpp Require Import gmap strings list fin_maps sorting pretty.

(** ** Python exceptions *)

Inductive exc : Type :=
  | KeyError (k : string)
  | ZeroDivisionError.

Inductive result (A : Type) : Type :=
  | Ok (a : A)
  | Raise (e : exc).
Arguments Ok {A} a.
Arguments Raise {A} e.

Global Instance result_ret : MRet result := λ A a, Ok a.
Global Instance result_bind : MBind result := λ A B f r,
  match r with
  | Ok a => f a
  | Raise e => Raise e
  end.

(** [d[k]]: indexing a dictionary raises [KeyError] on a missing key. *)
Definition dict_index {V : Type} (d : gmap string V) (k : string) : result V :=
  match d !! k with
  | Some v => Ok v
  | None => Raise (KeyError k)
  end.

(** [a > b] on amounts. *)
Definition Qgt_bool (a b : Q) : bool := negb (Qle_bool a b).

(** [max(0, x)]: the builtin keeps its first argument unless the second is
    strictly greater. *)
Definition pymax0 (x : Q) : Q := if Qgt_bool x 0 then x else 0%Q.

(** [a / b]: raises [ZeroDivisionError] on a zero divisor. *)
Definition pydiv (a b : Q) : result Q :=
  if Qeq_bool b 0 then Raise ZeroDivisionError else Ok (a / b)%Q.

(** [sum(xs)]: left to right, starting from 0. *)
Definition pysum (xs : list Q) : Q := fold_left Qplus xs 0%Q.

(** ** Ledger model *)

(** A movement document.  Every key is read with [mov[...]] except ['ano'],
    which is read with [mov.get('ano', ...)] and may therefore be absent. *)
Record Mov : Type := mkMov {
  programa : string;
  mes_num : Z;
  ano : option Z;
  credito_capital : Q;
  credito_custeio : Q;
  debito_capital : Q;
  debito_custeio : Q;
  rendimento_capital : Q;
  rendimento_custeio : Q;
  total_credito : Q;
  total_debito : Q;
  total_rendimento : Q
}.

(** [saldos_iniciais[programa]], whose two keys are read with [.get(_, 0.0)]. *)
Record SaldoInicial : Type := mkSaldoInicial {
  si_Capital : option Q;
  si_Custeio : option Q
}.

(** An account document; ['movimentacoes'] and ['saldos_iniciais'] are read
    with [.get] and a default. *)
Record Conta : Type := mkConta {
  programas : list string;
  movimentacoes : option (list Mov);
  saldos_iniciais : option (gmap string SaldoInicial)
}.

(** [conta['movimentacoes'] = l] *)
Definition set_movimentacoes (c : Conta) (l : list Mov) : Conta :=
  {| programas := programas c;
     movimentacoes := Some l;
     saldos_iniciais := saldos_iniciais c |}.

Definition nova_estrutura : Conta :=
  {| programas := []; movimentacoes := Some []; saldos_iniciais := Some ∅ |}.

Inductive TipoRecurso : Type := Capital | Custeio | Total.

(** One draft entry of [dados_entrada]. *)
Record Entrada : Type := mkEntrada {
  cred_cap : Q;
  cred_cus : Q;
  deb_cap : Q;
  deb_cus : Q
}.

(** [saldos_base[prog]]. *)
Record Bases : Type := mkBases {
  base_Capital : Q;
  base_Custeio : Q
}.

(** Messages shown to the user. *)
Inductive st_msg : Type :=
  | st_success (s : string)
  | st_warning (s : string)
  | st_info (s : string)
  | st_error (s : string).

(** The storage collaborator: no connection, or a connection whose [set]
    call may raise with some message. *)
Inductive Db : Type :=
  | SemConexao
  | Conectado (falha : option string).

(** One row of the annual summary. *)
Record LinhaResumo : Type := mkLinhaResumo {
  lr_programa : string;
  lr_saldo_anterior : Q;
  lr_credito : Q;
  lr_rendimento : Q;
  lr_debito : Q;
  lr_saldo_final : Q
}.

Section Gestao.

(** [datetime.now().year] *)
Variable current_year : Z.

Local Open Scope Q_scope.

(** ** [get_saldo_anterior] *)

(** [mov.get('ano', datetime.now().year)] *)
Definition mov_ano_de (mov : Mov) : Z := default current_year (ano mov).

(** [(mov_ano < ano_alvo) or (mov_ano == ano_alvo and mov_mes < mes_alvo)] *)
Definition eh_passado (mov_ano mov_mes ano_alvo mes_alvo : Z) : bool :=
  (mov_ano <? ano_alvo)%Z || ((mov_ano =? ano_alvo)%Z && (mov_mes <? mes_alvo)%Z).

(** The seed: the program's initial balance, when it has one. *)
Definition saldo_semente (saldos : gmap string SaldoInicial)
    (prog : string) (tipo_recurso : TipoRecurso) : Q :=
  let saldo := 0 in
  match saldos !! prog with
  | Some si =>
      let val :=
        match tipo_recurso with
        | Total => default 0 (si_Capital si) + default 0 (si_Custeio si)
        | Capital => default 0 (si_Capital si)
        | Custeio => default 0 (si_Custeio si)
        end in
      saldo + val
  | None => saldo
  end.

(** The body of [for mov in movs]. *)
Definition passo_saldo (prog : string) (tipo_recurso : TipoRecurso)
    (mes_alvo ano_alvo : Z) (saldo : Q) (mov : Mov) : Q :=
  let mov_ano := mov_ano_de mov in
  let mov_mes := mes_num mov in
  if String.eqb (programa mov) prog && eh_passado mov_ano mov_mes ano_alvo mes_alvo then
    match tipo_recurso with
    | Capital => saldo + (credito_capital mov + rendimento_capital mov - debito_capital mov)
    | Custeio => saldo + (credito_custeio mov + rendimento_custeio mov - debito_custeio mov)
    | Total => saldo + (total_credito mov + total_rendimento mov - total_debito mov)
    end
  else saldo.

Definition get_saldo_anterior (accounts : gmap string Conta)
    (account_name prog : string) (tipo_recurso : TipoRecurso)
    (mes_alvo ano_alvo : Z) : result Q :=
  conta_data ← dict_index accounts account_name;
  let movs := default [] (movimentacoes conta_data) in
  let saldos := default ∅ (saldos_iniciais conta_data) in
  let saldo := saldo_semente saldos prog tipo_recurso in
  Ok (fold_left (passo_saldo prog tipo_recurso mes_alvo ano_alvo) movs saldo).

(** ** [calcular_rateio_rendimento] *)

(** First loop: clamped base balances and their running total. *)
Fixpoint laco_bases (accounts : gmap string Conta) (conta : string)
    (mes ano_ : Z) (dados : list (string * Entrada))
    (saldos_base : gmap string Bases) (total_saldo_conta : Q)
    : result (gmap string Bases * Q) :=
  match dados with
  | [] => Ok (saldos_base, total_saldo_conta)
  | (prog, valores) :: resto =>
      saldo_ant_cap ← get_saldo_anterior accounts conta prog Capital mes ano_;
      saldo_ant_cus ← get_saldo_anterior accounts conta prog Custeio mes ano_;
      let base_cap := pymax0 (saldo_ant_cap + cred_cap valores - deb_cap valores) in
      let base_cus := pymax0 (saldo_ant_cus + cred_cus valores - deb_cus valores) in
      laco_bases accounts conta mes ano_ resto
        (<[prog := {| base_Capital := base_cap; base_Custeio := base_cus |}]> saldos_base)
        (total_saldo_conta + (base_cap + base_cus))
  end.

Definition calcular_bases (accounts : gmap string Conta) (conta : string)
    (mes ano_ : Z) (dados : list (string * Entrada))
    : result (gmap string Bases * Q) :=
  laco_bases accounts conta mes ano_ dados ∅ 0.

(** The two factors of one program. *)
Definition fatores (base_prog : Bases) (total_saldo_conta : Q) : result (Q * Q) :=
  if Qgt_bool total_saldo_conta 0 then
    fator_cap ← pydiv (base_Capital base_prog) total_saldo_conta;
    fator_cus ← pydiv (base_Custeio base_prog) total_saldo_conta;
    Ok (fator_cap, fator_cus)
  else Ok (0, 0).

(** Second loop: one finalized movement per entry, appended in order. *)
Fixpoint laco_resultados (mes ano_ : Z) (rendimento_total_banco : Q)
    (saldos_base : gmap string Bases) (total_saldo_conta : Q)
    (dados : list (string * Entrada)) (resultados : list Mov)
    : result (list Mov) :=
  match dados with
  | [] => Ok resultados
  | (prog, valores) :: resto =>
      base_prog ← dict_index saldos_base prog;
      fs ← fatores base_prog total_saldo_conta;
      let rend_cap := rendimento_total_banco * fs.1 in
      let rend_cus := rendimento_total_banco * fs.2 in
      laco_resultados mes ano_ rendimento_total_banco saldos_base
        total_saldo_conta resto
        (resultados ++
         [ {| programa := prog;
              mes_num := mes;
              ano := Some ano_;
              credito_capital := cred_cap valores;
              credito_custeio := cred_cus valores;
              debito_capital := deb_cap valores;
              debito_custeio := deb_cus valores;
              rendimento_capital := rend_cap;
              rendimento_custeio := rend_cus;
              total_credito := cred_cap valores + cred_cus valores;
              total_debito := deb_cap valores + deb_cus valores;
              total_rendimento := rend_cap + rend_cus |} ])
  end.

Definition calcular_rateio_rendimento (accounts : gmap string Conta)
    (conta : string) (mes ano_ : Z) (rendimento_total_banco : Q)
    (dados_entrada : list (string * Entrada)) : result (list Mov) :=
  bt ← calcular_bases accounts conta mes ano_ dados_entrada;
  laco_resultados mes ano_ rendimento_total_banco bt.1 bt.2 dados_entrada [].

(** ** Saving a month ([render_year_view], the save button) *)

(** [m['mes_num'] == mes_selecionado and m.get('ano', now) == ano_atual] *)
Definition mesmo_periodo (mes ano_ : Z) (m : Mov) : bool :=
  (mes_num m =? mes)%Z && (mov_ano_de m =? ano_)%Z.

(** [save_account_to_firebase]: nothing without a connection; a failing
    [set] is caught and reported with [st.error].  The stored document is
    the storage collaborator's business; only the messages are kept. *)
Definition save_account_to_firebase (db : Db) : list st_msg :=
  match db with
  | SemConexao => []
  | Conectado None => []
  | Conectado (Some e) => [st_error ("Erro ao salvar: " +:+ e)]
  end.

(** The body of the save button: the new ledger and the messages shown. *)
Definition salvar_lancamento (db : Db) (accounts : gmap string Conta)
    (conta_atual : string) (mes_selecionado ano_atual : Z)
    (rendimento_total : Q) (dados_entrada : list (string * Entrada))
    : result (gmap string Conta * list st_msg) :=
  novos_registros ← calcular_rateio_rendimento accounts conta_atual
                      mes_selecionado ano_atual rendimento_total dados_entrada;
  conta ← dict_index accounts conta_atual;
  let lista_atual := default [] (movimentacoes conta) in
  let lista_limpa :=
    List.filter (λ m, negb (mesmo_periodo mes_selecionado ano_atual m)) lista_atual in
  let lista_limpa := lista_limpa ++ novos_registros in
  Ok (<[conta_atual := set_movimentacoes conta lista_limpa]> accounts,
      save_account_to_firebase db ++ [st_success "Dados salvos com sucesso!"]).

(** ** Annual summary ([render_year_view], third tab) *)

(** [m['programa'] == prog and m.get('ano') == ano_atual]: an absent year is
    [None], which equals no integer. *)
Definition do_ano (prog : string) (ano_atual : Z) (m : Mov) : bool :=
  String.eqb (programa m) prog &&
  match ano m with
  | Some a => (a =? ano_atual)%Z
  | None => false
  end.

(** The body of [for prog in programas]: one row. *)
Definition resumo_programa (accounts : gmap string Conta) (conta_atual : string)
    (ano_atual : Z) (movs : list Mov) (prog : string) : result LinhaResumo :=
  saldo_anterior ← get_saldo_anterior accounts conta_atual prog Total 1 ano_atual;
  let movs_ano := List.filter (do_ano prog ano_atual) movs in
  let credito_ano := pysum (map total_credito movs_ano) in
  let rendimento_ano := pysum (map total_rendimento movs_ano) in
  let debito_ano := pysum (map total_debito movs_ano) in
  let saldo_final := saldo_anterior + credito_ano + rendimento_ano - debito_ano in
  Ok {| lr_programa := prog;
        lr_saldo_anterior := saldo_anterior;
        lr_credito := credito_ano;
        lr_rendimento := rendimento_ano;
        lr_debito := debito_ano;
        lr_saldo_final := saldo_final |}.

Fixpoint laco_resumo (accounts : gmap string Conta) (conta_atual : string)
    (ano_atual : Z) (movs : list Mov) (progs : list string)
    (dados_resumo : list LinhaResumo) : result (list LinhaResumo) :=
  match progs with
  | [] => Ok dados_resumo
  | prog :: resto =>
      linha ← resumo_programa accounts conta_atual ano_atual movs prog;
      laco_resumo accounts conta_atual ano_atual movs resto (dados_resumo ++ [linha])
  end.

Definition resumo_anual (accounts : gmap string Conta) (conta_atual : string)
    (ano_atual : Z) (progs : list string) : result (list LinhaResumo) :=
  conta ← dict_index accounts conta_atual;
  let movs := default [] (movimentacoes conta) in
  laco_resumo accounts conta_atual ano_atual movs progs [].

(** ** Vocabulary of the specification *)

(** The mathematical sum of a list of amounts. *)
Definition soma (xs : list Q) : Q := fold_right Qplus 0 xs.

(** The movement list and the initial balances an account document holds. *)
Definition movs_de (c : Conta) : list Mov := default [] (movimentacoes c).
Definition saldos_de (c : Conta) : gmap string SaldoInicial :=
  default ∅ (saldos_iniciais c).

(** Category-specific net of a movement: credit + yield − debit. *)
Definition liquido (tipo : TipoRecurso) (m : Mov) : Q :=
  match tipo with
  | Capital => credito_capital m + rendimento_capital m - debito_capital m
  | Custeio => credito_custeio m + rendimento_custeio m - debito_custeio m
  | Total => total_credito m + total_rendimento m - total_debito m
  end.

(** The initial balance of a program for a category, 0 without an entry. *)
Definition saldo_inicial (saldos : gmap string SaldoInicial) (prog : string)
    (tipo : TipoRecurso) : Q :=
  match saldos !! prog with
  | None => 0
  | Some si =>
      match tipo with
      | Capital => default 0 (si_Capital si)
      | Custeio => default 0 (si_Custeio si)
      | Total => default 0 (si_Capital si) + default 0 (si_Custeio si)
      end
  end.

(** [(y, m)] is strictly chronologically before [(ty, tm)]. *)
Definition antes (y m ty tm : Z) : Prop := (y < ty ∨ (y = ty ∧ m < tm))%Z.

Global Instance antes_dec y m ty tm : Decision (antes y m ty tm).
Proof. unfold antes. apply _. Defined.

(** The movements of [prog] strictly before the target period. *)
Definition anteriores (prog : string) (mes_alvo ano_alvo : Z) (m : Mov) : bool :=
  bool_decide (programa m = prog ∧
               antes (mov_ano_de m) (mes_num m) ano_alvo mes_alvo).

(** Balance reconstruction as the specification words it: the initial
    balance plus the nets of the movements strictly before the target. *)
Definition priorBalance (c : Conta) (prog : string) (tipo : TipoRecurso)
    (mes_alvo ano_alvo : Z) : Q :=
  saldo_inicial (saldos_de c) prog tipo +
  soma (map (liquido tipo)
          (List.filter (anteriores prog mes_alvo ano_alvo) (movs_de c))).

(** What the source computes once the account document is found. *)
Definition saldo_conta (c : Conta) (prog : string) (tipo : TipoRecurso)
    (mes_alvo ano_alvo : Z) : Q :=
  fold_left (passo_saldo prog tipo mes_alvo ano_alvo) (movs_de c)
    (saldo_semente (saldos_de c) prog tipo).

(** The clamped bases of one entry, given the account document. *)
Definition base_de (c : Conta) (mes ano_ : Z) (pv : string * Entrada) : Bases :=
  {| base_Capital :=
       pymax0 (saldo_conta c pv.1 Capital mes ano_ + cred_cap pv.2 - deb_cap pv.2);
     base_Custeio :=
       pymax0 (saldo_conta c pv.1 Custeio mes ano_ + cred_cus pv.2 - deb_cus pv.2) |}.

Definition soma_bases (b : Bases) : Q := base_Capital b + base_Custeio b.

(** The map and the total the first loop leaves behind. *)
Definition bases_finais (c : Conta) (mes ano_ : Z) (dados : list (string * Entrada))
    (sb : gmap string Bases) : gmap string Bases :=
  fold_left (λ sb pv, <[pv.1 := base_de c mes ano_ pv]> sb) dados sb.

Definition total_final (c : Conta) (mes ano_ : Z) (dados : list (string * Entrada))
    (t : Q) : Q :=
  fold_left (λ t pv, t + soma_bases (base_de c mes ano_ pv)) dados t.

(** The factor of one base against the pool total. *)
Definition fator (base total : Q) : Q :=
  if Qgt_bool total 0 then base / total else 0.

(** The record the second loop appends for one entry. *)
Definition registro (mes ano_ : Z) (rendimento total : Q) (b : Bases)
    (pv : string * Entrada) : Mov :=
  {| programa := pv.1;
     mes_num := mes;
     ano := Some ano_;
     credito_capital := cred_cap pv.2;
     credito_custeio := cred_cus pv.2;
     debito_capital := deb_cap pv.2;
     debito_custeio := deb_cus pv.2;
     rendimento_capital := rendimento * fator (base_Capital b) total;
     rendimento_custeio := rendimento * fator (base_Custeio b) total;
     total_credito := cred_cap pv.2 + cred_cus pv.2;
     total_debito := deb_cap pv.2 + deb_cus pv.2;
     total_rendimento :=
       rendimento * fator (base_Capital b) total
       + rendimento * fator (base_Custeio b) total |}.

(** The yield a record carries, over both categories. *)
Definition rendimento_emitido (m : Mov) : Q :=
  rendimento_capital m + rendimento_custeio m.

(** The derived totals of a record agree with its base fields. *)
Definition totais_consistentes (m : Mov) : Prop :=
  total_credito m = credito_capital m + credito_custeio m
  ∧ total_debito m = debito_capital m + debito_custeio m
  ∧ total_rendimento m = rendimento_capital m + rendimento_custeio m.

(** The key of a movement inside its account: program, year, month. *)
Definition chave (m : Mov) : string * Z * Z :=
  (programa m, mov_ano_de m, mes_num m).

Definition da_chave (prog : string) (ano_ mes : Z) (m : Mov) : bool :=
  bool_decide (chave m = (prog, ano_, mes)).

(** At most one movement per key. *)
Definition no_maximo_um (movs : list Mov) : Prop := NoDup (map chave movs).

(** A warning reaches the user. *)
Definition avisa (msgs : list st_msg) : Prop := ∃ s, st_warning s ∈ msgs.

(** The degenerate apportionment is flagged: a save whose pool total is 0
    while the reported yield is not shows a warning. *)
Definition degenerado_sinalizado (db : Db) (accounts : gmap string Conta)
    (conta : string) (mes ano_ : Z) (rendimento : Q)
    (dados : list (string * Entrada)) : Prop :=
  ∀ sb t accounts' msgs,
    calcular_bases accounts conta mes ano_ dados = Ok (sb, t) →
    t == 0 → ¬ rendimento == 0 →
    salvar_lancamento db accounts conta mes ano_ rendimento dados
      = Ok (accounts', msgs) →
    avisa msgs.

End Gestao.

(** ** A small ledger

    Account A after January 2024 was saved with a reported yield of 10:
    P1 started with 100 of capital, P2 received a capital credit of 100. *)

Definition mov_P1_jan : Mov :=
  {| programa := "P1"; mes_num := 1; ano := Some 2024%Z;
     credito_capital := 0; credito_custeio := 0;
     debito_capital := 0; debito_custeio := 0;
     rendimento_capital := 5; rendimento_custeio := 0;
     total_credito := 0; total_debito := 0; total_rendimento := 5 |}%Q.

Definition mov_P2_jan : Mov :=
  {| programa := "P2"; mes_num := 1; ano := Some 2024%Z;
     credito_capital := 100; credito_custeio := 0;
     debito_capital := 0; debito_custeio := 0;
     rendimento_capital := 5; rendimento_custeio := 0;
     total_credito := 100; total_debito := 0; total_rendimento := 5 |}%Q.

(** A movement document written without the ['ano'] key. *)
Definition mov_sem_ano : Mov :=
  {| programa := "P1"; mes_num := 3; ano := None;
     credito_capital := 40; credito_custeio := 0;
     debito_capital := 0; debito_custeio := 0;
     rendimento_capital := 0; rendimento_custeio := 0;
     total_credito := 40; total_debito := 0; total_rendimento := 0 |}%Q.

Definition saldos_A : gmap string SaldoInicial :=
  {[ "P1" := {| si_Capital := Some 100%Q; si_Custeio := Some 0%Q |};
     "P2" := {| si_Capital := Some 0%Q; si_Custeio := Some 0%Q |} ]}.

Definition conta_A0 : Conta :=
  {| programas := ["P1"; "P2"];
     movimentacoes := Some [];
     saldos_iniciais := Some saldos_A |}.

Definition conta_A : Conta := set_movimentacoes conta_A0 [mov_P1_jan; mov_P2_jan].

Definition conta_A_legado : Conta :=
  set_movimentacoes conta_A0 [mov_P1_jan; mov_sem_ano; mov_P2_jan].

Definition entradas_jan : list (string * Entrada) :=
  [ ("P1", {| cred_cap := 0; cred_cus := 0; deb_cap := 0; deb_cus := 0 |});
    ("P2", {| cred_cap := 100; cred_cus := 0; deb_cap := 0; deb_cus := 0 |}) ]%Q.

(** ** The rest of the application *)

(** Truth value of a string: the empty string is false. *)
Definition str_truthy (s : string) : bool := negb (String.eqb s "").

(** [s.replace(old, new)] for a one-character [old] and [new]. *)
Fixpoint replace_char (old new : Ascii.ascii) (s : string) : string :=
  match s with
  | EmptyString => EmptyString
  | String c s' =>
      String (if Ascii.eqb c old then new else c) (replace_char old new s')
  end.

(** [format_currency]. The argument is the text of [f"{value:,.2f}"]; the
    conversion of the float to that text is not part of the embedding. *)
Definition format_currency (texto : string) : string :=
  replace_char "X"%char "."%char
    (replace_char "."%char ","%char
       (replace_char ","%char "X"%char ("R$ " +:+ texto))).

(** What the three passes do to one character. *)
Definition troca_separador (c : Ascii.ascii) : Ascii.ascii :=
  if Ascii.eqb c ","%char then "."%char
  else if Ascii.eqb c "."%char then ","%char
  else if Ascii.eqb c "X"%char then "."%char
  else c.

Fixpoint mapa_string (f : Ascii.ascii → Ascii.ascii) (s : string) : string :=
  match s with
  | EmptyString => EmptyString
  | String c s' => String (f c) (mapa_string f s')
  end.

(** [d[k] = v] on a dictionary kept in insertion order: an existing key
    keeps its place. *)
Fixpoint dict_set {V : Type} (k : string) (v : V) (d : list (string * V))
    : list (string * V) :=
  match d with
  | [] => [(k, v)]
  | (k', v') :: d' =>
      if String.eqb k' k then (k', v) :: d' else (k', v') :: dict_set k v d'
  end.

(** The month names of [render_year_view]. *)
Definition meses : gmap Z string :=
  {[ 1%Z := "Janeiro"; 2%Z := "Fevereiro"; 3%Z := "Março"; 4%Z := "Abril";
     5%Z := "Maio"; 6%Z := "Junho"; 7%Z := "Julho"; 8%Z := "Agosto";
     9%Z := "Setembro"; 10%Z := "Outubro"; 11%Z := "Novembro";
     12%Z := "Dezembro" ]}.

(** One row of the monthly statement. *)
Record LinhaExtrato : Type := mkLinhaExtrato {
  le_programa : string;
  le_mes : string;
  le_credito : Q;
  le_rend_cap : Q;
  le_rend_cust : Q;
  le_rend_total : Q;
  le_debito : Q;
  le_s_custeio : Q;
  le_s_capital : Q;
  le_s_total : Q
}.

(** [list.sort(key=lambda x: x['mes_num'])]: a stable sort by month. *)
Fixpoint insere_por_mes (m : Mov) (l : list Mov) : list Mov :=
  match l with
  | [] => [m]
  | x :: l' =>
      if (mes_num m <=? mes_num x)%Z then m :: x :: l'
      else x :: insere_por_mes m l'
  end.

Definition ordenar_por_mes (l : list Mov) : list Mov :=
  fold_right insere_por_mes [] l.

Section Operacoes.

Variable current_year : Z.

Local Open Scope Q_scope.

(** *** [init_session_state]: the selectable years *)

Definition anos_da_conta (conta : Conta) (anos_encontrados : gset Z) : gset Z :=
  fold_left (λ s mov, s ∪ {[ mov_ano_de current_year mov ]})
    (default [] (movimentacoes conta)) anos_encontrados.

Definition anos_encontrados (accounts : gmap string Conta) : gset Z :=
  map_fold (λ _ conta s, anos_da_conta conta s) {[ current_year ]} accounts.

(** [available_years] is computed only when the session has none yet. *)
Definition init_available_years (sessao : option (list Z))
    (accounts : gmap string Conta) : list Z :=
  match sessao with
  | Some anos => anos
  | None => merge_sort Z.le (elements (anos_encontrados accounts))
  end.

(** *** [sidebar_config] *)

(** The button "Adicionar Conta". *)
Definition adicionar_conta (db : Db) (accounts : gmap string Conta)
    (nova_conta : string) : gmap string Conta * list st_msg :=
  match accounts !! nova_conta with
  | None =>
      if str_truthy nova_conta then
        (<[nova_conta := nova_estrutura]> accounts,
         save_account_to_firebase db
         ++ [st_success ("Conta " +:+ nova_conta +:+ " criada!")])
      else (accounts, [])
  | Some _ => (accounts, [st_warning "Conta já existe."])
  end.

(** The button "Criar Novo Exercício". *)
Definition criar_exercicio (available_years : list Z) (novo_ano : Z)
    : list Z * list st_msg :=
  if bool_decide (novo_ano ∈ available_years) then
    (available_years, [st_warning "Este ano já existe."])
  else
    (merge_sort Z.le (available_years ++ [novo_ano]),
     [st_success ("Exercício de " +:+ pretty novo_ano +:+ " adicionado!")]).

(** *** [main]: programs and initial balances *)

(** The button "Adicionar" of "Gerenciar Programas". *)
Definition adicionar_programa (db : Db) (accounts : gmap string Conta)
    (nome novo : string) : result (gmap string Conta * list st_msg) :=
  if str_truthy novo then
    conta ← dict_index accounts nome;
    if bool_decide (novo ∈ programas conta) then Ok (accounts, [])
    else
      let saldos := default ∅ (saldos_iniciais conta) in
      Ok (<[nome := {| programas := programas conta ++ [novo];
                       movimentacoes := movimentacoes conta;
                       saldos_iniciais :=
                         Some (<[novo := {| si_Capital := Some 0;
                                            si_Custeio := Some 0 |}]> saldos) |}]>
            accounts,
          save_account_to_firebase db)
  else Ok (accounts, []).

(** [conta.setdefault('saldos_iniciais', {}).setdefault(p, {...})]: the
    account after the call. *)
Definition garantir_saldo_inicial (conta : Conta) (p : string) : Conta :=
  let saldos := default ∅ (saldos_iniciais conta) in
  {| programas := programas conta;
     movimentacoes := movimentacoes conta;
     saldos_iniciais :=
       Some (match saldos !! p with
             | Some _ => saldos
             | None => <[p := {| si_Capital := Some 0; si_Custeio := Some 0 |}]> saldos
             end) |}.

(** The two inputs of a program are built from [si['Capital']] and
    [si['Custeio']]: both keys must exist. *)
Definition ler_saldo_inicial (si : SaldoInicial) : result (Q * Q) :=
  n_cap ← (match si_Capital si with Some v => Ok v | None => Raise (KeyError "Capital") end);
  n_cus ← (match si_Custeio si with Some v => Ok v | None => Raise (KeyError "Custeio") end);
  Ok (n_cap, n_cus).

(** The loop "Saldos Iniciais" when no button is pressed. The account is
    changed in place, so what the turns that ran have set stays in the
    session when a turn raises: the result is the account as the run leaves
    it, and the exception that ended the run, if any. *)
Fixpoint laco_saldos_iniciais (progs : list string) (conta : Conta)
    : Conta * option exc :=
  match progs with
  | [] => (conta, None)
  | p :: progs =>
      let conta := garantir_saldo_inicial conta p in
      match si ← dict_index (default ∅ (saldos_iniciais conta)) p;
            ler_saldo_inicial si with
      | Ok _ => laco_saldos_iniciais progs conta
      | Raise e => (conta, Some e)
      end
  end.

Definition garantir_saldos_iniciais (conta : Conta) : Conta * option exc :=
  laco_saldos_iniciais (programas conta) conta.

(** One turn of the loop for program [p] with its button "Salvar" pressed;
    [n_cap] and [n_cus] are the values of the two inputs. The inputs are
    built from [si['Capital']] and [si['Custeio']], which must exist. *)
Definition salvar_saldo_inicial (db : Db) (accounts : gmap string Conta)
    (nome p : string) (n_cap n_cus : Q)
    : result (gmap string Conta * list st_msg) :=
  conta ← dict_index accounts nome;
  let conta := garantir_saldo_inicial conta p in
  let saldos := default ∅ (saldos_iniciais conta) in
  si ← dict_index saldos p;
  _ ← (match si_Capital si with Some v => Ok v | None => Raise (KeyError "Capital") end);
  _ ← (match si_Custeio si with Some v => Ok v | None => Raise (KeyError "Custeio") end);
  Ok (<[nome := {| programas := programas conta;
                   movimentacoes := movimentacoes conta;
                   saldos_iniciais :=
                     Some (<[p := {| si_Capital := Some n_cap;
                                     si_Custeio := Some n_cus |}]> saldos) |}]>
        accounts,
      save_account_to_firebase db).

(** *** [render_year_view], first tab: the form *)

Definition registros_existentes (accounts : gmap string Conta)
    (conta_atual : string) (mes_selecionado ano_atual : Z) : result (list Mov) :=
  conta ← dict_index accounts conta_atual;
  let movs := default [] (movimentacoes conta) in
  Ok (List.filter (mesmo_periodo current_year mes_selecionado ano_atual) movs).

Definition val_rendimento_inicial (registros : list Mov) : Q :=
  match registros with
  | [] => 0
  | _ => pysum (map total_rendimento registros)
  end.

(** The values the four inputs of [prog] start with. *)
Definition valores_iniciais (registros : list Mov) (prog : string) : Entrada :=
  match List.find (λ m, String.eqb (programa m) prog) registros with
  | Some prog_data =>
      {| cred_cap := credito_capital prog_data;
         cred_cus := credito_custeio prog_data;
         deb_cap := debito_capital prog_data;
         deb_cus := debito_custeio prog_data |}
  | None => {| cred_cap := 0; cred_cus := 0; deb_cap := 0; deb_cus := 0 |}
  end.

(** [dados_entrada] as the loop over [programas] fills it; [digitado] gives
    the values read from the inputs of each program. *)
Definition montar_dados_entrada (progs : list string)
    (digitado : string → Entrada) : list (string * Entrada) :=
  fold_left (λ dados prog, dict_set prog (digitado prog) dados) progs [].

(** *** [render_year_view], second tab: the monthly statement *)

Definition do_ano_padrao (p : string) (ano_atual : Z) (m : Mov) : bool :=
  String.eqb (programa m) p && (mov_ano_de current_year m =? ano_atual)%Z.

Fixpoint laco_extrato (p : string) (movs_prog_ano : list Mov)
    (saldo_acumulado_cap saldo_acumulado_cus : Q)
    (dados_tabela : list LinhaExtrato) : result (list LinhaExtrato) :=
  match movs_prog_ano with
  | [] => Ok dados_tabela
  | m :: resto =>
      let saldo_acumulado_cap :=
        saldo_acumulado_cap
        + (credito_capital m + rendimento_capital m - debito_capital m) in
      let saldo_acumulado_cus :=
        saldo_acumulado_cus
        + (credito_custeio m + rendimento_custeio m - debito_custeio m) in
      let saldo_total := saldo_acumulado_cap + saldo_acumulado_cus in
      nome_mes ← (match meses !! mes_num m with
                   | Some s => Ok s
                   | None => Raise (KeyError (pretty (mes_num m)))
                   end);
      laco_extrato p resto saldo_acumulado_cap saldo_acumulado_cus
        (dados_tabela ++
         [ {| le_programa := p; le_mes := nome_mes;
              le_credito := total_credito m;
              le_rend_cap := rendimento_capital m;
              le_rend_cust := rendimento_custeio m;
              le_rend_total := total_rendimento m;
              le_debito := total_debito m;
              le_s_custeio := saldo_acumulado_cus;
              le_s_capital := saldo_acumulado_cap;
              le_s_total := saldo_total |} ])
  end.

(** The synthetic row closing the rows of one program. *)
Definition linha_total_extrato (df_prog : list LinhaExtrato) : LinhaExtrato :=
  {| le_programa := "TOTAL"; le_mes := "---";
     le_credito := pysum (map le_credito df_prog);
     le_rend_cap := pysum (map le_rend_cap df_prog);
     le_rend_cust := pysum (map le_rend_cust df_prog);
     le_rend_total := pysum (map le_rend_total df_prog);
     le_debito := pysum (map le_debito df_prog);
     le_s_custeio := List.last (map le_s_custeio df_prog) 0;
     le_s_capital := List.last (map le_s_capital df_prog) 0;
     le_s_total := List.last (map le_s_total df_prog) 0 |}.

(** The body of [for p in programas_para_listar]: the rows it adds. *)
Definition extrato_programa (accounts : gmap string Conta) (conta_atual : string)
    (ano_atual : Z) (movs : list Mov) (p : string) : result (list LinhaExtrato) :=
  saldo_acumulado_cap ← get_saldo_anterior current_year accounts conta_atual p
                          Capital 1 ano_atual;
  saldo_acumulado_cus ← get_saldo_anterior current_year accounts conta_atual p
                          Custeio 1 ano_atual;
  let movs_prog_ano := ordenar_por_mes (List.filter (do_ano_padrao p ano_atual) movs) in
  dados_tabela ← laco_extrato p movs_prog_ano saldo_acumulado_cap
                   saldo_acumulado_cus [];
  match dados_tabela with
  | [] => Ok []
  | _ => Ok (dados_tabela ++ [linha_total_extrato dados_tabela])
  end.

Fixpoint laco_extrato_mensal (accounts : gmap string Conta) (conta_atual : string)
    (ano_atual : Z) (movs : list Mov) (progs : list string)
    (df_final : list LinhaExtrato) : result (list LinhaExtrato) :=
  match progs with
  | [] => Ok df_final
  | p :: resto =>
      linhas ← extrato_programa accounts conta_atual ano_atual movs p;
      laco_extrato_mensal accounts conta_atual ano_atual movs resto
        (df_final ++ linhas)
  end.

Definition extrato_mensal (accounts : gmap string Conta) (conta_atual : string)
    (ano_atual : Z) (programas_para_listar : list string)
    : result (list LinhaExtrato) :=
  conta ← dict_index accounts conta_atual;
  let movs := default [] (movimentacoes conta) in
  laco_extrato_mensal accounts conta_atual ano_atual movs programas_para_listar [].

(** *** [render_year_view], third tab: the total row *)

Definition linha_total_geral (df_resumo : list LinhaResumo) : LinhaResumo :=
  {| lr_programa := "TOTAL GERAL";
     lr_saldo_anterior := pysum (map lr_saldo_anterior df_resumo);
     lr_credito := pysum (map lr_credito df_resumo);
     lr_rendimento := pysum (map lr_rendimento df_resumo);
     lr_debito := pysum (map lr_debito df_resumo);
     lr_saldo_final := pysum (map lr_saldo_final df_resumo) |}.

Definition resumo_com_total (accounts : gmap string Conta) (conta_atual : string)
    (ano_atual : Z) (progs : list string)
    : result (list LinhaResumo * list st_msg) :=
  dados_resumo ← resumo_anual current_year accounts conta_atual ano_atual progs;
  match dados_resumo with
  | [] => Ok ([], [st_info "Sem dados para gerar resumo."])
  | _ => Ok (dados_resumo ++ [linha_total_geral dados_resumo], [])
  end.

(** *** The ledgers the application builds *)

(** What is expected of an account: its programs are listed once, there is
    at most one movement per program, year and month, and every movement
    carries a year, a month from 1 to 12 and totals that agree with its
    base fields. *)
Definition conta_ok (c : Conta) : Prop :=
  NoDup (programas c)
  ∧ no_maximo_um current_year (movs_de c)
  ∧ Forall (λ m, is_Some (ano m) ∧ (1 ≤ mes_num m ≤ 12)%Z ∧ totais_consistentes m)
      (movs_de c).

(** One action of the user that may change the ledger. A save takes its
    month from the month selector, whose options are the keys of [meses],
    and its entries from the form. Showing the initial balances leaves the
    account as the loop left it, whether it ran to its end or raised. *)
Inductive passo (db : Db) : gmap string Conta → gmap string Conta → Prop :=
  | passo_adicionar_conta accounts nova_conta :
      passo db accounts (adicionar_conta db accounts nova_conta).1
  | passo_adicionar_programa accounts nome novo accounts' msgs :
      adicionar_programa db accounts nome novo = Ok (accounts', msgs) →
      passo db accounts accounts'
  | passo_mostrar_saldos accounts nome c :
      accounts !! nome = Some c →
      passo db accounts (<[nome := (garantir_saldos_iniciais c).1]> accounts)
  | passo_salvar_saldo_inicial accounts nome p n_cap n_cus accounts' msgs :
      salvar_saldo_inicial db accounts nome p n_cap n_cus = Ok (accounts', msgs) →
      passo db accounts accounts'
  | passo_salvar_lancamento accounts conta mes ano_ rendimento progs digitado
      accounts' msgs :
      is_Some (meses !! mes) →
      salvar_lancamento current_year db accounts conta mes ano_ rendimento
        (montar_dados_entrada progs digitado) = Ok (accounts', msgs) →
      passo db accounts accounts'.

End Operacoes.

(** Two accounts for the initial-balance editor: in the first P2 has no
    initial balance yet; in the second the entry of P1 lacks ['Capital']. *)
Definition conta_sem_P2 : Conta :=
  {| programas := ["P1"; "P2"];
     movimentacoes := Some [mov_P1_jan];
     saldos_iniciais :=
       Some {[ "P1" := {| si_Capital := Some 100%Q; si_Custeio := Some 0%Q |} ]} |}.

Definition conta_incompleta : Conta :=
  {| programas := ["P1"; "P2"];
     movimentacoes := Some [];
     saldos_iniciais :=
       Some {[ "P1" := {| si_Capital := None; si_Custeio := Some 7%Q |} ]} |}.

(** * Properties *)

Local Open Scope Q_scope.

(** ** Amounts *)

Lemma fold_left_Qplus_shift (xs : list Q) (a : Q) :
  fold_left Qplus xs a == a + soma xs.
Proof.
  revert a. induction xs as [|x xs IH]; intros a; simpl.
  - ring.
  - rewrite IH. ring.
Qed.

Lemma pysum_soma (xs : list Q) : pysum xs == soma xs.
Proof. unfold pysum. rewrite fold_left_Qplus_shift. ring. Qed.

Lemma soma_app (xs ys : list Q) : soma (xs ++ ys) == soma xs + soma ys.
Proof.
  induction xs as [|x xs IH]; simpl.
  - ring.
  - rewrite IH. ring.
Qed.

Lemma soma_todos_zero {A} (f : A → Q) (l : list A) :
  Forall (λ x, f x == 0) l → soma (map f l) == 0.
Proof.
  induction 1 as [|x l Hx _ IH]; simpl; [reflexivity|]. rewrite Hx, IH. ring.
Qed.

Lemma Qgt_bool_true (a b : Q) : Qgt_bool a b = true ↔ b < a.
Proof.
  unfold Qgt_bool. rewrite negb_true_iff. split.
  - intros H. apply Qnot_le_lt. intros Hle.
    apply Qle_bool_iff in Hle. congruence.
  - intros H. destruct (Qle_bool a b) eqn:E; [|done].
    apply Qle_bool_iff in E. exfalso. revert E. by apply Qlt_not_le.
Qed.

Lemma Qgt_bool_false (a b : Q) : Qgt_bool a b = false ↔ a <= b.
Proof.
  unfold Qgt_bool. rewrite negb_false_iff. apply Qle_bool_iff.
Qed.

Lemma pymax0_neg (x : Q) : x <= 0 → pymax0 x = 0.
Proof.
  intros H. unfold pymax0. apply Qgt_bool_false in H. by rewrite H.
Qed.

Lemma pymax0_pos (x : Q) : 0 < x → pymax0 x = x.
Proof.
  intros H. unfold pymax0. apply Qgt_bool_true in H. by rewrite H.
Qed.

Lemma pymax0_nonneg (x : Q) : 0 <= pymax0 x.
Proof.
  unfold pymax0. destruct (Qgt_bool x 0) eqn:E.
  - apply Qgt_bool_true in E. by apply Qlt_le_weak.
  - apply Qle_refl.
Qed.

(** [max(0, x)] is the mathematical maximum of 0 and [x]. *)
Lemma pymax0_Qmax (x : Q) : pymax0 x == Qmax 0 x.
Proof.
  destruct (Qlt_le_dec 0 x) as [H|H].
  - rewrite pymax0_pos by done. symmetry. apply Q.max_r. by apply Qlt_le_weak.
  - rewrite pymax0_neg by done. symmetry. by apply Q.max_l.
Qed.

Lemma pydiv_ok (a b : Q) : 0 < b → pydiv a b = Ok (a / b).
Proof.
  intros H. unfold pydiv. destruct (Qeq_bool b 0) eqn:E; [|done].
  apply Qeq_bool_eq in E. rewrite E in H. by apply Qlt_irrefl in H.
Qed.

(** ** Balance reconstruction *)


Section Saldo.

Variable current_year : Z.

Lemma get_saldo_anterior_found accounts a c prog tipo mes ano_ :
  accounts !! a = Some c →
  get_saldo_anterior current_year accounts a prog tipo mes ano_
  = Ok (saldo_conta current_year c prog tipo mes ano_).
Proof.
  intros Hc. unfold get_saldo_anterior, dict_index. by rewrite Hc.
Qed.

Lemma get_saldo_anterior_missing accounts a prog tipo mes ano_ :
  accounts !! a = None →
  get_saldo_anterior current_year accounts a prog tipo mes ano_
  = Raise (KeyError a).
Proof.
  intros Hc. unfold get_saldo_anterior, dict_index. by rewrite Hc.
Qed.

Lemma eh_passado_antes y m ty tm :
  eh_passado y m ty tm = bool_decide (antes y m ty tm).
Proof.
  unfold eh_passado, antes.
  destruct (Z.ltb_spec y ty), (Z.eqb_spec y ty), (Z.ltb_spec m tm); simpl;
    symmetry; first [ apply bool_decide_eq_true; lia
                    | apply bool_decide_eq_false; lia ].
Qed.

Lemma passo_condicao prog mes ano_ m :
  String.eqb (programa m) prog &&
    eh_passado (mov_ano_de current_year m) (mes_num m) ano_ mes
  = anteriores current_year prog mes ano_ m.
Proof.
  unfold anteriores. rewrite eh_passado_antes.
  destruct (String.eqb_spec (programa m) prog) as [E|E]; simpl.
  - destruct (decide (antes (mov_ano_de current_year m) (mes_num m) ano_ mes)).
    + rewrite !bool_decide_eq_true_2; [done|done|done].
    + rewrite !bool_decide_eq_false_2; [done|tauto|done].
  - symmetry. apply bool_decide_eq_false. tauto.
Qed.

Lemma passo_saldo_liquido prog tipo mes ano_ s m :
  passo_saldo current_year prog tipo mes ano_ s m
  = if anteriores current_year prog mes ano_ m then s + liquido tipo m else s.
Proof.
  unfold passo_saldo. cbv zeta. rewrite passo_condicao.
  destruct (anteriores current_year prog mes ano_ m); [|done]. by destruct tipo.
Qed.

Lemma fold_passo_soma prog tipo mes ano_ movs s :
  fold_left (passo_saldo current_year prog tipo mes ano_) movs s
  == s + soma (map (liquido tipo)
                 (List.filter (anteriores current_year prog mes ano_) movs)).
Proof.
  revert s. induction movs as [|m movs IH]; intros s; simpl.
  - ring.
  - rewrite IH, passo_saldo_liquido.
    destruct (anteriores current_year prog mes ano_ m); simpl; ring.
Qed.

(** Skipping movements the loop body ignores does not change the fold. *)
Lemma fold_passo_filter prog tipo mes ano_ (keep : Mov → bool) movs s :
  (∀ m, keep m = false → anteriores current_year prog mes ano_ m = false) →
  fold_left (passo_saldo current_year prog tipo mes ano_) (List.filter keep movs) s
  = fold_left (passo_saldo current_year prog tipo mes ano_) movs s.
Proof.
  intros Hk. revert s. induction movs as [|m movs IH]; intros s; simpl; [done|].
  destruct (keep m) eqn:E; simpl.
  - apply IH.
  - rewrite IH, (passo_saldo_liquido _ _ _ _ s m), (Hk m E). done.
Qed.

Lemma saldo_semente_inicial saldos prog tipo :
  saldo_semente saldos prog tipo == saldo_inicial saldos prog tipo.
Proof.
  unfold saldo_semente, saldo_inicial.
  destruct (saldos !! prog) as [si|]; [|reflexivity].
  destruct tipo; ring.
Qed.

Lemma saldo_conta_priorBalance c prog tipo mes ano_ :
  saldo_conta current_year c prog tipo mes ano_ == priorBalance current_year c prog tipo mes ano_.
Proof.
  unfold saldo_conta, priorBalance.
  rewrite fold_passo_soma, saldo_semente_inicial. reflexivity.
Qed.

Lemma mesmo_periodo_nao_anterior prog mes ano_ m :
  negb (mesmo_periodo current_year mes ano_ m) = false →
  anteriores current_year prog mes ano_ m = false.
Proof.
  unfold mesmo_periodo, anteriores, antes. rewrite negb_false_iff.
  intros [H1 H2]%andb_true_iff.
  apply Z.eqb_eq in H1; apply Z.eqb_eq in H2.
  apply bool_decide_eq_false. lia.
Qed.

End Saldo.

(** ** Strictly-before reconstruction *)

(** C2. For an account of the ledger, [get_saldo_anterior] returns the
    program's initial balance for the category plus the sum of
    credit + yield − debit over exactly the movements of that program whose
    (year, month) is strictly before the target; dropping every movement of
    the target month from the account leaves the result unchanged. *)
Theorem C2_strictly_before_reconstruction
    (current_year : Z) (accounts : gmap string Conta) (a : string) (c : Conta)
    (prog : string) (tipo : TipoRecurso) (mes ano_ : Z) :
  accounts !! a = Some c →
  ∃ b, get_saldo_anterior current_year accounts a prog tipo mes ano_ = Ok b
     ∧ b == priorBalance current_year c prog tipo mes ano_
     ∧ get_saldo_anterior current_year
         (<[a := set_movimentacoes c
                   (List.filter (λ m, negb (mesmo_periodo current_year mes ano_ m))
                      (movs_de c))]> accounts)
         a prog tipo mes ano_ = Ok b.
Proof.
  intros Hc. exists (saldo_conta current_year c prog tipo mes ano_).
  split; [by apply get_saldo_anterior_found|].
  split; [apply saldo_conta_priorBalance|].
  erewrite get_saldo_anterior_found by apply lookup_insert_eq.
  f_equal. unfold saldo_conta, movs_de, saldos_de; simpl.
  apply fold_passo_filter. intros m. apply mesmo_periodo_nao_anterior.
Qed.

Lemma C2_witness :
  ({[ "A" := conta_A ]} : gmap string Conta) !! "A" = Some conta_A ∧
  ∃ b, get_saldo_anterior 2024 {[ "A" := conta_A ]} "A" "P1" Capital 2 2024 = Ok b
     ∧ b == priorBalance 2024 conta_A "P1" Capital 2 2024
     ∧ get_saldo_anterior 2024
         (<[ "A" := set_movimentacoes conta_A
                   (List.filter (λ m, negb (mesmo_periodo 2024 2 2024 m))
                      (movs_de conta_A))]> {[ "A" := conta_A ]})
         "A" "P1" Capital 2 2024 = Ok b.
Proof.
  split; [reflexivity|].
  apply (C2_strictly_before_reconstruction 2024 {[ "A" := conta_A ]} "A" conta_A
           "P1" Capital 2 2024).
  reflexivity.
Defined.

Example saldo_P1_fevereiro :
  get_saldo_anterior 2024 {[ "A" := conta_A ]} "A" "P1" Capital 2 2024 = Ok (0 + 100 + (0 + 5 - 0)).
Proof. reflexivity. Qed.

Example saldo_P1_janeiro :
  get_saldo_anterior 2024 {[ "A" := conta_A ]} "A" "P1" Capital 1 2024 = Ok (0 + 100).
Proof. reflexivity. Qed.

(** ** Unknown references *)

Lemma saldo_semente_sem_entrada saldos prog tipo :
  saldos !! prog = None → saldo_semente saldos prog tipo = 0.
Proof. intros H. unfold saldo_semente. by rewrite H. Qed.

Lemma fold_passo_outro_programa current_year prog tipo mes ano_ movs s :
  Forall (λ m, programa m ≠ prog) movs →
  fold_left (passo_saldo current_year prog tipo mes ano_) movs s = s.
Proof.
  intros H. revert s. induction H as [|m movs Hm _ IH]; intros s; simpl; [done|].
  rewrite IH. unfold passo_saldo. cbv zeta.
  destruct (String.eqb_spec (programa m) prog); [done|done].
Qed.

(** C7, as the code has it. For an account of the ledger the balance query
    always returns; a program without an initial-balance entry is seeded
    with 0, so its balance is the replay of its prior movements from 0, and
    exactly 0 when no movement names it. An account that is absent from
    the ledger makes the query raise [KeyError]. *)
Theorem C7_unknown_program_is_zero
    (current_year : Z) (accounts : gmap string Conta) (a : string) (c : Conta)
    (prog : string) (tipo : TipoRecurso) (mes ano_ : Z) :
  accounts !! a = Some c →
  saldos_de c !! prog = None →
  (∃ b, get_saldo_anterior current_year accounts a prog tipo mes ano_ = Ok b
      ∧ b = fold_left (passo_saldo current_year prog tipo mes ano_) (movs_de c) 0
      ∧ (Forall (λ m, programa m ≠ prog) (movs_de c) → b = 0))
  ∧ (∀ prog' tipo' mes' ano', ∃ b',
       get_saldo_anterior current_year accounts a prog' tipo' mes' ano' = Ok b')
  ∧ (∀ a', accounts !! a' = None →
       get_saldo_anterior current_year accounts a' prog tipo mes ano_
       = Raise (KeyError a')).
Proof.
  intros Hc Hp. split; [|split].
  - eexists. split; [by apply get_saldo_anterior_found|].
    unfold saldo_conta. rewrite saldo_semente_sem_entrada by done.
    split; [done|]. intros Hm. by apply fold_passo_outro_programa.
  - intros prog' tipo' mes' ano'. eexists. by apply get_saldo_anterior_found.
  - intros a' Ha'. by apply get_saldo_anterior_missing.
Qed.

Lemma C7_witness :
  ({[ "A" := conta_A ]} : gmap string Conta) !! "A" = Some conta_A ∧
  saldos_de conta_A !! "P9" = None ∧
  (∃ b, get_saldo_anterior 2024 {[ "A" := conta_A ]} "A" "P9" Total 6 2024 = Ok b
      ∧ b = fold_left (passo_saldo 2024 "P9" Total 6 2024) (movs_de conta_A) 0
      ∧ (Forall (λ m, programa m ≠ "P9") (movs_de conta_A) → b = 0)).
Proof.
  split; [reflexivity|]. split; [reflexivity|].
  apply (C7_unknown_program_is_zero 2024 {[ "A" := conta_A ]} "A" conta_A
           "P9" Total 6 2024); reflexivity.
Defined.

(** C7 as stated fails for an account that was never created: the query
    raises [KeyError] instead of yielding a zero balance. *)
Lemma C7_unknown_account_raises :
  get_saldo_anterior 2024 {[ "A" := conta_A ]} "B" "P1" Total 1 2024
  = Raise (KeyError "B")
  ∧ ¬ ∃ b, get_saldo_anterior 2024 {[ "A" := conta_A ]} "B" "P1" Total 1 2024 = Ok b.
Proof.
  split; [reflexivity|]. intros [b Hb]. vm_compute in Hb. discriminate Hb.
Qed.

(** ** Movements without a year *)






(** The two components disagree on the example ledger: seen from January
    2025 the balance of P1 holds the 40 of the movement without a year,
    while the 2024 summary closes without it. *)
Example sem_ano_diverge :
  get_saldo_anterior 2024 {[ "A" := conta_A_legado ]} "A" "P1" Total 1 2025
    = Ok (0 + (100 + 0) + (0 + 5 - 0) + (40 + 0 - 0))
  ∧ lr_saldo_final <$>
      (match resumo_programa 2024 {[ "A" := conta_A_legado ]} "A" 2024
               (movs_de conta_A_legado) "P1" with
       | Ok l => Some l | Raise _ => None end)
    = Some (0 + (100 + 0) + (0 + 0) + (0 + 5) - (0 + 0)).
Proof. split; reflexivity. Qed.

(** ** Balance continuity across years *)

(** With a stored year and a month of at least 1, a movement of [prog] is
    before January of [Y + 1] exactly when it is before January of [Y] or
    belongs to [Y], and never both. *)
Lemma anteriores_virada current_year prog Y m :
  is_Some (ano m) → (1 ≤ mes_num m)%Z →
  if do_ano prog Y m
  then anteriores current_year prog 1 Y m = false
       ∧ anteriores current_year prog 1 (Y + 1) m = true
  else anteriores current_year prog 1 (Y + 1) m = anteriores current_year prog 1 Y m.
Proof.
  intros [y Hy] Hmes. unfold do_ano, anteriores, antes, mov_ano_de.
  rewrite Hy. simpl.
  destruct (String.eqb_spec (programa m) prog) as [Hp|Hp]; simpl.
  - destruct (Z.eqb_spec y Y) as [->|Hne].
    + split.
      * apply bool_decide_eq_false. intros [_ H]. lia.
      * apply bool_decide_eq_true. split; [done|lia].
    + apply bool_decide_ext. split; intros [H1 H2]; (split; [done|lia]).
  - apply bool_decide_ext. tauto.
Qed.

Lemma soma_virada current_year prog tipo Y movs :
  Forall (λ m, is_Some (ano m) ∧ (1 ≤ mes_num m ≤ 12)%Z) movs →
  soma (map (liquido tipo) (List.filter (anteriores current_year prog 1 (Y + 1)) movs))
  == soma (map (liquido tipo) (List.filter (anteriores current_year prog 1 Y) movs))
     + soma (map (liquido tipo) (List.filter (do_ano prog Y) movs)).
Proof.
  induction 1 as [|m movs [Hy [Hlo _]] _ IH]; simpl; [ring|].
  pose proof (anteriores_virada current_year prog Y m Hy Hlo) as Hv.
  destruct (do_ano prog Y m).
  - destruct Hv as [-> ->]. simpl. rewrite IH. ring.
  - rewrite Hv. destruct (anteriores current_year prog 1 Y m); simpl; rewrite IH; ring.
Qed.

Lemma soma_liquido_total (l : list Mov) :
  soma (map (liquido Total) l)
  == soma (map total_credito l) + soma (map total_rendimento l)
     - soma (map total_debito l).
Proof.
  induction l as [|m l IH]; simpl; [ring|]. rewrite IH. ring.
Qed.

Lemma resumo_programa_found current_year accounts a c Y movs prog :
  accounts !! a = Some c →
  ∃ linha, resumo_programa current_year accounts a Y movs prog = Ok linha
    ∧ lr_programa linha = prog
    ∧ lr_saldo_anterior linha = saldo_conta current_year c prog Total 1 Y
    ∧ lr_saldo_final linha
      == saldo_conta current_year c prog Total 1 Y
         + soma (map (liquido Total) (List.filter (do_ano prog Y) movs)).
Proof.
  intros Hc. unfold resumo_programa.
  rewrite (get_saldo_anterior_found _ _ _ _ _ _ _ _ Hc). simpl.
  eexists. split; [done|]. simpl. split; [done|]. split; [done|].
  rewrite !pysum_soma, soma_liquido_total. ring.
Qed.

Lemma laco_resumo_found current_year accounts a c Y movs progs acc :
  accounts !! a = Some c →
  ∃ linhas, laco_resumo current_year accounts a Y movs progs acc = Ok (acc ++ linhas)
    ∧ Forall2 (λ prog linha,
         resumo_programa current_year accounts a Y movs prog = Ok linha)
        progs linhas.
Proof.
  intros Hc. revert acc. induction progs as [|prog progs IH]; intros acc; simpl.
  - exists []. by rewrite app_nil_r.
  - destruct (resumo_programa_found current_year accounts a c Y movs prog Hc)
      as (linha & Hl & _).
    rewrite Hl. simpl. destruct (IH (acc ++ [linha])) as (linhas & Hls & Hall).
    exists (linha :: linhas). rewrite Hls, <- app_assoc. simpl. by split; [|constructor].
Qed.

(** C3. When every movement of the account carries a year and a month in
    1–12, the balance before January of [Y + 1] is the balance before
    January of [Y] plus the nets of the program's movements of year [Y], in
    every category; and each row of the annual summary of [Y] closes on the
    Total balance before January of [Y + 1] of its program. *)
Theorem C3_balance_continuity
    (current_year : Z) (accounts : gmap string Conta) (a : string) (c : Conta)
    (Y : Z) :
  accounts !! a = Some c →
  Forall (λ m, is_Some (ano m) ∧ (1 ≤ mes_num m ≤ 12)%Z) (movs_de c) →
  (∀ prog tipo, ∃ b0 b1,
     get_saldo_anterior current_year accounts a prog tipo 1 Y = Ok b0
     ∧ get_saldo_anterior current_year accounts a prog tipo 1 (Y + 1) = Ok b1
     ∧ b1 == b0 + soma (map (liquido tipo)
                          (List.filter (do_ano prog Y) (movs_de c))))
  ∧ (∀ progs, ∃ linhas,
       resumo_anual current_year accounts a Y progs = Ok linhas
       ∧ Forall2 (λ prog linha,
            lr_programa linha = prog
            ∧ ∃ b1, get_saldo_anterior current_year accounts a prog Total 1 (Y + 1)
                    = Ok b1
                  ∧ lr_saldo_final linha == b1)
           progs linhas).
Proof.
  intros Hc Hwf.
  assert (Hcont : ∀ prog tipo,
    saldo_conta current_year c prog tipo 1 (Y + 1)
    == saldo_conta current_year c prog tipo 1 Y
       + soma (map (liquido tipo) (List.filter (do_ano prog Y) (movs_de c)))).
  { intros prog tipo. rewrite !saldo_conta_priorBalance. unfold priorBalance.
    rewrite (soma_virada current_year prog tipo Y (movs_de c) Hwf). ring. }
  split.
  - intros prog tipo. do 2 eexists.
    split; [by apply get_saldo_anterior_found|].
    split; [by apply get_saldo_anterior_found|]. apply Hcont.
  - intros progs. unfold resumo_anual, dict_index. rewrite Hc. simpl.
    destruct (laco_resumo_found current_year accounts a c Y (movs_de c) progs [] Hc)
      as (linhas & Hl & Hall).
    exists linhas. split; [exact Hl|].
    eapply Forall2_impl; [exact Hall|]. intros prog linha Hlinha. simpl in Hlinha.
    destruct (resumo_programa_found current_year accounts a c Y (movs_de c) prog Hc)
      as (linha' & Hl' & Hp & _ & Hfin).
    rewrite Hl' in Hlinha. injection Hlinha as <-.
    split; [done|]. eexists. split; [by apply get_saldo_anterior_found|].
    rewrite Hfin, Hcont. reflexivity.
Qed.

Lemma C3_witness :
  ({[ "A" := conta_A ]} : gmap string Conta) !! "A" = Some conta_A ∧
  Forall (λ m, is_Some (ano m) ∧ (1 ≤ mes_num m ≤ 12)%Z) (movs_de conta_A) ∧
  (∀ prog tipo, ∃ b0 b1,
     get_saldo_anterior 2024 {[ "A" := conta_A ]} "A" prog tipo 1 2024 = Ok b0
     ∧ get_saldo_anterior 2024 {[ "A" := conta_A ]} "A" prog tipo 1 (2024 + 1) = Ok b1
     ∧ b1 == b0 + soma (map (liquido tipo)
                          (List.filter (do_ano prog 2024) (movs_de conta_A)))).
Proof.
  assert (Hwf : Forall (λ m, is_Some (ano m) ∧ (1 ≤ mes_num m ≤ 12)%Z)
                  (movs_de conta_A)).
  { unfold conta_A, movs_de; simpl.
    repeat (constructor; [split; [by eexists | simpl; lia]|]).
    constructor. }
  split; [reflexivity|]. split; [exact Hwf|].
  apply (C3_balance_continuity 2024 {[ "A" := conta_A ]} "A" conta_A 2024);
    [reflexivity | exact Hwf].
Defined.

(** ** Yield apportionment *)

Section Rateio.

Variable current_year : Z.
Variables (accounts : gmap string Conta) (conta : string) (mes ano_ : Z).

Lemma laco_bases_found c dados sb t :
  accounts !! conta = Some c →
  laco_bases current_year accounts conta mes ano_ dados sb t
  = Ok (bases_finais current_year c mes ano_ dados sb,
        total_final current_year c mes ano_ dados t).
Proof.
  intros Hc. revert sb t. induction dados as [|[prog v] dados IH]; intros sb t.
  - done.
  - simpl. rewrite !(get_saldo_anterior_found _ _ _ _ _ _ _ _ Hc). simpl.
    by rewrite IH.
Qed.

Lemma laco_bases_missing pv dados sb t :
  accounts !! conta = None →
  laco_bases current_year accounts conta mes ano_ (pv :: dados) sb t
  = Raise (KeyError conta).
Proof.
  intros Hc. destruct pv as [prog v]. simpl.
  rewrite (get_saldo_anterior_missing _ _ _ prog Capital) by done. reflexivity.
Qed.

Lemma bases_finais_fora c dados sb k :
  k ∉ dados.*1 →
  bases_finais current_year c mes ano_ dados sb !! k = sb !! k.
Proof.
  revert sb. induction dados as [|pv dados IH]; intros sb Hk; [done|].
  simpl in *. apply not_elem_of_cons in Hk as [Hne Hk].
  unfold bases_finais in *. simpl. rewrite IH by done.
  by apply lookup_insert_ne.
Qed.

Lemma bases_finais_dentro c dados sb pv :
  NoDup dados.*1 → pv ∈ dados →
  bases_finais current_year c mes ano_ dados sb !! pv.1
  = Some (base_de current_year c mes ano_ pv).
Proof.
  revert sb. induction dados as [|x dados IH]; intros sb Hnd Hin.
  - by apply elem_of_nil in Hin.
  - simpl in Hnd. apply NoDup_cons in Hnd as [Hx Hnd].
    apply elem_of_cons in Hin as [->|Hin].
    + change (bases_finais current_year c mes ano_ (x :: dados) sb)
        with (bases_finais current_year c mes ano_ dados
                (<[x.1 := base_de current_year c mes ano_ x]> sb)).
      rewrite bases_finais_fora by done. apply lookup_insert_eq.
    + by apply IH.
Qed.

Lemma bases_finais_definido c dados sb k :
  k ∈ dados.*1 →
  is_Some (bases_finais current_year c mes ano_ dados sb !! k).
Proof.
  revert sb. induction dados as [|x dados IH]; intros sb Hin.
  - by apply elem_of_nil in Hin.
  - change (bases_finais current_year c mes ano_ (x :: dados) sb)
      with (bases_finais current_year c mes ano_ dados
              (<[x.1 := base_de current_year c mes ano_ x]> sb)).
    destruct (decide (k ∈ dados.*1)) as [Hk|Hk]; [by apply IH|].
    rewrite bases_finais_fora by done.
    simpl in Hin. apply elem_of_cons in Hin as [->|Hin]; [|done].
    rewrite lookup_insert_eq. by eexists.
Qed.

Lemma total_final_soma c dados t :
  total_final current_year c mes ano_ dados t
  == t + soma (map (λ pv, soma_bases (base_de current_year c mes ano_ pv)) dados).
Proof.
  revert t. induction dados as [|pv dados IH]; intros t; simpl.
  - ring.
  - unfold total_final in *. simpl. rewrite IH. ring.
Qed.

Lemma soma_bases_nonneg c pv : 0 <= soma_bases (base_de current_year c mes ano_ pv).
Proof.
  unfold soma_bases, base_de. simpl.
  apply (Qplus_le_compat 0 _ 0 _); apply pymax0_nonneg.
Qed.

Lemma fatores_ok (b : Bases) (t : Q) :
  fatores b t = Ok (fator (base_Capital b) t, fator (base_Custeio b) t).
Proof.
  unfold fatores, fator. destruct (Qgt_bool t 0) eqn:E; [|done].
  apply Qgt_bool_true in E. by rewrite !pydiv_ok.
Qed.

Lemma laco_resultados_ok R sb t dados acc :
  (∀ pv, pv ∈ dados → is_Some (sb !! pv.1)) →
  laco_resultados mes ano_ R sb t dados acc
  = Ok (acc ++ map (λ pv, registro mes ano_ R t
                            (default (mkBases 0 0) (sb !! pv.1)) pv) dados).
Proof.
  revert acc. induction dados as [|[prog v] dados IH]; intros acc Hsb; simpl.
  - by rewrite app_nil_r.
  - destruct (Hsb (prog, v)) as [b Hb]; [by left|]. simpl in Hb.
    unfold dict_index. rewrite Hb. simpl. rewrite fatores_ok. simpl.
    rewrite IH by (intros pv Hpv; apply Hsb; by right).
    by rewrite <- app_assoc.
Qed.

(** With the account in the ledger the call returns one record per entry,
    in the order of the entries. *)
Lemma calcular_rateio_rendimento_found c R dados :
  accounts !! conta = Some c →
  calcular_rateio_rendimento current_year accounts conta mes ano_ R dados
  = Ok (map (λ pv, registro mes ano_ R (total_final current_year c mes ano_ dados 0)
                     (default (mkBases 0 0)
                        (bases_finais current_year c mes ano_ dados ∅ !! pv.1)) pv)
          dados).
Proof.
  intros Hc. unfold calcular_rateio_rendimento, calcular_bases.
  rewrite (laco_bases_found c) by done. simpl.
  rewrite laco_resultados_ok; [done|].
  intros pv Hpv. apply bases_finais_definido. by apply list_elem_of_fmap_2.
Qed.

Lemma calcular_rateio_rendimento_NoDup c R dados :
  accounts !! conta = Some c → NoDup dados.*1 →
  calcular_rateio_rendimento current_year accounts conta mes ano_ R dados
  = Ok (map (λ pv, registro mes ano_ R (total_final current_year c mes ano_ dados 0)
                     (base_de current_year c mes ano_ pv) pv) dados).
Proof.
  intros Hc Hnd. rewrite (calcular_rateio_rendimento_found c) by done.
  f_equal. apply map_ext_in. intros pv Hpv.
  rewrite bases_finais_dentro; [done|done|]. by apply list_elem_of_In.
Qed.

End Rateio.

Lemma fator_positivo (b t : Q) : 0 < t → fator b t = b / t.
Proof. intros H. unfold fator. apply Qgt_bool_true in H. by rewrite H. Qed.

Lemma fator_pool_zero (b t : Q) : t == 0 → fator b t = 0.
Proof.
  intros H. unfold fator.
  assert (E : Qgt_bool t 0 = false); [|by rewrite E].
  apply Qgt_bool_false. rewrite H. apply Qle_refl.
Qed.

Lemma fator_base_zero (t : Q) : fator 0 t == 0.
Proof.
  unfold fator. destruct (Qgt_bool t 0) eqn:E; [|reflexivity].
  apply Qgt_bool_true in E. field. intros H. rewrite H in E.
  by apply Qlt_irrefl in E.
Qed.

Lemma soma_registros mes ano_ R t (f : string * Entrada → Bases) dados :
  0 < t →
  soma (map rendimento_emitido (map (λ pv, registro mes ano_ R t (f pv) pv) dados))
  == R * soma (map (λ pv, soma_bases (f pv)) dados) / t.
Proof.
  intros Ht.
  assert (Hne : ¬ t == 0).
  { intros H. rewrite H in Ht. by apply Qlt_irrefl in Ht. }
  induction dados as [|pv dados IH]; simpl.
  - by field.
  - rewrite IH. unfold rendimento_emitido, soma_bases. simpl.
    rewrite !fator_positivo by done. by field.
Qed.

(** C1. Whenever the pool total of the clamped bases is strictly positive,
    the call returns and the yields it emits, capital plus operating over
    all entries, add up to the reported total yield. *)
Theorem C1_yield_conservation
    (current_year : Z) (accounts : gmap string Conta) (conta : string)
    (mes ano_ : Z) (rendimento_total_banco : Q)
    (dados_entrada : list (string * Entrada))
    (saldos_base : gmap string Bases) (total_saldo_conta : Q) :
  NoDup dados_entrada.*1 →
  calcular_bases current_year accounts conta mes ano_ dados_entrada
    = Ok (saldos_base, total_saldo_conta) →
  0 < total_saldo_conta →
  ∃ resultados,
    calcular_rateio_rendimento current_year accounts conta mes ano_
      rendimento_total_banco dados_entrada = Ok resultados
    ∧ soma (map rendimento_emitido resultados) == rendimento_total_banco.
Proof.
  intros Hnd Hb Hpos. unfold calcular_bases in Hb.
  destruct (accounts !! conta) as [c|] eqn:Hc.
  - rewrite (laco_bases_found _ _ _ _ _ c) in Hb by done.
    injection Hb as Hsb Ht.
    rewrite (calcular_rateio_rendimento_NoDup _ _ _ _ _ c) by done.
    eexists. split; [done|]. rewrite Ht.
    rewrite soma_registros by done.
    pose proof (total_final_soma current_year mes ano_ c dados_entrada 0) as Hs.
    rewrite Ht in Hs.
    assert (Hne : ¬ total_saldo_conta == 0).
    { intros H. rewrite H in Hpos. by apply Qlt_irrefl in Hpos. }
    assert (Hs' : soma (map (λ pv, soma_bases (base_de current_year c mes ano_ pv))
                      dados_entrada) == total_saldo_conta).
    { rewrite Hs. ring. }
    rewrite Hs'. by field.
  - destruct dados_entrada as [|pv dados].
    + simpl in Hb. injection Hb as _ Ht. rewrite <- Ht in Hpos.
      by apply Qlt_irrefl in Hpos.
    + rewrite laco_bases_missing in Hb by done. discriminate Hb.
Qed.

Lemma C1_witness :
  NoDup entradas_jan.*1 ∧
  (0 < 200) ∧
  ∃ resultados,
    calcular_rateio_rendimento 2024 {[ "A" := conta_A0 ]} "A" 1 2024 10 entradas_jan
      = Ok resultados
    ∧ soma (map rendimento_emitido resultados) == 10.
Proof.
  assert (Hnd : NoDup entradas_jan.*1).
  { apply (bool_decide_unpack _). vm_compute. exact I. }
  split; [exact Hnd|]. split; [reflexivity|].
  apply (C1_yield_conservation 2024 {[ "A" := conta_A0 ]} "A" 1 2024 10 entradas_jan
           (bases_finais 2024 conta_A0 1 2024 entradas_jan ∅) 200).
  - exact Hnd.
  - vm_compute. reflexivity.
  - reflexivity.
Defined.

Example rateio_janeiro :
  rendimento_capital <$>
    (match calcular_rateio_rendimento 2024 {[ "A" := conta_A0 ]} "A" 1 2024 10
             entradas_jan with
     | Ok l => l | Raise _ => [] end)
  = [10 * ((0 + 100 + 0 - 0) / (0 + (0 + 100 + 0 - 0 + 0) + (0 + 0 + 100 - 0 + 0)));
     10 * ((0 + 0 + 100 - 0) / (0 + (0 + 100 + 0 - 0 + 0) + (0 + 0 + 100 - 0 + 0)))].
Proof. vm_compute. reflexivity. Qed.

(** ** Zero pool *)

(** C5. With the account in the ledger the first loop always returns. If
    every clamped base is zero the pool total is zero; and whenever the pool
    total is zero the call returns one record per entry, each with a zero
    yield in both categories: the division is never reached. *)
Theorem C5_zero_pool_safety
    (current_year : Z) (accounts : gmap string Conta) (conta : string) (c : Conta)
    (mes ano_ : Z) (rendimento_total_banco : Q)
    (dados_entrada : list (string * Entrada)) :
  accounts !! conta = Some c →
  ∃ saldos_base total_saldo_conta,
    calcular_bases current_year accounts conta mes ano_ dados_entrada
      = Ok (saldos_base, total_saldo_conta)
    ∧ (NoDup dados_entrada.*1 →
       Forall (λ pv, ∃ b, saldos_base !! pv.1 = Some b
                        ∧ base_Capital b == 0 ∧ base_Custeio b == 0) dados_entrada →
       total_saldo_conta == 0)
    ∧ (total_saldo_conta == 0 →
       ∃ resultados,
         calcular_rateio_rendimento current_year accounts conta mes ano_
           rendimento_total_banco dados_entrada = Ok resultados
         ∧ length resultados = length dados_entrada
         ∧ Forall (λ m, rendimento_capital m == 0 ∧ rendimento_custeio m == 0
                        ∧ total_rendimento m == 0) resultados).
Proof.
  intros Hc. do 2 eexists. unfold calcular_bases.
  split; [by apply laco_bases_found|]. split.
  - intros Hnd Hz. rewrite total_final_soma.
    assert (Hs : soma (map (λ pv, soma_bases (base_de current_year c mes ano_ pv))
                     dados_entrada) == 0); [|rewrite Hs; ring].
    assert (Hz' : Forall (λ pv, soma_bases (base_de current_year c mes ano_ pv) == 0)
                    dados_entrada).
    { apply Forall_forall. intros pv Hpv.
      rewrite Forall_forall in Hz. destruct (Hz pv Hpv) as (b & Hb & H1 & H2).
      rewrite bases_finais_dentro in Hb by done. injection Hb as <-.
      unfold soma_bases. rewrite H1, H2. ring. }
    by apply soma_todos_zero.
  - intros Hzero. rewrite (calcular_rateio_rendimento_found _ _ _ _ _ c) by done.
    eexists. split; [done|]. split; [by rewrite length_map|].
    apply Forall_forall. intros m Hm.
    apply list_elem_of_In, in_map_iff in Hm as (pv & <- & _). simpl.
    rewrite !fator_pool_zero by done. repeat split; ring.
Qed.

Lemma C5_witness :
  ({[ "A" := nova_estrutura ]} : gmap string Conta) !! "A" = Some nova_estrutura ∧
  ∃ saldos_base total_saldo_conta,
    calcular_bases 2024 {[ "A" := nova_estrutura ]} "A" 1 2024
      [("P1", mkEntrada 0 0 0 0); ("P2", mkEntrada 0 0 30 0)]
      = Ok (saldos_base, total_saldo_conta)
    ∧ (total_saldo_conta == 0 →
       ∃ resultados,
         calcular_rateio_rendimento 2024 {[ "A" := nova_estrutura ]} "A" 1 2024 10
           [("P1", mkEntrada 0 0 0 0); ("P2", mkEntrada 0 0 30 0)] = Ok resultados
         ∧ length resultados = 2%nat
         ∧ Forall (λ m, rendimento_capital m == 0 ∧ rendimento_custeio m == 0
                        ∧ total_rendimento m == 0) resultados).
Proof.
  split; [reflexivity|].
  destruct (C5_zero_pool_safety 2024 {[ "A" := nova_estrutura ]} "A" nova_estrutura
              1 2024 10 [("P1", mkEntrada 0 0 0 0); ("P2", mkEntrada 0 0 30 0)])
    as (sb & t & Hb & _ & Hz); [reflexivity|].
  exists sb, t. split; [exact Hb|exact Hz].
Defined.

Example pool_zero_exemplo :
  calcular_bases 2024 {[ "A" := nova_estrutura ]} "A" 1 2024
    [("P1", mkEntrada 0 0 0 0); ("P2", mkEntrada 0 0 30 0)]
  = Ok ({[ "P1" := mkBases 0 0; "P2" := mkBases 0 0 ]}, 0 + (0 + 0) + (0 + 0)).
Proof. vm_compute. reflexivity. Qed.

(** ** Derived totals *)

Lemma registro_consistente mes ano_ R t b pv :
  totais_consistentes (registro mes ano_ R t b pv).
Proof. by repeat split. Qed.

(** C9. With the account in the ledger the call returns, and every record
    it returns carries derived totals equal to the sums of its base fields:
    credits, debits and yields. *)
Theorem C9_derived_totals_consistent
    (current_year : Z) (accounts : gmap string Conta) (conta : string) (c : Conta)
    (mes ano_ : Z) (rendimento_total_banco : Q)
    (dados_entrada : list (string * Entrada)) :
  accounts !! conta = Some c →
  (∃ resultados,
     calcular_rateio_rendimento current_year accounts conta mes ano_
       rendimento_total_banco dados_entrada = Ok resultados)
  ∧ (∀ resultados,
       calcular_rateio_rendimento current_year accounts conta mes ano_
         rendimento_total_banco dados_entrada = Ok resultados →
       Forall totais_consistentes resultados).
Proof.
  intros Hc. rewrite (calcular_rateio_rendimento_found _ _ _ _ _ c) by done.
  split; [by eexists|]. intros res [= <-].
  apply Forall_forall. intros m Hm.
  apply list_elem_of_In, in_map_iff in Hm as (pv & <- & _).
  apply registro_consistente.
Qed.

Lemma C9_witness :
  ({[ "A" := conta_A0 ]} : gmap string Conta) !! "A" = Some conta_A0 ∧
  (∀ resultados,
     calcular_rateio_rendimento 2024 {[ "A" := conta_A0 ]} "A" 1 2024 10 entradas_jan
       = Ok resultados →
     Forall totais_consistentes resultados).
Proof.
  split; [reflexivity|].
  apply (C9_derived_totals_consistent 2024 {[ "A" := conta_A0 ]} "A" conta_A0
           1 2024 10 entradas_jan).
  reflexivity.
Defined.

(** ** Clamping *)

Lemma soma_meio {A} (f : A → Q) (l1 l2 : list A) (x : A) :
  soma (map f (l1 ++ x :: l2)) == soma (map f (l1 ++ l2)) + f x.
Proof.
  rewrite !map_app, !soma_app. simpl. ring.
Qed.

Lemma lookup_map_meio {A B} (f : A → B) (l1 l2 : list A) (x : A) :
  map f (l1 ++ x :: l2) !! length l1 = Some (f x).
Proof.
  rewrite map_app. simpl.
  rewrite lookup_app_r by (rewrite length_map; lia).
  rewrite length_map, Nat.sub_diag. done.
Qed.

Lemma rendimento_capital_registro mes ano_ R t b pv :
  rendimento_capital (registro mes ano_ R t b pv) = R * fator (base_Capital b) t.
Proof. reflexivity. Qed.

Lemma rendimento_custeio_registro mes ano_ R t b pv :
  rendimento_custeio (registro mes ano_ R t b pv) = R * fator (base_Custeio b) t.
Proof. reflexivity. Qed.

(** C4. Each program's base per category is max(0, prior balance + credit
    − debit). The entry's bases enter the pool total as they are clamped:
    the pool is the pool of the other entries plus the two clamped bases.
    When the unclamped base of a category is negative, the clamped base is
    exactly 0, the pool total is what it would be without that category of
    the program, and the record emitted for the program has a zero yield in
    that category. *)
Theorem C4_clamping
    (current_year : Z) (accounts : gmap string Conta) (conta : string) (c : Conta)
    (mes ano_ : Z) (rendimento_total_banco : Q)
    (l1 l2 : list (string * Entrada)) (prog : string) (valores : Entrada) :
  accounts !! conta = Some c →
  NoDup (l1 ++ (prog, valores) :: l2).*1 →
  ∃ saldo_ant_cap saldo_ant_cus saldos_base total outros_base outros_total
    resultados base_prog m,
    get_saldo_anterior current_year accounts conta prog Capital mes ano_
      = Ok saldo_ant_cap
    ∧ get_saldo_anterior current_year accounts conta prog Custeio mes ano_
      = Ok saldo_ant_cus
    ∧ calcular_bases current_year accounts conta mes ano_
        (l1 ++ (prog, valores) :: l2) = Ok (saldos_base, total)
    ∧ calcular_bases current_year accounts conta mes ano_ (l1 ++ l2)
      = Ok (outros_base, outros_total)
    ∧ calcular_rateio_rendimento current_year accounts conta mes ano_
        rendimento_total_banco (l1 ++ (prog, valores) :: l2) = Ok resultados
    ∧ saldos_base !! prog = Some base_prog
    ∧ resultados !! length l1 = Some m
    ∧ programa m = prog
    ∧ base_Capital base_prog
      == Qmax 0 (saldo_ant_cap + cred_cap valores - deb_cap valores)
    ∧ base_Custeio base_prog
      == Qmax 0 (saldo_ant_cus + cred_cus valores - deb_cus valores)
    ∧ total == outros_total + (base_Capital base_prog + base_Custeio base_prog)
    ∧ (saldo_ant_cap + cred_cap valores - deb_cap valores < 0 →
       base_Capital base_prog = 0
       ∧ total == outros_total + base_Custeio base_prog
       ∧ rendimento_capital m == 0)
    ∧ (saldo_ant_cus + cred_cus valores - deb_cus valores < 0 →
       base_Custeio base_prog = 0
       ∧ total == outros_total + base_Capital base_prog
       ∧ rendimento_custeio m == 0).
Proof.
  intros Hc Hnd.
  set (dados := l1 ++ (prog, valores) :: l2) in *.
  set (b := base_de current_year c mes ano_ (prog, valores)).
  exists (saldo_conta current_year c prog Capital mes ano_),
         (saldo_conta current_year c prog Custeio mes ano_),
         (bases_finais current_year c mes ano_ dados ∅),
         (total_final current_year c mes ano_ dados 0),
         (bases_finais current_year c mes ano_ (l1 ++ l2) ∅),
         (total_final current_year c mes ano_ (l1 ++ l2) 0),
         (map (λ pv, registro mes ano_ rendimento_total_banco
                       (total_final current_year c mes ano_ dados 0)
                       (base_de current_year c mes ano_ pv) pv) dados),
         b, (registro mes ano_ rendimento_total_banco
               (total_final current_year c mes ano_ dados 0) b (prog, valores)).
  assert (Htot : total_final current_year c mes ano_ dados 0
                 == total_final current_year c mes ano_ (l1 ++ l2) 0
                    + (base_Capital b + base_Custeio b)).
  { rewrite !total_final_soma. unfold dados.
    rewrite (soma_meio (λ pv, soma_bases (base_de current_year c mes ano_ pv))).
    unfold soma_bases. fold b. ring. }
  split; [by apply get_saldo_anterior_found|].
  split; [by apply get_saldo_anterior_found|].
  split; [by apply laco_bases_found|].
  split; [by apply laco_bases_found|].
  split; [by apply calcular_rateio_rendimento_NoDup|].
  split.
  { apply (bases_finais_dentro current_year mes ano_ c dados ∅ (prog, valores));
      [done|]. unfold dados. apply elem_of_app. right. by left. }
  split.
  { apply (lookup_map_meio
             (λ pv, registro mes ano_ rendimento_total_banco
                      (total_final current_year c mes ano_ dados 0)
                      (base_de current_year c mes ano_ pv) pv)
             l1 l2 (prog, valores)). }
  split; [done|].
  split; [apply pymax0_Qmax|].
  split; [apply pymax0_Qmax|].
  split; [exact Htot|].
  split.
  - intros Hneg.
    assert (Hz : base_Capital b = 0).
    { apply pymax0_neg. by apply Qlt_le_weak. }
    split; [exact Hz|]. split.
    + rewrite Htot, Hz. ring.
    + rewrite rendimento_capital_registro, Hz, fator_base_zero. ring.
  - intros Hneg.
    assert (Hz : base_Custeio b = 0).
    { apply pymax0_neg. by apply Qlt_le_weak. }
    split; [exact Hz|]. split.
    + rewrite Htot, Hz. ring.
    + rewrite rendimento_custeio_registro, Hz, fator_base_zero. ring.
Qed.

Lemma C4_witness :
  ({[ "A" := conta_A0 ]} : gmap string Conta) !! "A" = Some conta_A0 ∧
  NoDup ([("P1", mkEntrada 0 0 0 0)] ++ ("P2", mkEntrada 0 0 30 0) :: []).*1 ∧
  ∃ total outros resultados m,
    calcular_bases 2024 {[ "A" := conta_A0 ]} "A" 1 2024 [("P1", mkEntrada 0 0 0 0)]
      = Ok outros
    ∧ calcular_rateio_rendimento 2024 {[ "A" := conta_A0 ]} "A" 1 2024 10
        ([("P1", mkEntrada 0 0 0 0)] ++ ("P2", mkEntrada 0 0 30 0) :: [])
      = Ok resultados
    ∧ resultados !! 1%nat = Some m
    ∧ programa m = "P2"
    ∧ total == outros.2 + 0
    ∧ rendimento_capital m == 0.
Proof.
  assert (Hnd : NoDup ([("P1", mkEntrada 0 0 0 0)]
                       ++ ("P2", mkEntrada 0 0 30 0) :: []).*1).
  { apply (bool_decide_unpack _). vm_compute. exact I. }
  split; [reflexivity|]. split; [exact Hnd|].
  destruct (C4_clamping 2024 {[ "A" := conta_A0 ]} "A" conta_A0 1 2024 10
              [("P1", mkEntrada 0 0 0 0)] [] "P2" (mkEntrada 0 0 30 0))
    as (sc & su & sb & t & ob & ot & res & b & m
        & Hsc & Hsu & Hb & Ho & Hres & Hlk & Hm & Hp & _ & Hbu & _ & Hcap & _);
    [reflexivity | exact Hnd |].
  assert (Hneg : sc + cred_cap (mkEntrada 0 0 30 0) - deb_cap (mkEntrada 0 0 30 0) < 0).
  { vm_compute in Hsc. injection Hsc as <-. reflexivity. }
  destruct (Hcap Hneg) as (_ & Ht & Hr).
  assert (Hzu : base_Custeio b == 0).
  { rewrite Hbu. vm_compute in Hsu. injection Hsu as <-. reflexivity. }
  exists t, (ob, ot), res, m.
  split; [exact Ho|]. split; [exact Hres|]. split; [exact Hm|].
  split; [exact Hp|]. split; [|exact Hr].
  simpl. rewrite Ht, Hzu. reflexivity.
Defined.

Example clamp_exemplo :
  calcular_rateio_rendimento 2024 {[ "A" := conta_A0 ]} "A" 1 2024 10
    [("P1", mkEntrada 0 0 0 0); ("P2", mkEntrada 0 0 30 0)]
  = Ok [ registro 1 2024 10 (0 + (0 + 100 + 0 - 0 + 0) + (0 + 0))
           (mkBases (0 + 100 + 0 - 0) 0) ("P1", mkEntrada 0 0 0 0);
         registro 1 2024 10 (0 + (0 + 100 + 0 - 0 + 0) + (0 + 0))
           (mkBases 0 0) ("P2", mkEntrada 0 0 30 0) ].
Proof. vm_compute. reflexivity. Qed.

(** ** Saving a month *)

Section Salvar.

Variable current_year : Z.

Lemma filter_todos {A} (P : A → bool) (l : list A) :
  Forall (λ x, P x = true) l → List.filter P l = l.
Proof.
  induction 1 as [|x l Hx _ IH]; simpl; [done|]. by rewrite Hx, IH.
Qed.

Lemma filter_nenhum {A} (P : A → bool) (l : list A) :
  Forall (λ x, P x = false) l → List.filter P l = [].
Proof.
  induction 1 as [|x l Hx _ IH]; simpl; [done|]. by rewrite Hx.
Qed.

Lemma filter_filter_negb {A} (P : A → bool) (l : list A) :
  List.filter P (List.filter (λ x, negb (P x)) l) = [].
Proof.
  apply filter_nenhum, Forall_forall. intros x Hx.
  apply list_elem_of_In, filter_In in Hx as [_ Hx]. by apply negb_true_iff.
Qed.

Lemma filter_negb_idem {A} (P : A → bool) (l : list A) :
  List.filter (λ x, negb (P x)) (List.filter (λ x, negb (P x)) l)
  = List.filter (λ x, negb (P x)) l.
Proof.
  apply filter_todos, Forall_forall. intros x Hx.
  by apply list_elem_of_In, filter_In in Hx as [_ Hx].
Qed.

Lemma NoDup_map_filter {A B} (f : A → B) (P : A → bool) (l : list A) :
  NoDup (map f l) → NoDup (map f (List.filter P l)).
Proof.
  induction l as [|x l IH]; simpl; [done|].
  intros [Hx Hnd]%NoDup_cons. destruct (P x); simpl; [|by apply IH].
  apply NoDup_cons. split; [|by apply IH].
  intros (y & Hy & Hin)%list_elem_of_fmap.
  apply list_elem_of_In, filter_In in Hin as [Hin _].
  apply Hx, list_elem_of_fmap. exists y. split; [done|]. by apply list_elem_of_In.
Qed.

Lemma da_chave_mesmo_periodo prog mes ano_ m :
  da_chave current_year prog ano_ mes m = true →
  mesmo_periodo current_year mes ano_ m = true.
Proof.
  unfold da_chave, chave, mesmo_periodo. intros H%bool_decide_eq_true.
  injection H as _ Hy Hm. rewrite Hy, Hm, !Z.eqb_refl. done.
Qed.

(** The record of an entry sits in the saved period under the entry's key. *)
Lemma chave_registro mes ano_ R t b pv :
  chave current_year (registro mes ano_ R t b pv) = (pv.1, ano_, mes).
Proof. reflexivity. Qed.

Lemma mesmo_periodo_registro mes ano_ R t b pv :
  mesmo_periodo current_year mes ano_ (registro mes ano_ R t b pv) = true.
Proof.
  unfold mesmo_periodo, mov_ano_de. simpl. by rewrite !Z.eqb_refl.
Qed.

Section Registros.

Variables (mes ano_ : Z) (R t : Q) (f : string * Entrada → Bases).

Let reg (pv : string * Entrada) : Mov := registro mes ano_ R t (f pv) pv.

Lemma da_chave_reg prog pv :
  da_chave current_year prog ano_ mes (reg pv) = bool_decide (pv.1 = prog).
Proof.
  unfold da_chave, reg. rewrite chave_registro.
  apply bool_decide_ext. split; [by intros [= ->]|by intros ->].
Qed.

Lemma filter_chave_fora prog dados :
  prog ∉ dados.*1 →
  List.filter (da_chave current_year prog ano_ mes) (map reg dados) = [].
Proof.
  intros Hk. apply filter_nenhum, Forall_forall. intros m Hm.
  apply list_elem_of_In, in_map_iff in Hm as (pv & <- & Hpv).
  rewrite da_chave_reg. apply bool_decide_eq_false. intros <-.
  apply Hk, list_elem_of_fmap_2. by apply list_elem_of_In.
Qed.

Lemma filter_chave_dentro prog v dados :
  NoDup dados.*1 → (prog, v) ∈ dados →
  List.filter (da_chave current_year prog ano_ mes) (map reg dados) = [reg (prog, v)].
Proof.
  induction dados as [|x dados IH]; intros Hnd Hin.
  - by apply elem_of_nil in Hin.
  - simpl in Hnd. apply NoDup_cons in Hnd as [Hx Hnd]. simpl.
    rewrite da_chave_reg.
    apply elem_of_cons in Hin as [<-|Hin].
    + simpl. rewrite bool_decide_eq_true_2 by done.
      by rewrite filter_chave_fora.
    + rewrite bool_decide_eq_false_2; [by apply IH|].
      intros Heq. apply Hx. rewrite Heq.
      apply (list_elem_of_fmap_2 fst dados (prog, v)). done.
Qed.

Lemma filter_chave_no_maximo_um prog dados :
  NoDup dados.*1 →
  (length (List.filter (da_chave current_year prog ano_ mes) (map reg dados)) ≤ 1)%nat.
Proof.
  intros Hnd. destruct (decide (prog ∈ dados.*1)) as [Hk|Hk].
  - apply list_elem_of_fmap in Hk as ([p v] & -> & Hin).
    by rewrite (filter_chave_dentro p v).
  - rewrite filter_chave_fora by done. simpl. lia.
Qed.

Lemma NoDup_chave_reg dados :
  NoDup dados.*1 → NoDup (map (chave current_year) (map reg dados)).
Proof.
  induction dados as [|x dados IH]; simpl; [constructor|].
  intros [Hx Hnd]%NoDup_cons. apply NoDup_cons. split; [|by apply IH].
  intros (m & Hm & Hin)%list_elem_of_fmap.
  apply list_elem_of_In, in_map_iff in Hin as (pv & <- & Hpv).
  unfold reg in Hm. rewrite !chave_registro in Hm. injection Hm as Hm.
  apply Hx. rewrite Hm. apply list_elem_of_fmap_2. by apply list_elem_of_In.
Qed.

Lemma mesmo_periodo_reg dados :
  Forall (λ m, mesmo_periodo current_year mes ano_ m = true) (map reg dados).
Proof.
  apply Forall_forall. intros m Hm.
  apply list_elem_of_In, in_map_iff in Hm as (pv & <- & _).
  apply mesmo_periodo_registro.
Qed.

End Registros.

End Salvar.

Section Substituicao.

Variable current_year : Z.
Variables (mes ano_ : Z).

(** The list the save handler stores: the movements of the other periods,
    then the new records. *)
Lemma salvar_lancamento_found db accounts conta c R dados novos :
  accounts !! conta = Some c →
  calcular_rateio_rendimento current_year accounts conta mes ano_ R dados
    = Ok novos →
  salvar_lancamento current_year db accounts conta mes ano_ R dados
  = Ok (<[conta := set_movimentacoes c
                     (List.filter (λ m, negb (mesmo_periodo current_year mes ano_ m))
                        (movs_de c) ++ novos)]> accounts,
        save_account_to_firebase db ++ [st_success "Dados salvos com sucesso!"]).
Proof.
  intros Hc Hn. unfold salvar_lancamento, dict_index. rewrite Hn, Hc. done.
Qed.

Lemma periodo_apos_salvar (l novos : list Mov) :
  Forall (λ m, mesmo_periodo current_year mes ano_ m = true) novos →
  List.filter (mesmo_periodo current_year mes ano_)
    (List.filter (λ m, negb (mesmo_periodo current_year mes ano_ m)) l ++ novos)
  = novos.
Proof.
  intros Hn. rewrite List.filter_app, filter_filter_negb. simpl.
  by apply filter_todos.
Qed.

Lemma outros_apos_salvar (l novos : list Mov) :
  Forall (λ m, mesmo_periodo current_year mes ano_ m = true) novos →
  List.filter (λ m, negb (mesmo_periodo current_year mes ano_ m))
    (List.filter (λ m, negb (mesmo_periodo current_year mes ano_ m)) l ++ novos)
  = List.filter (λ m, negb (mesmo_periodo current_year mes ano_ m)) l.
Proof.
  intros Hn. rewrite List.filter_app, filter_negb_idem.
  rewrite (filter_nenhum _ novos); [by rewrite app_nil_r|].
  eapply Forall_impl; [exact Hn|]. intros m Hm. simpl in *. by rewrite Hm.
Qed.

Lemma chave_apos_salvar prog (l novos : list Mov) :
  List.filter (da_chave current_year prog ano_ mes)
    (List.filter (λ m, negb (mesmo_periodo current_year mes ano_ m)) l ++ novos)
  = List.filter (da_chave current_year prog ano_ mes) novos.
Proof.
  rewrite List.filter_app. rewrite filter_nenhum; [done|].
  apply Forall_forall. intros m Hm.
  apply list_elem_of_In, filter_In in Hm as [_ Hm]. apply negb_true_iff in Hm.
  destruct (da_chave current_year prog ano_ mes m) eqn:E; [|done].
  apply da_chave_mesmo_periodo in E. congruence.
Qed.

Lemma no_maximo_um_apos_salvar R t f (l : list Mov) (dados : list (string * Entrada)) :
  NoDup dados.*1 →
  no_maximo_um current_year l →
  no_maximo_um current_year
    (List.filter (λ m, negb (mesmo_periodo current_year mes ano_ m)) l
     ++ map (λ pv, registro mes ano_ R t (f pv) pv) dados).
Proof.
  intros Hnd Hl. unfold no_maximo_um. rewrite map_app.
  apply NoDup_app. split; [by apply NoDup_map_filter|].
  split; [|by apply NoDup_chave_reg].
  intros k (m1 & -> & H1)%list_elem_of_fmap (m2 & Hk & H2)%list_elem_of_fmap.
  apply list_elem_of_In, filter_In in H1 as [_ H1]. apply negb_true_iff in H1.
  apply list_elem_of_In, in_map_iff in H2 as (pv & <- & _).
  rewrite chave_registro in Hk.
  assert (E : da_chave current_year pv.1 ano_ mes m1 = true).
  { by apply bool_decide_eq_true. }
  apply da_chave_mesmo_periodo in E. congruence.
Qed.

End Substituicao.

(** C6. Saving a month of an account of the ledger succeeds and stores,
    for that account, the movements of the other periods followed by the
    newly computed records; other accounts are untouched. Afterwards the
    movements of the saved (year, month) are exactly the new records, those
    of the other periods are the ones there were, each (program, year,
    month) of the saved period has at most one movement, and a ledger with
    at most one movement per key keeps that property. Saving the same
    period again with other entries leaves, for each program of the second
    entries, exactly one movement under its key, carrying the credits and
    debits of the second entry. *)
Theorem C6_replace_semantics
    (current_year : Z) (db : Db) (accounts : gmap string Conta) (conta : string)
    (c : Conta) (mes ano_ : Z) (rendimento : Q)
    (dados : list (string * Entrada)) :
  accounts !! conta = Some c →
  NoDup dados.*1 →
  ∃ novos accounts' msgs c',
    calcular_rateio_rendimento current_year accounts conta mes ano_ rendimento dados
      = Ok novos
    ∧ salvar_lancamento current_year db accounts conta mes ano_ rendimento dados
      = Ok (accounts', msgs)
    ∧ accounts' !! conta = Some c'
    ∧ (∀ a, a ≠ conta → accounts' !! a = accounts !! a)
    ∧ movs_de c'
      = List.filter (λ m, negb (mesmo_periodo current_year mes ano_ m)) (movs_de c)
        ++ novos
    ∧ List.filter (mesmo_periodo current_year mes ano_) (movs_de c') = novos
    ∧ List.filter (λ m, negb (mesmo_periodo current_year mes ano_ m)) (movs_de c')
      = List.filter (λ m, negb (mesmo_periodo current_year mes ano_ m)) (movs_de c)
    ∧ (∀ prog,
         (length (List.filter (da_chave current_year prog ano_ mes) (movs_de c'))
          ≤ 1)%nat)
    ∧ (no_maximo_um current_year (movs_de c) →
       no_maximo_um current_year (movs_de c'))
    ∧ (∀ rendimento2 dados2, NoDup dados2.*1 →
       ∃ accounts'' msgs2 c'',
         salvar_lancamento current_year db accounts' conta mes ano_
           rendimento2 dados2 = Ok (accounts'', msgs2)
         ∧ accounts'' !! conta = Some c''
         ∧ ∀ prog v2, (prog, v2) ∈ dados2 →
             ∃ m, List.filter (da_chave current_year prog ano_ mes) (movs_de c'')
                  = [m]
                ∧ programa m = prog ∧ mes_num m = mes ∧ ano m = Some ano_
                ∧ credito_capital m = cred_cap v2
                ∧ credito_custeio m = cred_cus v2
                ∧ debito_capital m = deb_cap v2
                ∧ debito_custeio m = deb_cus v2).
Proof.
  intros Hc Hnd.
  pose proof (calcular_rateio_rendimento_NoDup current_year accounts conta mes ano_
                c rendimento dados Hc Hnd) as Hn.
  set (t := total_final current_year c mes ano_ dados 0) in *.
  set (f := base_de current_year c mes ano_) in *.
  set (novos := map (λ pv, registro mes ano_ rendimento t (f pv) pv) dados) in *.
  set (outros := List.filter (λ m, negb (mesmo_periodo current_year mes ano_ m))
                   (movs_de c)).
  exists novos, (<[conta := set_movimentacoes c (outros ++ novos)]> accounts),
         (save_account_to_firebase db ++ [st_success "Dados salvos com sucesso!"]),
         (set_movimentacoes c (outros ++ novos)).
  assert (Hper : Forall (λ m, mesmo_periodo current_year mes ano_ m = true) novos)
    by apply mesmo_periodo_reg.
  split; [exact Hn|].
  split; [by apply salvar_lancamento_found|].
  split; [apply lookup_insert_eq|].
  split; [intros a Ha; by apply lookup_insert_ne|].
  change (movs_de (set_movimentacoes c (outros ++ novos))) with (outros ++ novos).
  split; [done|].
  split; [by apply periodo_apos_salvar|].
  split; [by apply outros_apos_salvar|].
  split.
  { intros prog. unfold outros. rewrite chave_apos_salvar.
    by apply filter_chave_no_maximo_um. }
  split; [by apply no_maximo_um_apos_salvar|].
  intros rendimento2 dados2 Hnd2.
  set (c' := set_movimentacoes c (outros ++ novos)).
  set (accounts' := <[conta := c']> accounts).
  assert (Hc' : accounts' !! conta = Some c') by apply lookup_insert_eq.
  pose proof (calcular_rateio_rendimento_NoDup current_year accounts' conta mes ano_
                c' rendimento2 dados2 Hc' Hnd2) as Hn2.
  do 3 eexists.
  split; [by eapply salvar_lancamento_found|].
  split; [apply lookup_insert_eq|].
  intros prog v2 Hin.
  change (movs_de (set_movimentacoes c' ?l)) with l.
  rewrite chave_apos_salvar.
  rewrite (filter_chave_dentro current_year mes ano_ _ _ _ prog v2) by done.
  eexists. split; [done|]. by repeat split.
Qed.

Lemma C6_witness :
  ({[ "A" := conta_A ]} : gmap string Conta) !! "A" = Some conta_A ∧
  NoDup entradas_jan.*1 ∧
  ∃ novos accounts' msgs c',
    calcular_rateio_rendimento 2024 {[ "A" := conta_A ]} "A" 1 2024 7 entradas_jan
      = Ok novos
    ∧ salvar_lancamento 2024 SemConexao {[ "A" := conta_A ]} "A" 1 2024 7 entradas_jan
      = Ok (accounts', msgs)
    ∧ accounts' !! "A" = Some c'
    ∧ List.filter (mesmo_periodo 2024 1 2024) (movs_de c') = novos
    ∧ (∀ prog,
         (length (List.filter (da_chave 2024 prog 2024 1) (movs_de c')) ≤ 1)%nat).
Proof.
  assert (Hnd : NoDup entradas_jan.*1).
  { apply (bool_decide_unpack _). vm_compute. exact I. }
  split; [reflexivity|]. split; [exact Hnd|].
  destruct (C6_replace_semantics 2024 SemConexao {[ "A" := conta_A ]} "A" conta_A
              1 2024 7 entradas_jan)
    as (novos & accounts' & msgs & c' & H1 & H2 & H3 & _ & _ & H4 & _ & H5 & _);
    [reflexivity | exact Hnd |].
  exists novos, accounts', msgs, c'. repeat split; assumption.
Defined.

(** Saving January again over the ledger that already holds January leaves
    two movements, those of the second save. *)
Example salvar_duas_vezes :
  (λ r, match r with
        | Ok (accs, _) => (λ c, map (λ m, (programa m, credito_capital m)) (movs_de c))
                            <$> accs !! "A"
        | Raise _ => None
        end)
    (salvar_lancamento 2024 SemConexao {[ "A" := conta_A ]} "A" 1 2024 7
       [("P1", mkEntrada 1 0 0 0); ("P2", mkEntrada 2 0 0 0)])
  = Some [("P1", 1); ("P2", 2)].
Proof. vm_compute. reflexivity. Qed.

(** The scenario of the specification: P1 starts with 100 of capital, P2
    receives 100; a reported yield of 10 gives 5 to each, and the capital
    balance of both before February is 105. *)
Example cenario_janeiro :
  ∃ accounts' msgs b1 b2,
    salvar_lancamento 2024 SemConexao {[ "A" := conta_A0 ]} "A" 1 2024 10 entradas_jan
      = Ok (accounts', msgs)
    ∧ get_saldo_anterior 2024 accounts' "A" "P1" Capital 2 2024 = Ok b1
    ∧ get_saldo_anterior 2024 accounts' "A" "P2" Capital 2 2024 = Ok b2
    ∧ b1 == 105 ∧ b2 == 105.
Proof.
  do 4 eexists. split; [vm_compute; reflexivity|].
  split; [vm_compute; reflexivity|]. split; [vm_compute; reflexivity|].
  split; reflexivity.
Qed.

(** ** Degenerate apportionment *)

Lemma save_account_to_firebase_sem_aviso db s :
  st_warning s ∉ save_account_to_firebase db ++ [st_success "Dados salvos com sucesso!"].
Proof.
  intros [H|H]%elem_of_app.
  - destruct db as [|[e|]]; simpl in H.
    + by apply elem_of_nil in H.
    + apply list_elem_of_singleton in H. discriminate H.
    + by apply elem_of_nil in H.
  - apply list_elem_of_singleton in H. discriminate H.
Qed.

Lemma registros_por_entrada (mes ano_ : Z) (R t : Q)
    (f : string * Entrada → Bases) (dados : list (string * Entrada)) :
  Forall2 (λ pv m, programa m = pv.1 ∧ mes_num m = mes ∧ ano m = Some ano_
                   ∧ credito_capital m = cred_cap pv.2
                   ∧ credito_custeio m = cred_cus pv.2
                   ∧ debito_capital m = deb_cap pv.2
                   ∧ debito_custeio m = deb_cus pv.2)
    dados (map (λ pv, registro mes ano_ R t (f pv) pv) dados).
Proof.
  induction dados as [|pv dados IH]; simpl; constructor; [|exact IH].
  by repeat split.
Qed.

(** C8, as the code has it. When the pool total is 0 the call returns one
    record per entry, each with the entered amounts and with a capital
    share, an operating share and a total yield of zero, whatever the
    reported total yield. The save handler stores exactly these records
    as the records of the period, leaves the rest of the ledger as it was,
    and reports success: its messages are those of the storage followed by
    the success message, and none of them is a warning, so a nonzero
    reported yield is dropped without notice. *)
Theorem C8_degenerate_not_surfaced
    (current_year : Z) (db : Db) (accounts : gmap string Conta) (conta : string)
    (c : Conta) (mes ano_ : Z) (rendimento : Q)
    (dados : list (string * Entrada))
    (saldos_base : gmap string Bases) (total_saldo_conta : Q) :
  accounts !! conta = Some c →
  calcular_bases current_year accounts conta mes ano_ dados
    = Ok (saldos_base, total_saldo_conta) →
  total_saldo_conta == 0 →
  ∃ novos accounts' msgs c',
    calcular_rateio_rendimento current_year accounts conta mes ano_ rendimento dados
      = Ok novos
    ∧ Forall2 (λ pv m, programa m = pv.1 ∧ mes_num m = mes ∧ ano m = Some ano_
                       ∧ credito_capital m = cred_cap pv.2
                       ∧ credito_custeio m = cred_cus pv.2
                       ∧ debito_capital m = deb_cap pv.2
                       ∧ debito_custeio m = deb_cus pv.2)
        dados novos
    ∧ Forall (λ m, rendimento_capital m == 0 ∧ rendimento_custeio m == 0
                   ∧ total_rendimento m == 0) novos
    ∧ Forall (λ m, rendimento_emitido m == 0) novos
    ∧ soma (map rendimento_emitido novos) == 0
    ∧ salvar_lancamento current_year db accounts conta mes ano_ rendimento dados
      = Ok (accounts', msgs)
    ∧ accounts' = <[conta := c']> accounts
    ∧ c' = set_movimentacoes c
             (List.filter (λ m, negb (mesmo_periodo current_year mes ano_ m))
                (movs_de c) ++ novos)
    ∧ List.filter (mesmo_periodo current_year mes ano_) (movs_de c') = novos
    ∧ msgs = save_account_to_firebase db ++ [st_success "Dados salvos com sucesso!"]
    ∧ st_success "Dados salvos com sucesso!" ∈ msgs
    ∧ ¬ avisa msgs.
Proof.
  intros Hc Hb Hz. unfold calcular_bases in Hb.
  rewrite (laco_bases_found _ _ _ _ _ c) in Hb by done. injection Hb as _ Ht.
  pose proof (calcular_rateio_rendimento_found current_year accounts conta mes ano_
                c rendimento dados Hc) as Hn.
  rewrite Ht in Hn.
  set (f := λ pv : string * Entrada,
         default (mkBases 0 0)
           (bases_finais current_year c mes ano_ dados ∅ !! pv.1)) in *.
  set (novos := map (λ pv, registro mes ano_ rendimento total_saldo_conta (f pv) pv)
                  dados) in *.
  assert (Hshares : Forall (λ m, rendimento_capital m == 0 ∧ rendimento_custeio m == 0
                                 ∧ total_rendimento m == 0) novos).
  { apply Forall_forall. intros m Hm.
    apply list_elem_of_In, in_map_iff in Hm as (pv & <- & _).
    cbn [rendimento_capital rendimento_custeio total_rendimento registro].
    rewrite !fator_pool_zero by done. repeat split; ring. }
  assert (Hall : Forall (λ m, rendimento_emitido m == 0) novos).
  { eapply Forall_impl; [exact Hshares|]. intros m (H1 & H2 & _).
    unfold rendimento_emitido. rewrite H1, H2. ring. }
  exists novos. do 3 eexists.
  split; [exact Hn|].
  split; [apply registros_por_entrada|].
  split; [exact Hshares|]. split; [exact Hall|].
  split; [by apply soma_todos_zero|].
  split; [by eapply salvar_lancamento_found|].
  split; [reflexivity|]. split; [reflexivity|].
  split.
  { unfold movs_de at 1. cbn [set_movimentacoes movimentacoes default].
    apply periodo_apos_salvar, Forall_forall. intros m Hm.
    apply list_elem_of_In, in_map_iff in Hm as (pv & <- & _).
    apply mesmo_periodo_registro. }
  split; [reflexivity|].
  split; [apply elem_of_app; right; apply list_elem_of_singleton; reflexivity|].
  intros [s Hs]. by apply save_account_to_firebase_sem_aviso in Hs.
Qed.

Lemma C8_witness :
  ({[ "A" := nova_estrutura ]} : gmap string Conta) !! "A" = Some nova_estrutura ∧
  calcular_bases 2024 {[ "A" := nova_estrutura ]} "A" 1 2024
    [("P1", mkEntrada 0 0 0 0)] = Ok ({[ "P1" := mkBases 0 0 ]}, 0 + (0 + 0)) ∧
  0 + (0 + 0) == 0 ∧
  ∃ novos accounts' msgs c',
    calcular_rateio_rendimento 2024 {[ "A" := nova_estrutura ]} "A" 1 2024 10
      [("P1", mkEntrada 0 0 0 0)] = Ok novos
    ∧ Forall (λ m, rendimento_capital m == 0 ∧ rendimento_custeio m == 0
                   ∧ total_rendimento m == 0) novos
    ∧ salvar_lancamento 2024 SemConexao {[ "A" := nova_estrutura ]} "A" 1 2024 10
        [("P1", mkEntrada 0 0 0 0)] = Ok (accounts', msgs)
    ∧ accounts' = <[ "A" := c' ]> {[ "A" := nova_estrutura ]}
    ∧ List.filter (mesmo_periodo 2024 1 2024) (movs_de c') = novos
    ∧ st_success "Dados salvos com sucesso!" ∈ msgs
    ∧ ¬ avisa msgs.
Proof.
  assert (Hb : calcular_bases 2024 {[ "A" := nova_estrutura ]} "A" 1 2024
                 [("P1", mkEntrada 0 0 0 0)]
               = Ok ({[ "P1" := mkBases 0 0 ]}, 0 + (0 + 0))).
  { vm_compute. reflexivity. }
  split; [reflexivity|]. split; [exact Hb|]. split; [reflexivity|].
  destruct (C8_degenerate_not_surfaced 2024 SemConexao {[ "A" := nova_estrutura ]} "A"
              nova_estrutura 1 2024 10 [("P1", mkEntrada 0 0 0 0)]
              {[ "P1" := mkBases 0 0 ]} (0 + (0 + 0)))
    as (novos & accounts' & msgs & c' & H1 & _ & H3 & _ & _ & H6 & H7 & _ & H9 & _
        & H11 & H12);
    [reflexivity | exact Hb | reflexivity |].
  by exists novos, accounts', msgs, c'.
Defined.

(** C8 as stated fails: a new account with one program and no balance has
    pool total 0; saving a month with a reported yield of 10 reports only
    success, and the records returned are those of a reported yield of 0. *)
Lemma C8_no_warning_is_raised :
  ¬ degenerado_sinalizado 2024 SemConexao {[ "A" := nova_estrutura ]} "A" 1 2024 10
      [("P1", mkEntrada 0 0 0 0)]
  ∧ salvar_lancamento 2024 SemConexao {[ "A" := nova_estrutura ]} "A" 1 2024 10
      [("P1", mkEntrada 0 0 0 0)]
    = Ok ({[ "A" := set_movimentacoes nova_estrutura
                      [registro 1 2024 10 (0 + (0 + 0)) (mkBases 0 0)
                         ("P1", mkEntrada 0 0 0 0)] ]},
          [st_success "Dados salvos com sucesso!"])
  ∧ calcular_rateio_rendimento 2024 {[ "A" := nova_estrutura ]} "A" 1 2024 10
      [("P1", mkEntrada 0 0 0 0)]
    = calcular_rateio_rendimento 2024 {[ "A" := nova_estrutura ]} "A" 1 2024 0
        [("P1", mkEntrada 0 0 0 0)].
Proof.
  assert (Hs : salvar_lancamento 2024 SemConexao {[ "A" := nova_estrutura ]} "A"
                 1 2024 10 [("P1", mkEntrada 0 0 0 0)]
               = Ok ({[ "A" := set_movimentacoes nova_estrutura
                                 [registro 1 2024 10 (0 + (0 + 0)) (mkBases 0 0)
                                    ("P1", mkEntrada 0 0 0 0)] ]},
                     [st_success "Dados salvos com sucesso!"])).
  { vm_compute. reflexivity. }
  split; [|split; [exact Hs | vm_compute; reflexivity]].
  intros H.
  assert (Hw : avisa [st_success "Dados salvos com sucesso!"]).
  { eapply (H {[ "P1" := mkBases 0 0 ]} (0 + (0 + 0))).
    - vm_compute. reflexivity.
    - reflexivity.
    - intros E. vm_compute in E. discriminate E.
    - exact Hs. }
  destruct Hw as [s Hin].
  apply list_elem_of_singleton in Hin. discriminate Hin.
Qed.

(** * Further properties of the application *)

(** ** Currency text *)

Lemma tres_passos (s : string) :
  replace_char "X"%char "."%char
    (replace_char "."%char ","%char (replace_char ","%char "X"%char s))
  = mapa_string troca_separador s.
Proof.
  induction s as [|c s IH]; simpl; [done|]. rewrite IH. f_equal.
  unfold troca_separador.
  destruct (Ascii.eqb_spec c ","%char) as [->|H1]; [done|].
  destruct (Ascii.eqb_spec c "."%char) as [->|H2]; [done|].
  destruct (Ascii.eqb_spec c "X"%char) as [->|H3]; [done|].
  done.
Qed.

Lemma length_mapa_string (f : Ascii.ascii → Ascii.ascii) (s : string) :
  String.length (mapa_string f s) = String.length s.
Proof. induction s as [|c s IH]; simpl; [done|]. by rewrite IH. Qed.

(** X1. The three replacements of [format_currency] amount to one pass
    over the formatted number: every comma becomes a dot, every dot a
    comma, and the prefix is kept; a capital X in the text would also
    come out as a dot. *)
Theorem X1_format_currency_swaps_separators (texto : string) :
  format_currency texto = "R$ " +:+ mapa_string troca_separador texto
  ∧ String.length (format_currency texto) = (3 + String.length texto)%nat.
Proof.
  unfold format_currency. rewrite tres_passos. simpl. split; [done|].
  by rewrite length_mapa_string.
Qed.

Example format_currency_milhar :
  format_currency "1,234,567.89" = "R$ 1.234.567,89".
Proof. reflexivity. Qed.

(** ** Accounts *)

(** X2. Adding an account never replaces or removes an account of the
    ledger, whatever name is typed: every existing account is found
    unchanged afterwards, and so are its balances. *)
Theorem X2_adicionar_conta_keeps_accounts
    (current_year : Z) (db : Db) (accounts : gmap string Conta)
    (nova_conta a : string) (c : Conta) :
  accounts !! a = Some c →
  (adicionar_conta db accounts nova_conta).1 !! a = Some c
  ∧ ∀ prog tipo mes ano_,
      get_saldo_anterior current_year (adicionar_conta db accounts nova_conta).1
        a prog tipo mes ano_
      = get_saldo_anterior current_year accounts a prog tipo mes ano_.
Proof.
  intros Hc.
  assert (H : (adicionar_conta db accounts nova_conta).1 !! a = Some c).
  { unfold adicionar_conta. destruct (accounts !! nova_conta) eqn:E; [done|].
    destruct (str_truthy nova_conta); [|done]. simpl.
    rewrite lookup_insert_ne; [done|]. intros ->. congruence. }
  split; [exact H|]. intros prog tipo mes ano_.
  by rewrite !(get_saldo_anterior_found _ _ _ c).
Qed.

Lemma X2_witness :
  ({[ "A" := conta_A ]} : gmap string Conta) !! "A" = Some conta_A ∧
  (adicionar_conta SemConexao {[ "A" := conta_A ]} "A").1 !! "A" = Some conta_A.
Proof.
  split; [reflexivity|].
  apply (X2_adicionar_conta_keeps_accounts 2024 SemConexao {[ "A" := conta_A ]}
           "A" "A" conta_A).
  reflexivity.
Defined.

Lemma str_truthy_true (s : string) : s ≠ "" → str_truthy s = true.
Proof.
  intros H. unfold str_truthy. by destruct (String.eqb_spec s "").
Qed.

(** X3. A non-empty name that is not in the ledger creates an account
    that can be queried at once: every balance of the new account is 0 for
    every program, category and target month, the creation is reported as
    a success and no warning is shown. *)
Theorem X3_adicionar_conta_fresh
    (current_year : Z) (db : Db) (accounts : gmap string Conta)
    (nova_conta : string) :
  accounts !! nova_conta = None →
  nova_conta ≠ "" →
  ∃ accounts' msgs,
    adicionar_conta db accounts nova_conta = (accounts', msgs)
    ∧ accounts' !! nova_conta = Some nova_estrutura
    ∧ st_success ("Conta " +:+ nova_conta +:+ " criada!") ∈ msgs
    ∧ ¬ avisa msgs
    ∧ ∀ prog tipo mes ano_,
        get_saldo_anterior current_year accounts' nova_conta prog tipo mes ano_
        = Ok 0.
Proof.
  intros Hn Hne. unfold adicionar_conta. rewrite Hn, str_truthy_true by done.
  do 2 eexists. split; [done|]. split; [apply lookup_insert_eq|].
  split; [apply elem_of_app; right; by left|]. split.
  - intros [s [H|H]%elem_of_app].
    + destruct db as [|[e|]]; simpl in H.
      * by apply elem_of_nil in H.
      * apply list_elem_of_singleton in H. discriminate H.
      * by apply elem_of_nil in H.
    + apply list_elem_of_singleton in H. discriminate H.
  - intros prog tipo mes ano_.
    by erewrite get_saldo_anterior_found by apply lookup_insert_eq.
Qed.

Lemma X3_witness :
  ({[ "A" := conta_A ]} : gmap string Conta) !! "B" = None ∧ "B" ≠ "" ∧
  ∃ accounts' msgs,
    adicionar_conta SemConexao {[ "A" := conta_A ]} "B" = (accounts', msgs)
    ∧ accounts' !! "B" = Some nova_estrutura.
Proof.
  split; [reflexivity|]. split; [discriminate|].
  destruct (X3_adicionar_conta_fresh 2024 SemConexao {[ "A" := conta_A ]} "B")
    as (accounts' & msgs & H1 & H2 & _); [reflexivity | discriminate |].
  by exists accounts', msgs.
Defined.

(** ** Selectable years *)

Lemma StronglySorted_le_lt (l : list Z) :
  StronglySorted Z.le l → NoDup l → StronglySorted Z.lt l.
Proof.
  induction 1 as [|x l Hs IH Hx]; intros Hnd; [constructor|].
  apply NoDup_cons in Hnd as [Hnx Hnd]. constructor; [by apply IH|].
  apply Forall_forall. intros y Hy.
  rewrite Forall_forall in Hx. specialize (Hx y Hy).
  assert (x ≠ y) by (intros ->; done). lia.
Qed.

Lemma StronglySorted_lt_NoDup (l : list Z) : StronglySorted Z.lt l → NoDup l.
Proof.
  induction 1 as [|x l Hs IH Hx]; [constructor|].
  apply NoDup_cons. split; [|done]. intros Hin.
  rewrite Forall_forall in Hx. specialize (Hx x Hin). lia.
Qed.

Lemma merge_sort_estrito (l : list Z) :
  NoDup l → StronglySorted Z.lt (merge_sort Z.le l).
Proof.
  intros Hnd. apply StronglySorted_le_lt.
  - apply StronglySorted_merge_sort; apply _.
  - by rewrite merge_sort_Permutation.
Qed.

Lemma elem_of_anos_da_conta current_year (c : Conta) (s : gset Z) (y : Z) :
  y ∈ anos_da_conta current_year c s
  ↔ y ∈ s ∨ ∃ m, m ∈ movs_de c ∧ mov_ano_de current_year m = y.
Proof.
  unfold anos_da_conta, movs_de.
  generalize (default [] (movimentacoes c)) as l. intros l. revert s.
  induction l as [|m l IH]; intros s; simpl.
  - split; [by left|]. intros [H|(m & Hm & _)]; [done|].
    by apply elem_of_nil in Hm.
  - rewrite IH, elem_of_union, elem_of_singleton. split.
    + intros [[H|H]|(m' & Hm' & Hy)].
      * by left.
      * right. exists m. split; [by left|done].
      * right. exists m'. split; [by right|done].
    + intros [H|(m' & Hm' & Hy)]; [by left; left|].
      apply elem_of_cons in Hm' as [->|Hm'].
      * left. by right.
      * right. by exists m'.
Qed.

Lemma elem_of_anos_encontrados current_year (accounts : gmap string Conta) (y : Z) :
  y ∈ anos_encontrados current_year accounts
  ↔ y = current_year
    ∨ ∃ a c m, accounts !! a = Some c ∧ m ∈ movs_de c
               ∧ mov_ano_de current_year m = y.
Proof.
  unfold anos_encontrados.
  apply (map_fold_weak_ind
    (λ (r : gset Z) (mp : gmap string Conta),
       y ∈ r ↔ y = current_year
               ∨ ∃ a c m, mp !! a = Some c ∧ m ∈ movs_de c
                          ∧ mov_ano_de current_year m = y)).
  - rewrite elem_of_singleton. split; [by left|].
    intros [H|(a & c & m & Ha & _)]; [done|]. by rewrite lookup_empty in Ha.
  - intros i x mp r Hi IH. rewrite elem_of_anos_da_conta, IH. split.
    + intros [[H|(a & c & m & Ha & Hm & Hy)]|(m & Hm & Hy)].
      * by left.
      * right. exists a, c, m. split; [|done].
        rewrite lookup_insert_ne; [done|]. intros ->. congruence.
      * right. exists i, x, m. split; [apply lookup_insert_eq|done].
    + intros [H|(a & c & m & Ha & Hm & Hy)]; [by left; left|].
      destruct (decide (i = a)) as [->|Hne].
      * rewrite lookup_insert_eq in Ha. injection Ha as ->. right. by exists m.
      * rewrite lookup_insert_ne in Ha by done. left. right. by exists a, c, m.
Qed.

(** X4. The years first offered for selection are strictly increasing
    and they are exactly the current year together with the year of every
    movement of every account, a movement without a year counting for the
    current year. *)
Theorem X4_available_years_initial
    (current_year : Z) (accounts : gmap string Conta) :
  StronglySorted Z.lt (init_available_years current_year None accounts)
  ∧ ∀ y, y ∈ init_available_years current_year None accounts
         ↔ y = current_year
           ∨ ∃ a c m, accounts !! a = Some c ∧ m ∈ movs_de c
                      ∧ mov_ano_de current_year m = y.
Proof.
  unfold init_available_years. split.
  - apply merge_sort_estrito, NoDup_elements.
  - intros y. rewrite merge_sort_Permutation, elem_of_elements.
    apply elem_of_anos_encontrados.
Qed.

Example available_years_exemplo :
  init_available_years 2026 None {[ "A" := conta_A_legado; "B" := nova_estrutura ]}
  = [2024; 2026]%Z.
Proof. vm_compute. reflexivity. Qed.

(** X5. Creating a fiscal year keeps the list of years strictly
    increasing; afterwards the list holds the years it had and the new
    one, and asking for the same year again changes nothing and shows
    the warning. *)
Theorem X5_criar_exercicio_sorted
    (available_years : list Z) (novo_ano : Z) :
  StronglySorted Z.lt available_years →
  StronglySorted Z.lt (criar_exercicio available_years novo_ano).1
  ∧ (∀ y, y ∈ (criar_exercicio available_years novo_ano).1
          ↔ y ∈ available_years ∨ y = novo_ano)
  ∧ criar_exercicio (criar_exercicio available_years novo_ano).1 novo_ano
    = ((criar_exercicio available_years novo_ano).1,
       [st_warning "Este ano já existe."]).
Proof.
  intros Hs.
  assert (Hmem : ∀ y, y ∈ (criar_exercicio available_years novo_ano).1
                      ↔ y ∈ available_years ∨ y = novo_ano).
  { intros y. unfold criar_exercicio. case_bool_decide as Hin; simpl.
    - split; [by left|]. intros [H| ->]; done.
    - rewrite merge_sort_Permutation, elem_of_app, list_elem_of_singleton. done. }
  split; [|split; [exact Hmem|]].
  - unfold criar_exercicio. case_bool_decide as Hin; simpl; [done|].
    apply merge_sort_estrito, NoDup_app.
    split; [by apply StronglySorted_lt_NoDup|].
    split; [|apply NoDup_singleton].
    intros y Hy ->%list_elem_of_singleton. done.
  - generalize (criar_exercicio available_years novo_ano).1, (Hmem novo_ano).
    intros l Hl. unfold criar_exercicio.
    rewrite bool_decide_eq_true_2; [done|]. apply Hl. by right.
Qed.

Lemma X5_witness :
  StronglySorted Z.lt [2024; 2025]%Z ∧
  StronglySorted Z.lt (criar_exercicio [2024; 2025]%Z 2023).1.
Proof.
  assert (H : StronglySorted Z.lt [2024; 2025]%Z).
  { repeat constructor. }
  split; [exact H|].
  apply (X5_criar_exercicio_sorted [2024; 2025]%Z 2023). exact H.
Defined.

Example criar_exercicio_exemplo :
  (criar_exercicio [2024; 2025]%Z 2023).1 = [2023; 2024; 2025]%Z
  ∧ (criar_exercicio [2024; 2025]%Z 2025).1 = [2024; 2025]%Z.
Proof. split; vm_compute; reflexivity. Qed.

(** ** Programs and initial balances *)

Lemma saldo_conta_ext current_year (c1 c2 : Conta) prog tipo mes ano_ :
  movs_de c1 = movs_de c2 →
  saldo_semente (saldos_de c1) prog tipo = saldo_semente (saldos_de c2) prog tipo →
  saldo_conta current_year c1 prog tipo mes ano_
  = saldo_conta current_year c2 prog tipo mes ano_.
Proof. intros Hm Hs. unfold saldo_conta. by rewrite Hm, Hs. Qed.

Lemma saldo_semente_insert_ne saldos p si prog tipo :
  prog ≠ p →
  saldo_semente (<[p := si]> saldos) prog tipo = saldo_semente saldos prog tipo.
Proof. intros H. unfold saldo_semente. by rewrite lookup_insert_ne. Qed.

Lemma saldo_semente_insert_eq saldos p n_cap n_cus tipo :
  saldo_semente (<[p := {| si_Capital := Some n_cap; si_Custeio := Some n_cus |}]> saldos)
    p tipo
  = 0 + match tipo with
        | Capital => n_cap
        | Custeio => n_cus
        | Total => n_cap + n_cus
        end.
Proof. unfold saldo_semente. rewrite lookup_insert_eq. by destruct tipo. Qed.

(** X6. Adding a program keeps the program list free of duplicates and
    leaves the movements and the balances of every other program as they
    were. The new program starts with an initial balance of 0 in both
    categories, so its balance is the replay of whatever movements already
    name it. An empty name or a name already listed changes nothing. *)
Theorem X6_adicionar_programa
    (current_year : Z) (db : Db) (accounts : gmap string Conta)
    (nome novo : string) (c : Conta) :
  accounts !! nome = Some c →
  NoDup (programas c) →
  ∃ accounts' msgs c',
    adicionar_programa db accounts nome novo = Ok (accounts', msgs)
    ∧ accounts' !! nome = Some c'
    ∧ NoDup (programas c')
    ∧ (∀ p, p ∈ programas c' ↔ p ∈ programas c ∨ (p = novo ∧ novo ≠ ""))
    ∧ movimentacoes c' = movimentacoes c
    ∧ (novo = "" ∨ novo ∈ programas c → accounts' = accounts)
    ∧ (∀ prog tipo mes ano_, prog ≠ novo →
         get_saldo_anterior current_year accounts' nome prog tipo mes ano_
         = get_saldo_anterior current_year accounts nome prog tipo mes ano_)
    ∧ (novo ≠ "" → novo ∉ programas c →
       ∀ tipo mes ano_, ∃ b,
         get_saldo_anterior current_year accounts' nome novo tipo mes ano_ = Ok b
         ∧ b == soma (map (liquido tipo)
                        (List.filter (anteriores current_year novo mes ano_)
                           (movs_de c)))).
Proof.
  intros Hc Hnd. unfold adicionar_programa, dict_index.
  destruct (String.eqb_spec novo "") as [->|Hne].
  { simpl. exists accounts, [], c. repeat split; try done.
    - by left.
    - intros [H|[_ H]]; done. }
  rewrite str_truthy_true by done. rewrite Hc. simpl.
  case_bool_decide as Hin.
  { exists accounts, [], c. repeat split; try done.
    - by left.
    - intros [H|[-> _]]; done. }
  do 3 eexists. split; [done|]. split; [apply lookup_insert_eq|]. simpl.
  split.
  { apply NoDup_app. split; [done|]. split; [|apply NoDup_singleton].
    intros p Hp ->%list_elem_of_singleton. done. }
  split.
  { intros p. rewrite elem_of_app, list_elem_of_singleton. split.
    - intros [H| ->]; [by left|by right].
    - intros [H|[-> _]]; [by left|by right]. }
  split; [done|].
  split; [intros [H|H]; done|].
  split.
  - intros prog tipo mes ano_ Hp.
    erewrite get_saldo_anterior_found by apply lookup_insert_eq.
    rewrite (get_saldo_anterior_found _ _ _ c) by done. f_equal.
    apply saldo_conta_ext; [done|]. unfold saldos_de. simpl.
    by apply saldo_semente_insert_ne.
  - intros _ _ tipo mes ano_. eexists.
    split; [by erewrite get_saldo_anterior_found by apply lookup_insert_eq|].
    unfold saldo_conta. rewrite fold_passo_soma. unfold saldos_de, movs_de. simpl.
    rewrite saldo_semente_insert_eq. destruct tipo; ring.
Qed.

Lemma X6_witness :
  ({[ "A" := conta_A ]} : gmap string Conta) !! "A" = Some conta_A ∧
  NoDup (programas conta_A) ∧
  ∃ accounts' msgs c',
    adicionar_programa SemConexao {[ "A" := conta_A ]} "A" "P3" = Ok (accounts', msgs)
    ∧ accounts' !! "A" = Some c'
    ∧ NoDup (programas c').
Proof.
  assert (Hnd : NoDup (programas conta_A)).
  { apply (bool_decide_unpack _). vm_compute. exact I. }
  split; [reflexivity|]. split; [exact Hnd|].
  destruct (X6_adicionar_programa 2024 SemConexao {[ "A" := conta_A ]} "A" "P3"
              conta_A) as (accounts' & msgs & c' & H1 & H2 & H3 & _);
    [reflexivity | exact Hnd |].
  by exists accounts', msgs, c'.
Defined.

Example adicionar_programa_exemplo :
  (λ r, match r with
        | Ok (accs, _) => (λ c, (programas c, saldos_de c !! "P3")) <$> accs !! "A"
        | Raise _ => None
        end)
    (adicionar_programa SemConexao {[ "A" := conta_A ]} "A" "P3")
  = Some (["P1"; "P2"; "P3"],
          Some {| si_Capital := Some 0; si_Custeio := Some 0 |}).
Proof. vm_compute. reflexivity. Qed.

Lemma garantir_saldo_inicial_semente (c : Conta) (p prog : string) tipo :
  saldo_semente (saldos_de (garantir_saldo_inicial c p)) prog tipo
  = saldo_semente (saldos_de c) prog tipo.
Proof.
  unfold garantir_saldo_inicial, saldos_de. simpl.
  destruct (default ∅ (saldos_iniciais c) !! p) as [si|] eqn:E; [done|].
  destruct (decide (prog = p)) as [->|Hne].
  - rewrite saldo_semente_insert_eq. unfold saldo_semente. rewrite E.
    by destruct tipo.
  - by apply saldo_semente_insert_ne.
Qed.

Lemma garantir_saldo_inicial_lookup (c : Conta) (p q : string) :
  saldos_de (garantir_saldo_inicial c p) !! q
  = match saldos_de c !! q with
    | Some si => Some si
    | None => if decide (q = p)
              then Some {| si_Capital := Some 0; si_Custeio := Some 0 |}
              else None
    end.
Proof.
  unfold garantir_saldo_inicial, saldos_de. simpl.
  destruct (default ∅ (saldos_iniciais c) !! p) as [si|] eqn:E.
  - destruct (default ∅ (saldos_iniciais c) !! q) as [sj|] eqn:F; [done|].
    destruct (decide (q = p)) as [->|Hne]; [congruence|done].
  - destruct (decide (q = p)) as [->|Hne].
    + by rewrite lookup_insert_eq, E.
    + rewrite lookup_insert_ne by done.
      by destruct (default ∅ (saldos_iniciais c) !! q).
Qed.

(** One turn of the loop reads the entry the [setdefault] left: it goes on
    exactly when an entry that was there holds both categories. *)
Lemma turno_saldo_inicial (c : Conta) (p : string) :
  match saldos_de c !! p with
  | Some si =>
      (si ← dict_index (default ∅ (saldos_iniciais (garantir_saldo_inicial c p))) p;
       ler_saldo_inicial si) = ler_saldo_inicial si
  | None =>
      (si ← dict_index (default ∅ (saldos_iniciais (garantir_saldo_inicial c p))) p;
       ler_saldo_inicial si) = Ok (0, 0)
  end.
Proof.
  pose proof (garantir_saldo_inicial_lookup c p p) as H.
  unfold saldos_de in *. unfold dict_index.
  destruct (default ∅ (saldos_iniciais c) !! p) as [si|] eqn:E; rewrite H.
  - done.
  - by rewrite decide_True.
Qed.

Lemma ler_saldo_inicial_ok (si : SaldoInicial) :
  (∃ v, ler_saldo_inicial si = Ok v)
  ↔ is_Some (si_Capital si) ∧ is_Some (si_Custeio si).
Proof.
  unfold ler_saldo_inicial. destruct (si_Capital si), (si_Custeio si); simpl.
  - split; [intros _; split; by eexists|intros _; by eexists].
  - split; [intros [v Hv]; discriminate Hv|intros [_ [v Hv]]; discriminate Hv].
  - split; [intros [v Hv]; discriminate Hv|intros [[v Hv] _]; discriminate Hv].
  - split; [intros [v Hv]; discriminate Hv|intros [[v Hv] _]; discriminate Hv].
Qed.

Lemma ler_saldo_inicial_erro (si : SaldoInicial) (e : exc) :
  ler_saldo_inicial si = Raise e → e = KeyError "Capital" ∨ e = KeyError "Custeio".
Proof.
  unfold ler_saldo_inicial. destruct (si_Capital si), (si_Custeio si); simpl;
    intros H; try discriminate H; injection H as <-; auto.
Qed.

Lemma garantir_saldos_semente (progs : list string) (c : Conta) prog tipo :
  movs_de (laco_saldos_iniciais progs c).1 = movs_de c
  ∧ saldo_semente (saldos_de (laco_saldos_iniciais progs c).1) prog tipo
    = saldo_semente (saldos_de c) prog tipo.
Proof.
  revert c. induction progs as [|p progs IH]; intros c; cbn [laco_saldos_iniciais];
    [done|].
  destruct (_ ← dict_index _ p; _) as [v|e].
  - destruct (IH (garantir_saldo_inicial c p)) as [-> ->].
    split; [done|]. apply garantir_saldo_inicial_semente.
  - cbn [fst]. split; [done|]. apply garantir_saldo_inicial_semente.
Qed.

Lemma laco_saldos_iniciais_termina (progs : list string) (c : Conta) :
  (laco_saldos_iniciais progs c).2 = None
  ↔ Forall (λ p, ∀ si, saldos_de c !! p = Some si →
                   is_Some (si_Capital si) ∧ is_Some (si_Custeio si)) progs.
Proof.
  revert c. induction progs as [|p progs IH]; intros c; cbn [laco_saldos_iniciais].
  - split; [constructor|done].
  - pose proof (turno_saldo_inicial c p) as Ht.
    assert (Hrest :
      Forall (λ q, ∀ si, saldos_de (garantir_saldo_inicial c p) !! q = Some si →
                     is_Some (si_Capital si) ∧ is_Some (si_Custeio si)) progs
      ↔ Forall (λ q, ∀ si, saldos_de c !! q = Some si →
                     is_Some (si_Capital si) ∧ is_Some (si_Custeio si)) progs).
    { apply Forall_iff. intros q. rewrite garantir_saldo_inicial_lookup.
      destruct (saldos_de c !! q) as [sj|]; [done|].
      split; [intros _ si Hsi; discriminate Hsi|].
      intros _ si Hsi. destruct (decide (q = p)); [|discriminate Hsi].
      injection Hsi as <-. split; by eexists. }
    rewrite Forall_cons_iff, <- Hrest, <- IH.
    destruct (saldos_de c !! p) as [si|] eqn:E; rewrite Ht.
    + destruct (ler_saldo_inicial si) as [v|e] eqn:Hl.
      * split; [|by intros [_ H]]. intros H. split; [|exact H].
        intros sj [= <-]. apply ler_saldo_inicial_ok. by exists v.
      * cbn [snd]. split; [discriminate|]. intros [H _].
        specialize (H si eq_refl). apply ler_saldo_inicial_ok in H.
        destruct H as [v Hv]. congruence.
    + split; [|by intros [_ H]]. intros H. split; [|exact H].
      intros sj Hsj. discriminate Hsj.
Qed.

Lemma laco_saldos_iniciais_mantem (progs : list string) (c : Conta) (p : string) :
  is_Some (saldos_de c !! p) →
  is_Some (saldos_de (laco_saldos_iniciais progs c).1 !! p).
Proof.
  revert c. induction progs as [|q progs IH]; intros c Hp;
    cbn [laco_saldos_iniciais]; [exact Hp|].
  assert (Hq : is_Some (saldos_de (garantir_saldo_inicial c q) !! p)).
  { rewrite garantir_saldo_inicial_lookup. destruct Hp as [si ->]. by eexists. }
  destruct (_ ← dict_index _ q; _) as [v|e]; [by apply IH|exact Hq].
Qed.

Lemma laco_saldos_iniciais_erro (progs : list string) (c : Conta) (e : exc) :
  (laco_saldos_iniciais progs c).2 = Some e →
  e = KeyError "Capital" ∨ e = KeyError "Custeio".
Proof.
  revert c. induction progs as [|p progs IH]; intros c; cbn [laco_saldos_iniciais];
    [discriminate|].
  pose proof (turno_saldo_inicial c p) as Ht.
  destruct (saldos_de c !! p) as [si|]; rewrite Ht.
  - destruct (ler_saldo_inicial si) as [v|e'] eqn:Hl; [apply IH|].
    cbn [snd]. intros [= <-]. by eapply ler_saldo_inicial_erro.
  - apply IH.
Qed.

(** X7. Showing the initial balances gives a zero entry to the listed
    programs that have none, in order, and stops with KeyError at the first
    program whose entry lacks a category. However far it gets, it changes
    no balance: every balance query on the account answers as before. It
    runs to its end exactly when every entry of a listed program holds both
    categories, and then every listed program has an entry; otherwise the
    exception is KeyError 'Capital' or KeyError 'Custeio'. *)
Theorem X7_garantir_saldos_iniciais_neutral
    (current_year : Z) (accounts : gmap string Conta) (nome : string) (c : Conta) :
  accounts !! nome = Some c →
  (∀ prog tipo mes ano_,
     get_saldo_anterior current_year
       (<[nome := (garantir_saldos_iniciais c).1]> accounts) nome prog tipo mes ano_
     = get_saldo_anterior current_year accounts nome prog tipo mes ano_)
  ∧ ((garantir_saldos_iniciais c).2 = None
     ↔ Forall (λ p, ∀ si, saldos_de c !! p = Some si →
                      is_Some (si_Capital si) ∧ is_Some (si_Custeio si))
         (programas c))
  ∧ ((garantir_saldos_iniciais c).2 = None →
     ∀ p, p ∈ programas c →
       is_Some (saldos_de (garantir_saldos_iniciais c).1 !! p))
  ∧ (∀ e, (garantir_saldos_iniciais c).2 = Some e →
       e = KeyError "Capital" ∨ e = KeyError "Custeio").
Proof.
  intros Hc. split; [|split; [|split]].
  - intros prog tipo mes ano_.
    erewrite get_saldo_anterior_found by apply lookup_insert_eq.
    rewrite (get_saldo_anterior_found _ _ _ c) by done. f_equal.
    unfold garantir_saldos_iniciais.
    destruct (garantir_saldos_semente (programas c) c prog tipo) as [Hm Hs].
    by apply saldo_conta_ext.
  - apply laco_saldos_iniciais_termina.
  - unfold garantir_saldos_iniciais. generalize (programas c) as progs.
    intros progs. clear Hc. revert c.
    induction progs as [|q progs IH]; intros c Hfim p Hp.
    + by apply elem_of_nil in Hp.
    + cbn [laco_saldos_iniciais] in *.
      assert (Hq : is_Some (saldos_de (garantir_saldo_inicial c q) !! q)).
      { rewrite garantir_saldo_inicial_lookup.
        destruct (saldos_de c !! q); [by eexists|].
        rewrite decide_True by done. by eexists. }
      destruct (_ ← dict_index _ q; _) as [v|e]; [|discriminate Hfim].
      apply elem_of_cons in Hp as [->|Hp].
      * by apply laco_saldos_iniciais_mantem.
      * by apply IH.
  - apply laco_saldos_iniciais_erro.
Qed.

Lemma X7_witness :
  ({[ "A" := conta_sem_P2 ]} : gmap string Conta) !! "A" = Some conta_sem_P2 ∧
  saldos_de conta_sem_P2 !! "P2" = None ∧
  (garantir_saldos_iniciais conta_sem_P2).2 = None ∧
  is_Some (saldos_de (garantir_saldos_iniciais conta_sem_P2).1 !! "P2") ∧
  ∀ prog tipo mes ano_,
    get_saldo_anterior 2024
      (<[ "A" := (garantir_saldos_iniciais conta_sem_P2).1 ]>
         {[ "A" := conta_sem_P2 ]})
      "A" prog tipo mes ano_
    = get_saldo_anterior 2024 {[ "A" := conta_sem_P2 ]} "A" prog tipo mes ano_.
Proof.
  destruct (X7_garantir_saldos_iniciais_neutral 2024 {[ "A" := conta_sem_P2 ]} "A"
              conta_sem_P2) as (H1 & _ & H3 & _); [reflexivity|].
  split; [reflexivity|]. split; [reflexivity|]. split; [reflexivity|].
  split; [|exact H1].
  apply H3; [reflexivity|]. apply (bool_decide_unpack _). vm_compute. exact I.
Defined.

(** With an entry of P1 that lacks ['Capital'], the loop stops at P1 with
    KeyError 'Capital': P2, listed after it, gets no entry. *)
Example garantir_saldos_iniciais_incompleto :
  (garantir_saldos_iniciais conta_incompleta).2 = Some (KeyError "Capital")
  ∧ saldos_de (garantir_saldos_iniciais conta_incompleta).1 !! "P2" = None
  ∧ saldos_de (garantir_saldos_iniciais conta_incompleta).1 !! "P1"
    = Some {| si_Capital := None; si_Custeio := Some 7 |}.
Proof. vm_compute. repeat split; reflexivity. Qed.

(** X8. Saving the initial balance of a program whose entry, if any,
    holds both categories succeeds and replaces the entry: afterwards the
    balance of the program is the new initial balance (capital, operating,
    or their sum for Total) plus the nets of its prior movements, while
    the balances of the other programs and the other accounts are
    untouched. *)
Theorem X8_salvar_saldo_inicial
    (current_year : Z) (db : Db) (accounts : gmap string Conta)
    (nome p : string) (c : Conta) (n_cap n_cus : Q) :
  accounts !! nome = Some c →
  (∀ si, saldos_de c !! p = Some si →
     is_Some (si_Capital si) ∧ is_Some (si_Custeio si)) →
  ∃ accounts' msgs,
    salvar_saldo_inicial db accounts nome p n_cap n_cus = Ok (accounts', msgs)
    ∧ (∀ tipo mes ano_, ∃ b,
         get_saldo_anterior current_year accounts' nome p tipo mes ano_ = Ok b
         ∧ b == match tipo with
                | Capital => n_cap
                | Custeio => n_cus
                | Total => n_cap + n_cus
                end
                + soma (map (liquido tipo)
                          (List.filter (anteriores current_year p mes ano_)
                             (movs_de c))))
    ∧ (∀ prog tipo mes ano_, prog ≠ p →
         get_saldo_anterior current_year accounts' nome prog tipo mes ano_
         = get_saldo_anterior current_year accounts nome prog tipo mes ano_)
    ∧ (∀ a, a ≠ nome → accounts' !! a = accounts !! a).
Proof.
  intros Hc Hsi. unfold salvar_saldo_inicial, dict_index. rewrite Hc. simpl.
  set (saldos := default ∅ (saldos_iniciais (garantir_saldo_inicial c p))).
  assert (Hp : ∃ si, saldos !! p = Some si
                     ∧ is_Some (si_Capital si) ∧ is_Some (si_Custeio si)).
  { unfold saldos, garantir_saldo_inicial. simpl.
    destruct (default ∅ (saldos_iniciais c) !! p) as [si|] eqn:E.
    - exists si. split; [done|]. by apply Hsi.
    - eexists. rewrite lookup_insert_eq. split; [done|]. simpl.
      split; by eexists. }
  destruct Hp as (si & Hlk & [vc Hvc] & [vu Hvu]).
  unfold saldos, garantir_saldo_inicial in Hlk. simpl in Hlk. clear saldos.
  rewrite Hlk. simpl. rewrite Hvc, Hvu. simpl.
  do 2 eexists. split; [done|]. split; [|split].
  - intros tipo mes ano_. eexists.
    split; [by erewrite get_saldo_anterior_found by apply lookup_insert_eq|].
    unfold saldo_conta. rewrite fold_passo_soma. unfold saldos_de, movs_de. simpl.
    rewrite saldo_semente_insert_eq. destruct tipo; ring.
  - intros prog tipo mes ano_ Hne.
    erewrite get_saldo_anterior_found by apply lookup_insert_eq.
    rewrite (get_saldo_anterior_found _ _ _ c) by done. f_equal.
    apply saldo_conta_ext; [done|]. unfold saldos_de at 1. simpl.
    rewrite saldo_semente_insert_ne by done.
    apply (garantir_saldo_inicial_semente c p prog tipo).
  - intros a Ha. by apply lookup_insert_ne.
Qed.

Lemma X8_witness :
  ({[ "A" := conta_A ]} : gmap string Conta) !! "A" = Some conta_A ∧
  (∀ si, saldos_de conta_A !! "P1" = Some si →
     is_Some (si_Capital si) ∧ is_Some (si_Custeio si)) ∧
  ∃ accounts' msgs,
    salvar_saldo_inicial SemConexao {[ "A" := conta_A ]} "A" "P1" 250 30
      = Ok (accounts', msgs)
    ∧ ∀ tipo mes ano_, ∃ b,
        get_saldo_anterior 2024 accounts' "A" "P1" tipo mes ano_ = Ok b
        ∧ b == match tipo with
               | Capital => 250
               | Custeio => 30
               | Total => 250 + 30
               end
               + soma (map (liquido tipo)
                         (List.filter (anteriores 2024 "P1" mes ano_)
                            (movs_de conta_A))).
Proof.
  assert (H : ∀ si, saldos_de conta_A !! "P1" = Some si →
                    is_Some (si_Capital si) ∧ is_Some (si_Custeio si)).
  { intros si Hsi. vm_compute in Hsi. injection Hsi as <-. split; by eexists. }
  split; [reflexivity|]. split; [exact H|].
  destruct (X8_salvar_saldo_inicial 2024 SemConexao {[ "A" := conta_A ]} "A" "P1"
              conta_A 250 30) as (accounts' & msgs & H1 & H2 & _);
    [reflexivity | exact H |].
  by exists accounts', msgs.
Defined.

Example salvar_saldo_inicial_exemplo :
  ∃ accounts' msgs b,
    salvar_saldo_inicial SemConexao {[ "A" := conta_A ]} "A" "P1" 250 30
      = Ok (accounts', msgs)
    ∧ get_saldo_anterior 2024 accounts' "A" "P1" Total 2 2024 = Ok b
    ∧ b == 285.
Proof.
  do 3 eexists. split; [vm_compute; reflexivity|].
  split; [vm_compute; reflexivity|]. reflexivity.
Qed.



(** ** The entry form *)

Lemma dict_set_keys {V} (k : string) (v : V) (d : list (string * V)) :
  (dict_set k v d).*1 = if bool_decide (k ∈ d.*1) then d.*1 else d.*1 ++ [k].
Proof.
  induction d as [|[k' v'] d IH].
  - case_bool_decide as Hin; [|done]. by apply elem_of_nil in Hin.
  - cbn [dict_set]. destruct (String.eqb_spec k' k) as [->|Hne].
    + rewrite bool_decide_eq_true_2; [done|]. rewrite fmap_cons. by left.
    + rewrite !fmap_cons, IH. cbn [fst].
      case_bool_decide as Hin.
      * rewrite bool_decide_eq_true_2; [done|]. by right.
      * rewrite bool_decide_eq_false_2; [done|].
        intros [->|H]%elem_of_cons; done.
Qed.

Lemma dict_set_NoDup {V} (k : string) (v : V) (d : list (string * V)) :
  NoDup d.*1 → NoDup (dict_set k v d).*1.
Proof.
  intros Hnd. rewrite dict_set_keys. case_bool_decide as Hin; [done|].
  apply NoDup_app. split; [done|]. split; [|apply NoDup_singleton].
  intros p Hp ->%list_elem_of_singleton. done.
Qed.

Lemma dict_set_valores {V} (f : string → V) (k : string) (v : V)
    (d : list (string * V)) :
  v = f k →
  (∀ p w, (p, w) ∈ d → w = f p) →
  ∀ p w, (p, w) ∈ dict_set k v d → w = f p.
Proof.
  intros Hv. induction d as [|[k' v'] d IH]; intros Hd p w; cbn [dict_set].
  - intros [= -> ->]%list_elem_of_singleton. done.
  - destruct (String.eqb_spec k' k) as [->|Hne].
    + intros [[= -> ->]|H]%elem_of_cons; [done|]. apply Hd. by right.
    + intros [[= -> ->]|H]%elem_of_cons.
      * apply Hd. by left.
      * apply IH; [|done]. intros q u Hq. apply Hd. by right.
Qed.

Lemma dict_set_novo {V} (k : string) (v : V) (d : list (string * V)) :
  k ∉ d.*1 → dict_set k v d = d ++ [(k, v)].
Proof.
  induction d as [|[k' v'] d IH]; intros Hk; cbn [dict_set]; [done|].
  rewrite fmap_cons in Hk. apply not_elem_of_cons in Hk as [Hne Hk].
  destruct (String.eqb_spec k' k) as [->|_]; [done|]. by rewrite IH.
Qed.

Lemma montar_dados_entrada_acc (digitado : string → Entrada) progs acc :
  NoDup acc.*1 →
  (∀ p w, (p, w) ∈ acc → w = digitado p) →
  NoDup (fold_left (λ dados prog, dict_set prog (digitado prog) dados) progs acc).*1
  ∧ (∀ p w, (p, w) ∈ fold_left (λ dados prog, dict_set prog (digitado prog) dados)
                        progs acc → w = digitado p)
  ∧ (∀ p, p ∈ (fold_left (λ dados prog, dict_set prog (digitado prog) dados)
                 progs acc).*1 ↔ p ∈ acc.*1 ∨ p ∈ progs).
Proof.
  revert acc. induction progs as [|q progs IH]; intros acc Hnd Hv; simpl.
  - split; [done|]. split; [done|]. intros p. split; [by left|].
    intros [H|H]; [done|]. by apply elem_of_nil in H.
  - destruct (IH (dict_set q (digitado q) acc)) as (H1 & H2 & H3).
    + by apply dict_set_NoDup.
    + by apply dict_set_valores.
    + split; [done|]. split; [done|]. intros p. rewrite H3, dict_set_keys.
      case_bool_decide as Hin.
      * split; [intros [H|H]; [by left|by right; right]|].
        intros [H|[->|H]%elem_of_cons]; [by left|by left|by right].
      * rewrite elem_of_app, list_elem_of_singleton. split.
        -- intros [[H| ->]|H]; [by left|by right; left|by right; right].
        -- intros [H|[->|H]%elem_of_cons]; [by left; left|by left; right|by right].
Qed.

Lemma montar_dados_entrada_NoDup_acc (digitado : string → Entrada) progs acc :
  NoDup (acc.*1 ++ progs) →
  fold_left (λ dados prog, dict_set prog (digitado prog) dados) progs acc
  = acc ++ map (λ p, (p, digitado p)) progs.
Proof.
  revert acc. induction progs as [|q progs IH]; intros acc Hnd; simpl.
  - by rewrite app_nil_r.
  - apply NoDup_app in Hnd as (Ha & Hdisj & Hq).
    apply NoDup_cons in Hq as [Hq Hp].
    rewrite dict_set_novo.
    + rewrite IH; [by rewrite <- app_assoc|].
      rewrite fmap_app. simpl. rewrite <- app_assoc. simpl.
      apply NoDup_app. split; [done|]. split; [|by apply NoDup_cons].
      done.
    + intros Hin. apply (Hdisj q Hin). by left.
Qed.

(** X10. The entries dictionary the form builds never holds a program
    twice, whatever the program list: its keys are the listed programs,
    each bound to the values typed for it. For a program list without
    duplicates it is the list of the programs, in order, each with its
    typed values. *)
Theorem X10_montar_dados_entrada
    (progs : list string) (digitado : string → Entrada) :
  NoDup (montar_dados_entrada progs digitado).*1
  ∧ (∀ p, p ∈ (montar_dados_entrada progs digitado).*1 ↔ p ∈ progs)
  ∧ (∀ p w, (p, w) ∈ montar_dados_entrada progs digitado → w = digitado p)
  ∧ (NoDup progs →
     montar_dados_entrada progs digitado = map (λ p, (p, digitado p)) progs).
Proof.
  unfold montar_dados_entrada.
  destruct (montar_dados_entrada_acc digitado progs []) as (H1 & H2 & H3).
  { constructor. }
  { intros p w H. by apply elem_of_nil in H. }
  split; [done|]. split.
  - intros p. rewrite H3. split; [intros [H|H]; [by apply elem_of_nil in H|done]|].
    by right.
  - split; [done|]. intros Hnd. by rewrite montar_dados_entrada_NoDup_acc.
Qed.

Example montar_dados_entrada_repetido :
  montar_dados_entrada ["P1"; "P2"; "P1"]
    (λ p, if String.eqb p "P1" then mkEntrada 1 0 0 0 else mkEntrada 2 0 0 0)
  = [("P1", mkEntrada 1 0 0 0); ("P2", mkEntrada 2 0 0 0)].
Proof. reflexivity. Qed.

Lemma find_registro (mes ano_ : Z) (R t : Q) (f : string * Entrada → Bases)
    (dados : list (string * Entrada)) (p : string) (v : Entrada) :
  NoDup dados.*1 → (p, v) ∈ dados →
  List.find (λ m, String.eqb (programa m) p)
    (map (λ pv, registro mes ano_ R t (f pv) pv) dados)
  = Some (registro mes ano_ R t (f (p, v)) (p, v)).
Proof.
  induction dados as [|x dados IH]; intros Hnd Hin.
  - by apply elem_of_nil in Hin.
  - rewrite fmap_cons in Hnd. apply NoDup_cons in Hnd as [Hx Hnd]. simpl.
    apply elem_of_cons in Hin as [<-|Hin].
    + simpl. by rewrite String.eqb_refl.
    + destruct (String.eqb_spec x.1 p) as [Heq|Hne]; [|by apply IH].
      exfalso. apply Hx. rewrite Heq.
      apply (list_elem_of_fmap_2 fst dados (p, v)). done.
Qed.

Lemma val_rendimento_inicial_soma (registros : list Mov) :
  val_rendimento_inicial registros == soma (map total_rendimento registros).
Proof.
  destruct registros as [|m l]; [reflexivity|].
  unfold val_rendimento_inicial. apply pysum_soma.
Qed.

Lemma soma_total_rendimento_registros mes ano_ R t
    (f : string * Entrada → Bases) dados :
  soma (map total_rendimento (map (λ pv, registro mes ano_ R t (f pv) pv) dados))
  = soma (map rendimento_emitido (map (λ pv, registro mes ano_ R t (f pv) pv) dados)).
Proof. induction dados as [|pv dados IH]; simpl; [done|]. by rewrite IH. Qed.

(** The yields of the records add up to the reported yield when the pool
    is positive, and to nothing when it is empty. *)
Lemma soma_rendimentos_conta current_year (c : Conta) mes ano_ R dados :
  let t := total_final current_year c mes ano_ dados 0 in
  let novos := map (λ pv, registro mes ano_ R t
                            (base_de current_year c mes ano_ pv) pv) dados in
  (0 < t → soma (map rendimento_emitido novos) == R)
  ∧ (t == 0 → soma (map rendimento_emitido novos) == 0).
Proof.
  intros t novos. split.
  - intros Hpos. unfold novos. rewrite soma_registros by done.
    pose proof (total_final_soma current_year mes ano_ c dados 0) as Hs.
    fold t in Hs.
    assert (Hne : ¬ t == 0).
    { intros H. rewrite H in Hpos. by apply Qlt_irrefl in Hpos. }
    assert (Hs' : soma (map (λ pv, soma_bases (base_de current_year c mes ano_ pv))
                      dados) == t).
    { rewrite Hs. ring. }
    rewrite Hs'. by field.
  - intros Hz. unfold novos. rewrite map_map. apply soma_todos_zero.
    apply Forall_forall. intros pv _. unfold rendimento_emitido. simpl.
    rewrite !fator_pool_zero by done. ring.
Qed.

Lemma montar_dados_entrada_de_volta (dados : list (string * Entrada))
    (digitado : string → Entrada) :
  NoDup dados.*1 →
  (∀ p v, (p, v) ∈ dados → digitado p = v) →
  montar_dados_entrada dados.*1 digitado = dados.
Proof.
  intros Hnd Hv. unfold montar_dados_entrada.
  rewrite montar_dados_entrada_NoDup_acc by done. simpl.
  clear Hnd. induction dados as [|[p v] dados IH]; simpl; [done|].
  rewrite (Hv p v) by (by left). f_equal. apply IH.
  intros q w Hq. apply Hv. by right.
Qed.

(** X11. Reopening the form on a month that was just saved shows what
    was saved: the existing records are the records of the save, the four
    inputs of every program start with the credits and debits that were
    entered, so the form rebuilds the same entries, and the yield input
    starts with the reported yield when the pool was positive, and with 0
    when the pool was empty. *)
Theorem X11_form_round_trip
    (current_year : Z) (db : Db) (accounts : gmap string Conta) (conta : string)
    (c : Conta) (mes ano_ : Z) (rendimento : Q)
    (dados : list (string * Entrada)) :
  accounts !! conta = Some c →
  NoDup dados.*1 →
  ∃ accounts' msgs novos sb t,
    salvar_lancamento current_year db accounts conta mes ano_ rendimento dados
      = Ok (accounts', msgs)
    ∧ calcular_rateio_rendimento current_year accounts conta mes ano_
        rendimento dados = Ok novos
    ∧ calcular_bases current_year accounts conta mes ano_ dados = Ok (sb, t)
    ∧ registros_existentes current_year accounts' conta mes ano_ = Ok novos
    ∧ (∀ p v, (p, v) ∈ dados → valores_iniciais novos p = v)
    ∧ montar_dados_entrada dados.*1 (valores_iniciais novos) = dados
    ∧ (0 < t → val_rendimento_inicial novos == rendimento)
    ∧ (t == 0 → val_rendimento_inicial novos == 0).
Proof.
  intros Hc Hnd.
  pose proof (calcular_rateio_rendimento_NoDup current_year accounts conta mes ano_
                c rendimento dados Hc Hnd) as Hn.
  set (t := total_final current_year c mes ano_ dados 0) in *.
  set (f := base_de current_year c mes ano_) in *.
  set (novos := map (λ pv, registro mes ano_ rendimento t (f pv) pv) dados) in *.
  do 2 eexists. exists novos. do 2 eexists.
  split; [by apply salvar_lancamento_found|].
  split; [exact Hn|].
  split; [by apply laco_bases_found|].
  assert (Hval : ∀ p v, (p, v) ∈ dados → valores_iniciais novos p = v).
  { intros p v Hin. unfold valores_iniciais, novos.
    rewrite (find_registro mes ano_ rendimento t f dados p v) by done.
    simpl. by destruct v. }
  split.
  { unfold registros_existentes, dict_index. rewrite lookup_insert_eq. simpl.
    f_equal. apply periodo_apos_salvar, mesmo_periodo_reg. }
  split; [exact Hval|].
  split.
  { by apply montar_dados_entrada_de_volta. }
  fold t. rewrite val_rendimento_inicial_soma. unfold novos.
  rewrite soma_total_rendimento_registros.
  apply (soma_rendimentos_conta current_year c mes ano_ rendimento dados).
Qed.

Lemma X11_witness :
  ({[ "A" := conta_A0 ]} : gmap string Conta) !! "A" = Some conta_A0 ∧
  NoDup entradas_jan.*1 ∧
  ∃ accounts' msgs novos,
    salvar_lancamento 2024 SemConexao {[ "A" := conta_A0 ]} "A" 1 2024 10 entradas_jan
      = Ok (accounts', msgs)
    ∧ registros_existentes 2024 accounts' "A" 1 2024 = Ok novos
    ∧ montar_dados_entrada entradas_jan.*1 (valores_iniciais novos) = entradas_jan.
Proof.
  assert (Hnd : NoDup entradas_jan.*1).
  { apply (bool_decide_unpack _). vm_compute. exact I. }
  split; [reflexivity|]. split; [exact Hnd|].
  destruct (X11_form_round_trip 2024 SemConexao {[ "A" := conta_A0 ]} "A" conta_A0
              1 2024 10 entradas_jan)
    as (accounts' & msgs & novos & sb & t & H1 & _ & _ & H2 & _ & H3 & _);
    [reflexivity | exact Hnd |].
  by exists accounts', msgs, novos.
Defined.

Example formulario_janeiro :
  ∃ accounts' msgs novos,
    salvar_lancamento 2024 SemConexao {[ "A" := conta_A0 ]} "A" 1 2024 10 entradas_jan
      = Ok (accounts', msgs)
    ∧ registros_existentes 2024 accounts' "A" 1 2024 = Ok novos
    ∧ val_rendimento_inicial novos == 10
    ∧ valores_iniciais novos "P2" = mkEntrada 100 0 0 0
    ∧ valores_iniciais novos "P7" = mkEntrada 0 0 0 0.
Proof.
  do 3 eexists. split; [vm_compute; reflexivity|].
  split; [vm_compute; reflexivity|]. split; [reflexivity|]. split; reflexivity.
Qed.

(** ** What a save does to the balances *)

Lemma nao_anterior_do_periodo current_year prog mes ano_ mes' ano' m :
  mesmo_periodo current_year mes ano_ m = true →
  ¬ antes ano_ mes ano' mes' →
  anteriores current_year prog mes' ano' m = false.
Proof.
  unfold mesmo_periodo, anteriores.
  intros [H1 H2]%andb_true_iff Hn.
  apply Z.eqb_eq in H1; apply Z.eqb_eq in H2.
  apply bool_decide_eq_false. rewrite H1, H2. tauto.
Qed.

Lemma anterior_do_periodo current_year prog mes ano_ mes' ano' m :
  mesmo_periodo current_year mes ano_ m = true →
  antes ano_ mes ano' mes' →
  anteriores current_year prog mes' ano' m = String.eqb (programa m) prog.
Proof.
  unfold mesmo_periodo, anteriores.
  intros [H1 H2]%andb_true_iff Ha.
  apply Z.eqb_eq in H1; apply Z.eqb_eq in H2. rewrite H1, H2.
  destruct (String.eqb_spec (programa m) prog) as [Hp|Hp].
  - by apply bool_decide_eq_true.
  - apply bool_decide_eq_false. tauto.
Qed.

Lemma fold_passo_ignorados current_year prog tipo mes' ano' (l : list Mov) s :
  Forall (λ m, anteriores current_year prog mes' ano' m = false) l →
  fold_left (passo_saldo current_year prog tipo mes' ano') l s = s.
Proof.
  intros H. revert s. induction H as [|m l Hm _ IH]; intros s; simpl; [done|].
  by rewrite IH, passo_saldo_liquido, Hm.
Qed.

(** The records of a call all sit in the period of the call. *)
Lemma calcular_rateio_rendimento_periodo current_year accounts conta c mes ano_
    R dados novos :
  accounts !! conta = Some c →
  calcular_rateio_rendimento current_year accounts conta mes ano_ R dados
    = Ok novos →
  Forall (λ m, mesmo_periodo current_year mes ano_ m = true) novos.
Proof.
  intros Hc Hn.
  rewrite (calcular_rateio_rendimento_found _ _ _ _ _ c) in Hn by done.
  injection Hn as <-. apply mesmo_periodo_reg.
Qed.

(** X12. Saving a month never rewrites the past: every balance as of
    the saved month or of any earlier month, for every program and
    category of the account, is exactly what it was before the save, and
    the other accounts are not touched. *)
Theorem X12_salvar_keeps_earlier_balances
    (current_year : Z) (db : Db) (accounts : gmap string Conta) (conta : string)
    (c : Conta) (mes ano_ : Z) (rendimento : Q)
    (dados : list (string * Entrada)) :
  accounts !! conta = Some c →
  ∃ accounts' msgs,
    salvar_lancamento current_year db accounts conta mes ano_ rendimento dados
      = Ok (accounts', msgs)
    ∧ (∀ prog tipo mes' ano', ¬ antes ano_ mes ano' mes' →
         get_saldo_anterior current_year accounts' conta prog tipo mes' ano'
         = get_saldo_anterior current_year accounts conta prog tipo mes' ano')
    ∧ (∀ a prog tipo mes' ano', a ≠ conta →
         get_saldo_anterior current_year accounts' a prog tipo mes' ano'
         = get_saldo_anterior current_year accounts a prog tipo mes' ano').
Proof.
  intros Hc.
  pose proof (calcular_rateio_rendimento_found current_year accounts conta mes ano_
                c rendimento dados Hc) as Hn.
  pose proof (calcular_rateio_rendimento_periodo _ _ _ _ _ _ _ _ _ Hc Hn) as Hper.
  do 2 eexists. split; [by eapply salvar_lancamento_found|]. split.
  - intros prog tipo mes' ano' Hna.
    erewrite get_saldo_anterior_found by apply lookup_insert_eq.
    rewrite (get_saldo_anterior_found _ _ _ c) by done. f_equal.
    unfold saldo_conta, saldos_de, movs_de. simpl.
    rewrite fold_left_app. rewrite fold_passo_ignorados.
    + apply fold_passo_filter. intros m Hm. apply negb_false_iff in Hm.
      by eapply nao_anterior_do_periodo.
    + eapply Forall_impl; [exact Hper|]. intros m Hm. simpl in Hm.
      by eapply nao_anterior_do_periodo.
  - intros a prog tipo mes' ano' Ha.
    unfold get_saldo_anterior, dict_index. by rewrite lookup_insert_ne.
Qed.

Lemma X12_witness :
  ({[ "A" := conta_A ]} : gmap string Conta) !! "A" = Some conta_A ∧
  ∃ accounts' msgs,
    salvar_lancamento 2024 SemConexao {[ "A" := conta_A ]} "A" 3 2024 9 entradas_jan
      = Ok (accounts', msgs)
    ∧ (∀ prog tipo mes' ano', ¬ antes 2024 3 ano' mes' →
         get_saldo_anterior 2024 accounts' "A" prog tipo mes' ano'
         = get_saldo_anterior 2024 {[ "A" := conta_A ]} "A" prog tipo mes' ano').
Proof.
  split; [reflexivity|].
  destruct (X12_salvar_keeps_earlier_balances 2024 SemConexao {[ "A" := conta_A ]}
              "A" conta_A 3 2024 9 entradas_jan) as (accounts' & msgs & H1 & H2 & _);
    [reflexivity|].
  by exists accounts', msgs.
Defined.

Lemma soma_anteriores_periodo current_year prog tipo mes ano_ mes' ano' (l : list Mov) :
  antes ano_ mes ano' mes' →
  soma (map (liquido tipo) (List.filter (anteriores current_year prog mes' ano') l))
  == soma (map (liquido tipo)
             (List.filter (anteriores current_year prog mes' ano')
                (List.filter (λ m, negb (mesmo_periodo current_year mes ano_ m)) l)))
     + soma (map (liquido tipo)
               (List.filter (λ m, String.eqb (programa m) prog
                                  && mesmo_periodo current_year mes ano_ m) l)).
Proof.
  intros Ha. induction l as [|m l IH]; simpl; [ring|].
  destruct (mesmo_periodo current_year mes ano_ m) eqn:E; simpl.
  - rewrite (anterior_do_periodo current_year prog mes ano_ mes' ano' m E Ha).
    rewrite andb_true_r.
    destruct (String.eqb (programa m) prog); simpl; rewrite IH; ring.
  - rewrite andb_false_r.
    destruct (anteriores current_year prog mes' ano' m); simpl; rewrite IH; ring.
Qed.

Lemma filter_anteriores_periodo current_year prog mes ano_ mes' ano' (l : list Mov) :
  antes ano_ mes ano' mes' →
  Forall (λ m, mesmo_periodo current_year mes ano_ m = true) l →
  List.filter (anteriores current_year prog mes' ano') l
  = List.filter (λ m, String.eqb (programa m) prog) l.
Proof.
  intros Ha. induction 1 as [|m l Hm _ IH]; simpl; [done|].
  by rewrite (anterior_do_periodo current_year prog mes ano_ mes' ano' m Hm Ha), IH.
Qed.

(** X13. For every later month, saving a month moves the balance of a
    program by exactly the difference it makes: the nets of the records
    the save wrote for the program replace the nets of the records the
    month held for it before. *)
Theorem X13_salvar_moves_later_balances
    (current_year : Z) (db : Db) (accounts : gmap string Conta) (conta : string)
    (c : Conta) (mes ano_ : Z) (rendimento : Q)
    (dados : list (string * Entrada)) :
  accounts !! conta = Some c →
  ∃ accounts' msgs novos,
    salvar_lancamento current_year db accounts conta mes ano_ rendimento dados
      = Ok (accounts', msgs)
    ∧ calcular_rateio_rendimento current_year accounts conta mes ano_
        rendimento dados = Ok novos
    ∧ ∀ prog tipo mes' ano', antes ano_ mes ano' mes' →
        ∃ b b',
          get_saldo_anterior current_year accounts conta prog tipo mes' ano' = Ok b
          ∧ get_saldo_anterior current_year accounts' conta prog tipo mes' ano'
            = Ok b'
          ∧ b' == b
                  - soma (map (liquido tipo)
                            (List.filter
                               (λ m, String.eqb (programa m) prog
                                     && mesmo_periodo current_year mes ano_ m)
                               (movs_de c)))
                  + soma (map (liquido tipo)
                            (List.filter (λ m, String.eqb (programa m) prog) novos)).
Proof.
  intros Hc.
  pose proof (calcular_rateio_rendimento_found current_year accounts conta mes ano_
                c rendimento dados Hc) as Hn.
  pose proof (calcular_rateio_rendimento_periodo _ _ _ _ _ _ _ _ _ Hc Hn) as Hper.
  do 3 eexists. split; [by eapply salvar_lancamento_found|]. split; [exact Hn|].
  intros prog tipo mes' ano' Ha. do 2 eexists.
  split; [by apply get_saldo_anterior_found|].
  split; [by erewrite get_saldo_anterior_found by apply lookup_insert_eq|].
  rewrite !saldo_conta_priorBalance. unfold priorBalance.
  change (saldos_de (set_movimentacoes c ?l)) with (saldos_de c).
  change (movs_de (set_movimentacoes c ?l)) with l.
  rewrite List.filter_app, map_app, soma_app.
  rewrite (soma_anteriores_periodo current_year prog tipo mes ano_ mes' ano'
             (movs_de c) Ha).
  rewrite (filter_anteriores_periodo current_year prog mes ano_ mes' ano' _ Ha Hper).
  ring.
Qed.

Lemma X13_witness :
  ({[ "A" := conta_A ]} : gmap string Conta) !! "A" = Some conta_A ∧
  ∃ accounts' msgs novos,
    salvar_lancamento 2024 SemConexao {[ "A" := conta_A ]} "A" 1 2024 7 entradas_jan
      = Ok (accounts', msgs)
    ∧ calcular_rateio_rendimento 2024 {[ "A" := conta_A ]} "A" 1 2024 7 entradas_jan
      = Ok novos.
Proof.
  split; [reflexivity|].
  destruct (X13_salvar_moves_later_balances 2024 SemConexao {[ "A" := conta_A ]}
              "A" conta_A 1 2024 7 entradas_jan)
    as (accounts' & msgs & novos & H1 & H2 & _); [reflexivity|].
  by exists accounts', msgs, novos.
Defined.

(** P1 had 105 of capital before February; saving January again with a
    reported yield of 7 instead of 10 leaves it 103.5. *)
Example salvar_de_novo_fevereiro :
  ∃ accounts' msgs b,
    salvar_lancamento 2024 SemConexao {[ "A" := conta_A ]} "A" 1 2024 7 entradas_jan
      = Ok (accounts', msgs)
    ∧ get_saldo_anterior 2024 accounts' "A" "P1" Capital 2 2024 = Ok b
    ∧ b == 207 / 2.
Proof.
  do 3 eexists. split; [vm_compute; reflexivity|].
  split; [vm_compute; reflexivity|]. reflexivity.
Qed.

(** ** Saving again *)

Lemma bases_ext current_year (c1 c2 : Conta) mes ano_ dados :
  (∀ pv, base_de current_year c1 mes ano_ pv = base_de current_year c2 mes ano_ pv) →
  (∀ sb, bases_finais current_year c1 mes ano_ dados sb
         = bases_finais current_year c2 mes ano_ dados sb)
  ∧ (∀ t, total_final current_year c1 mes ano_ dados t
          = total_final current_year c2 mes ano_ dados t).
Proof.
  intros Hb. unfold bases_finais, total_final.
  induction dados as [|pv dados [IH1 IH2]]; [done|]. simpl. split.
  - intros sb. by rewrite Hb, IH1.
  - intros t. by rewrite Hb, IH2.
Qed.

Lemma saldo_conta_periodo_ext current_year (c1 c2 : Conta) prog tipo mes ano_ :
  saldos_de c1 = saldos_de c2 →
  List.filter (λ m, negb (mesmo_periodo current_year mes ano_ m)) (movs_de c1)
  = List.filter (λ m, negb (mesmo_periodo current_year mes ano_ m)) (movs_de c2) →
  saldo_conta current_year c1 prog tipo mes ano_
  = saldo_conta current_year c2 prog tipo mes ano_.
Proof.
  intros Hs Hf. unfold saldo_conta. rewrite Hs.
  transitivity
    (fold_left (passo_saldo current_year prog tipo mes ano_)
       (List.filter (λ m, negb (mesmo_periodo current_year mes ano_ m)) (movs_de c1))
       (saldo_semente (saldos_de c2) prog tipo)).
  - symmetry. apply fold_passo_filter. intros m. apply mesmo_periodo_nao_anterior.
  - rewrite Hf. apply fold_passo_filter. intros m. apply mesmo_periodo_nao_anterior.
Qed.

(** The call reads the account only through its initial balances and the
    movements outside the period of the call. *)
Lemma calcular_rateio_rendimento_ext current_year accounts1 accounts2 conta c1 c2
    mes ano_ R dados :
  accounts1 !! conta = Some c1 →
  accounts2 !! conta = Some c2 →
  saldos_de c1 = saldos_de c2 →
  List.filter (λ m, negb (mesmo_periodo current_year mes ano_ m)) (movs_de c1)
  = List.filter (λ m, negb (mesmo_periodo current_year mes ano_ m)) (movs_de c2) →
  calcular_rateio_rendimento current_year accounts1 conta mes ano_ R dados
  = calcular_rateio_rendimento current_year accounts2 conta mes ano_ R dados.
Proof.
  intros H1 H2 Hs Hf.
  rewrite (calcular_rateio_rendimento_found _ _ _ _ _ c1) by done.
  rewrite (calcular_rateio_rendimento_found _ _ _ _ _ c2) by done.
  assert (Hb : ∀ pv, base_de current_year c1 mes ano_ pv
                     = base_de current_year c2 mes ano_ pv).
  { intros pv. unfold base_de.
    by rewrite !(saldo_conta_periodo_ext current_year c1 c2). }
  destruct (bases_ext current_year c1 c2 mes ano_ dados Hb) as [Hb1 Hb2].
  by rewrite Hb1, Hb2.
Qed.

(** X14. Saving is idempotent, and it does not read what the month
    held: the records computed for a month are the same whether or not
    the month's previous records are in the ledger, and saving the same
    entries and yield a second time leaves the ledger exactly as the
    first save left it. *)
Theorem X14_salvar_idempotent
    (current_year : Z) (db : Db) (accounts : gmap string Conta) (conta : string)
    (c : Conta) (mes ano_ : Z) (rendimento : Q)
    (dados : list (string * Entrada)) :
  accounts !! conta = Some c →
  ∃ accounts' msgs,
    salvar_lancamento current_year db accounts conta mes ano_ rendimento dados
      = Ok (accounts', msgs)
    ∧ calcular_rateio_rendimento current_year accounts' conta mes ano_
        rendimento dados
      = calcular_rateio_rendimento current_year accounts conta mes ano_
          rendimento dados
    ∧ calcular_rateio_rendimento current_year
        (<[conta := set_movimentacoes c
                      (List.filter (λ m, negb (mesmo_periodo current_year mes ano_ m))
                         (movs_de c))]> accounts)
        conta mes ano_ rendimento dados
      = calcular_rateio_rendimento current_year accounts conta mes ano_
          rendimento dados
    ∧ salvar_lancamento current_year db accounts' conta mes ano_ rendimento dados
      = Ok (accounts', msgs).
Proof.
  intros Hc.
  pose proof (calcular_rateio_rendimento_found current_year accounts conta mes ano_
                c rendimento dados Hc) as Hn.
  pose proof (calcular_rateio_rendimento_periodo _ _ _ _ _ _ _ _ _ Hc Hn) as Hper.
  set (novos := map _ dados) in *.
  set (outros := List.filter (λ m, negb (mesmo_periodo current_year mes ano_ m))
                   (movs_de c)).
  set (c' := set_movimentacoes c (outros ++ novos)).
  assert (Hc' : <[conta := c']> accounts !! conta = Some c') by apply lookup_insert_eq.
  assert (Hout : List.filter (λ m, negb (mesmo_periodo current_year mes ano_ m))
                   (movs_de c') = outros).
  { by apply outros_apos_salvar. }
  assert (Hcalc : calcular_rateio_rendimento current_year (<[conta := c']> accounts)
                    conta mes ano_ rendimento dados
                  = calcular_rateio_rendimento current_year accounts conta mes ano_
                      rendimento dados).
  { by apply (calcular_rateio_rendimento_ext current_year _ _ conta c' c). }
  exists (<[conta := c']> accounts),
         (save_account_to_firebase db ++ [st_success "Dados salvos com sucesso!"]).
  split; [by apply salvar_lancamento_found|]. split; [exact Hcalc|]. split.
  - apply (calcular_rateio_rendimento_ext current_year _ _ conta
             (set_movimentacoes c outros) c);
      [apply lookup_insert_eq | done | done |].
    apply filter_negb_idem.
  - rewrite (salvar_lancamento_found current_year mes ano_ db _ conta c'
               rendimento dados novos Hc') by (by rewrite Hcalc).
    rewrite Hout, insert_insert_eq. done.
Qed.

Lemma X14_witness :
  ({[ "A" := conta_A ]} : gmap string Conta) !! "A" = Some conta_A ∧
  ∃ accounts' msgs,
    salvar_lancamento 2024 SemConexao {[ "A" := conta_A ]} "A" 1 2024 7 entradas_jan
      = Ok (accounts', msgs)
    ∧ salvar_lancamento 2024 SemConexao accounts' "A" 1 2024 7 entradas_jan
      = Ok (accounts', msgs).
Proof.
  split; [reflexivity|].
  destruct (X14_salvar_idempotent 2024 SemConexao {[ "A" := conta_A ]}
              "A" conta_A 1 2024 7 entradas_jan)
    as (accounts' & msgs & H1 & _ & _ & H2); [reflexivity|].
  by exists accounts', msgs.
Defined.

(** ** Unknown accounts *)

(** X15. An account name that is not in the ledger makes every
    operation on it raise [KeyError] with that name: apportionment with at
    least one entry, the save handler, the form, the statement and the
    summary. Only apportionment with no entry at all returns, with no
    record, because it never looks the account up; the save handler still
    fails on the same input and stores nothing. *)
Theorem X15_unknown_account_raises
    (current_year : Z) (accounts : gmap string Conta) (conta : string)
    (mes ano_ : Z) (rendimento : Q) :
  accounts !! conta = None →
  calcular_rateio_rendimento current_year accounts conta mes ano_ rendimento []
    = Ok []
  ∧ (∀ pv dados,
       calcular_rateio_rendimento current_year accounts conta mes ano_ rendimento
         (pv :: dados) = Raise (KeyError conta))
  ∧ (∀ db dados,
       salvar_lancamento current_year db accounts conta mes ano_ rendimento dados
       = Raise (KeyError conta))
  ∧ registros_existentes current_year accounts conta mes ano_
    = Raise (KeyError conta)
  ∧ (∀ progs, extrato_mensal current_year accounts conta ano_ progs
              = Raise (KeyError conta))
  ∧ (∀ progs, resumo_anual current_year accounts conta ano_ progs
              = Raise (KeyError conta)).
Proof.
  intros Hc.
  assert (Hcons : ∀ pv dados,
    calcular_rateio_rendimento current_year accounts conta mes ano_ rendimento
      (pv :: dados) = Raise (KeyError conta)).
  { intros pv dados. unfold calcular_rateio_rendimento, calcular_bases.
    by rewrite laco_bases_missing. }
  split; [done|]. split; [exact Hcons|]. split; [|split; [|split]].
  - intros db [|pv dados]; unfold salvar_lancamento.
    + simpl. unfold dict_index. by rewrite Hc.
    + by rewrite Hcons.
  - unfold registros_existentes, dict_index. by rewrite Hc.
  - intros progs. unfold extrato_mensal, dict_index. by rewrite Hc.
  - intros progs. unfold resumo_anual, dict_index. by rewrite Hc.
Qed.

Lemma X15_witness :
  ({[ "A" := conta_A ]} : gmap string Conta) !! "B" = None ∧
  ∀ db dados,
    salvar_lancamento 2024 db {[ "A" := conta_A ]} "B" 1 2024 10 dados
    = Raise (KeyError "B").
Proof.
  split; [reflexivity|].
  apply (X15_unknown_account_raises 2024 {[ "A" := conta_A ]} "B" 1 2024 10).
  reflexivity.
Defined.

(** ** The records of an apportionment *)

(** X16. With the account in the ledger the call returns one record
    per entry, in the order of the entries; each record names the program
    of its entry, the month and the year of the call, and carries the four
    credit and debit amounts of the entry unchanged. *)
Theorem X16_calcular_rateio_rendimento_shape
    (current_year : Z) (accounts : gmap string Conta) (conta : string) (c : Conta)
    (mes ano_ : Z) (rendimento : Q) (dados : list (string * Entrada)) :
  accounts !! conta = Some c →
  ∃ resultados,
    calcular_rateio_rendimento current_year accounts conta mes ano_ rendimento dados
      = Ok resultados
    ∧ Forall2 (λ pv m,
         programa m = pv.1 ∧ mes_num m = mes ∧ ano m = Some ano_
         ∧ credito_capital m = cred_cap pv.2
         ∧ credito_custeio m = cred_cus pv.2
         ∧ debito_capital m = deb_cap pv.2
         ∧ debito_custeio m = deb_cus pv.2) dados resultados.
Proof.
  intros Hc. rewrite (calcular_rateio_rendimento_found _ _ _ _ _ c) by done.
  eexists. split; [done|].
  generalize (total_final current_year c mes ano_ dados 0),
             (bases_finais current_year c mes ano_ dados ∅).
  intros t sb. induction dados as [|pv dados IH]; simpl; constructor; [|done].
  by repeat split.
Qed.

Lemma X16_witness :
  ({[ "A" := conta_A0 ]} : gmap string Conta) !! "A" = Some conta_A0 ∧
  ∃ resultados,
    calcular_rateio_rendimento 2024 {[ "A" := conta_A0 ]} "A" 1 2024 10 entradas_jan
      = Ok resultados
    ∧ length resultados = 2%nat.
Proof.
  split; [reflexivity|].
  destruct (X16_calcular_rateio_rendimento_shape 2024 {[ "A" := conta_A0 ]} "A"
              conta_A0 1 2024 10 entradas_jan) as (res & H1 & H2); [reflexivity|].
  exists res. split; [exact H1|].
  apply Forall2_length in H2. rewrite <- H2. reflexivity.
Defined.

Lemma soma_nonneg {A} (f : A → Q) (l : list A) :
  (∀ y, 0 <= f y) → 0 <= soma (map f l).
Proof.
  intros Hf. induction l as [|z l IH]; simpl; [apply Qle_refl|].
  specialize (Hf z). lra.
Qed.

Lemma soma_membro {A} (f : A → Q) (l : list A) (x : A) :
  (∀ y, 0 <= f y) → x ∈ l → f x <= soma (map f l).
Proof.
  intros Hf. induction l as [|y l IH]; intros Hin.
  - by apply elem_of_nil in Hin.
  - simpl. apply elem_of_cons in Hin as [->|Hin].
    + pose proof (soma_nonneg f l Hf). lra.
    + specialize (IH Hin). specialize (Hf y). lra.
Qed.

Lemma share_bounds (R b t : Q) :
  0 <= R → 0 <= b → b <= t → 0 <= R * fator b t ∧ R * fator b t <= R.
Proof.
  intros HR Hb Hbt. unfold fator. destruct (Qgt_bool t 0) eqn:E.
  - apply Qgt_bool_true in E.
    assert (H0 : 0 <= b / t).
    { apply Qle_shift_div_l; [done|]. lra. }
    assert (H1 : b / t <= 1).
    { apply Qle_shift_div_r; [done|]. lra. }
    split; nra.
  - split; lra.
Qed.

(** X17. A non-negative reported yield is shared out in non-negative
    parts, and no program receives more than the whole: in every record
    the capital share and the operating share are at least 0 and together
    at most the reported yield. *)
Theorem X17_yield_shares_bounded
    (current_year : Z) (accounts : gmap string Conta) (conta : string) (c : Conta)
    (mes ano_ : Z) (rendimento : Q) (dados : list (string * Entrada)) :
  accounts !! conta = Some c →
  NoDup dados.*1 →
  0 <= rendimento →
  ∃ resultados,
    calcular_rateio_rendimento current_year accounts conta mes ano_ rendimento dados
      = Ok resultados
    ∧ Forall (λ m, 0 <= rendimento_capital m ∧ 0 <= rendimento_custeio m
                   ∧ rendimento_capital m + rendimento_custeio m <= rendimento)
        resultados.
Proof.
  intros Hc Hnd HR.
  rewrite (calcular_rateio_rendimento_NoDup _ _ _ _ _ c) by done.
  eexists. split; [done|]. apply Forall_forall. intros m Hm.
  apply list_elem_of_In, in_map_iff in Hm as (pv & <- & Hpv).
  apply list_elem_of_In in Hpv.
  set (t := total_final current_year c mes ano_ dados 0).
  set (b := base_de current_year c mes ano_ pv).
  assert (Hle : soma_bases b <= t).
  { unfold t. rewrite total_final_soma.
    pose proof (soma_membro (λ pv, soma_bases (base_de current_year c mes ano_ pv))
                  dados pv (soma_bases_nonneg current_year mes ano_ c) Hpv) as H.
    simpl in H. fold b in H. lra. }
  assert (Hc0 : 0 <= base_Capital b) by apply pymax0_nonneg.
  assert (Hu0 : 0 <= base_Custeio b) by apply pymax0_nonneg.
  unfold soma_bases in Hle.
  rewrite rendimento_capital_registro, rendimento_custeio_registro.
  destruct (share_bounds rendimento (base_Capital b) t) as [H1 _]; [done|done|lra|].
  destruct (share_bounds rendimento (base_Custeio b) t) as [H2 _]; [done|done|lra|].
  split; [done|]. split; [done|].
  destruct (share_bounds rendimento (base_Capital b + base_Custeio b) t)
    as [_ H3]; [done|lra|done|].
  revert H3. unfold fator. destruct (Qgt_bool t 0) eqn:E; intros H3.
  - apply Qgt_bool_true in E.
    assert (Hne : ¬ t == 0) by (intros Hz; rewrite Hz in E; by apply Qlt_irrefl in E).
    assert (Heq : rendimento * (base_Capital b / t) + rendimento * (base_Custeio b / t)
                  == rendimento * ((base_Capital b + base_Custeio b) / t)).
    { by field. }
    rewrite Heq. exact H3.
  - lra.
Qed.

Lemma X17_witness :
  ({[ "A" := conta_A0 ]} : gmap string Conta) !! "A" = Some conta_A0 ∧
  NoDup entradas_jan.*1 ∧ 0 <= 10 ∧
  ∃ resultados,
    calcular_rateio_rendimento 2024 {[ "A" := conta_A0 ]} "A" 1 2024 10 entradas_jan
      = Ok resultados
    ∧ Forall (λ m, 0 <= rendimento_capital m ∧ 0 <= rendimento_custeio m
                   ∧ rendimento_capital m + rendimento_custeio m <= 10)
        resultados.
Proof.
  assert (Hnd : NoDup entradas_jan.*1).
  { apply (bool_decide_unpack _). vm_compute. exact I. }
  assert (H10 : 0 <= 10) by (vm_compute; discriminate).
  split; [reflexivity|]. split; [exact Hnd|]. split; [exact H10|].
  apply (X17_yield_shares_bounded 2024 {[ "A" := conta_A0 ]} "A" conta_A0 1 2024 10
           entradas_jan); [reflexivity | exact Hnd | exact H10].
Defined.

(** ** Total against the two categories *)

(** X18. When the derived totals of every movement of the account
    agree with its base fields, the Total balance of a program at any
    target is the sum of its Capital balance and its Operating balance. *)
Theorem X18_total_is_capital_plus_custeio
    (current_year : Z) (accounts : gmap string Conta) (a : string) (c : Conta)
    (prog : string) (mes ano_ : Z) :
  accounts !! a = Some c →
  Forall totais_consistentes (movs_de c) →
  ∃ bt bc bu,
    get_saldo_anterior current_year accounts a prog Total mes ano_ = Ok bt
    ∧ get_saldo_anterior current_year accounts a prog Capital mes ano_ = Ok bc
    ∧ get_saldo_anterior current_year accounts a prog Custeio mes ano_ = Ok bu
    ∧ bt == bc + bu.
Proof.
  intros Hc Hcons. do 3 eexists.
  split; [by apply get_saldo_anterior_found|].
  split; [by apply get_saldo_anterior_found|].
  split; [by apply get_saldo_anterior_found|].
  rewrite !saldo_conta_priorBalance. unfold priorBalance.
  assert (Hs : saldo_inicial (saldos_de c) prog Total
               == saldo_inicial (saldos_de c) prog Capital
                  + saldo_inicial (saldos_de c) prog Custeio).
  { unfold saldo_inicial. destruct (saldos_de c !! prog); ring. }
  rewrite Hs. clear Hs.
  induction Hcons as [|m l Hm _ IH]; simpl; [ring|].
  destruct (anteriores current_year prog mes ano_ m); simpl; [|exact IH].
  destruct Hm as (H1 & H2 & H3). rewrite H1, H2, H3.
  simpl in IH. lra.
Qed.

Lemma X18_witness :
  ({[ "A" := conta_A ]} : gmap string Conta) !! "A" = Some conta_A ∧
  Forall totais_consistentes (movs_de conta_A) ∧
  ∃ bt bc bu,
    get_saldo_anterior 2024 {[ "A" := conta_A ]} "A" "P1" Total 2 2024 = Ok bt
    ∧ get_saldo_anterior 2024 {[ "A" := conta_A ]} "A" "P1" Capital 2 2024 = Ok bc
    ∧ get_saldo_anterior 2024 {[ "A" := conta_A ]} "A" "P1" Custeio 2 2024 = Ok bu
    ∧ bt == bc + bu.
Proof.
  assert (H : Forall totais_consistentes (movs_de conta_A)).
  { repeat constructor. }
  split; [reflexivity|]. split; [exact H|].
  apply (X18_total_is_capital_plus_custeio 2024 {[ "A" := conta_A ]} "A" conta_A
           "P1" 2 2024); [reflexivity | exact H].
Defined.

(** ** The monthly statement *)

Lemma meses_definido (k : Z) : is_Some (meses !! k) ↔ (1 ≤ k ≤ 12)%Z.
Proof.
  split.
  - intros [s Hs]. unfold meses in Hs.
    repeat (apply lookup_insert_Some in Hs as [[<- _]|[_ Hs]]; [lia|]).
    apply lookup_singleton_Some in Hs as [<- _]. lia.
  - intros Hk.
    assert (Hcases : (k = 1 ∨ k = 2 ∨ k = 3 ∨ k = 4 ∨ k = 5 ∨ k = 6 ∨ k = 7
                      ∨ k = 8 ∨ k = 9 ∨ k = 10 ∨ k = 11 ∨ k = 12)%Z) by lia.
    repeat (destruct Hcases as [->|Hcases]; [by eexists|]).
    subst k. by eexists.
Qed.

Lemma soma_insere_por_mes (f : Mov → Q) (m : Mov) (l : list Mov) :
  soma (map f (insere_por_mes m l)) == f m + soma (map f l).
Proof.
  induction l as [|x l IH]; simpl; [reflexivity|].
  destruct (mes_num m <=? mes_num x)%Z; simpl; [reflexivity|]. rewrite IH. ring.
Qed.

Lemma soma_ordenar_por_mes (f : Mov → Q) (l : list Mov) :
  soma (map f (ordenar_por_mes l)) == soma (map f l).
Proof.
  induction l as [|x l IH]; simpl; [reflexivity|].
  by rewrite soma_insere_por_mes, IH.
Qed.

Lemma insere_por_mes_Permutation (m : Mov) (l : list Mov) :
  insere_por_mes m l ≡ₚ m :: l.
Proof.
  induction l as [|x l IH]; simpl; [done|].
  destruct (mes_num m <=? mes_num x)%Z; [done|]. rewrite IH. apply Permutation_swap.
Qed.

Lemma ordenar_por_mes_Permutation (l : list Mov) : ordenar_por_mes l ≡ₚ l.
Proof.
  induction l as [|x l IH]; simpl; [done|].
  by rewrite insere_por_mes_Permutation, IH.
Qed.

Lemma insere_por_mes_Sorted (m : Mov) (l : list Mov) :
  StronglySorted (λ a b, (mes_num a ≤ mes_num b)%Z) l →
  StronglySorted (λ a b, (mes_num a ≤ mes_num b)%Z) (insere_por_mes m l).
Proof.
  induction 1 as [|x l Hs IH Hx]; simpl; [repeat constructor|].
  destruct (Z.leb_spec (mes_num m) (mes_num x)) as [Hle|Hgt].
  - constructor; [by constructor|]. constructor; [done|].
    eapply Forall_impl; [exact Hx|]. intros y Hy. simpl in Hy. lia.
  - constructor; [done|]. rewrite insere_por_mes_Permutation.
    constructor; [lia|done].
Qed.

Lemma ordenar_por_mes_Sorted (l : list Mov) :
  StronglySorted (λ a b, (mes_num a ≤ mes_num b)%Z) (ordenar_por_mes l).
Proof.
  induction l as [|x l IH]; simpl; [constructor|]. by apply insere_por_mes_Sorted.
Qed.

Lemma last_default {A} (y d1 d2 : A) (l : list A) :
  List.last (y :: l) d1 = List.last (y :: l) d2.
Proof.
  revert y. induction l as [|z l IH]; intros y; [done|].
  change (List.last (z :: l) d1 = List.last (z :: l) d2). apply IH.
Qed.

Lemma last_cons_default {A} (x d : A) (l : list A) :
  List.last (x :: l) d = List.last l x.
Proof.
  destruct l as [|y l]; [done|].
  change (List.last (y :: l) d = List.last (y :: l) x). apply last_default.
Qed.

(** With every month among the twelve names the loop returns one row per
    movement, copying its totals and carrying the running balances. *)
Lemma laco_extrato_ok (p : string) (movs : list Mov) (cap cus : Q)
    (acc : list LinhaExtrato) :
  Forall (λ m, is_Some (meses !! mes_num m)) movs →
  ∃ linhas,
    laco_extrato p movs cap cus acc = Ok (acc ++ linhas)
    ∧ map le_credito linhas = map total_credito movs
    ∧ map le_rend_cap linhas = map rendimento_capital movs
    ∧ map le_rend_cust linhas = map rendimento_custeio movs
    ∧ map le_rend_total linhas = map total_rendimento movs
    ∧ map le_debito linhas = map total_debito movs
    ∧ Forall2 (λ m l, le_programa l = p ∧ meses !! mes_num m = Some (le_mes l)
                       ∧ le_s_total l = le_s_capital l + le_s_custeio l)
        movs linhas
    ∧ List.last (map le_s_capital linhas) cap
      == cap + soma (map (liquido Capital) movs)
    ∧ List.last (map le_s_custeio linhas) cus
      == cus + soma (map (liquido Custeio) movs).
Proof.
  intros Hm. revert cap cus acc.
  induction Hm as [|m movs [nome Hnome] _ IH]; intros cap cus acc.
  - exists []. simpl. rewrite app_nil_r. repeat split; try done; try constructor; ring.
  - simpl. rewrite Hnome. simpl.
    destruct (IH (cap + (credito_capital m + rendimento_capital m - debito_capital m))
                 (cus + (credito_custeio m + rendimento_custeio m - debito_custeio m))
                 (acc ++ [ {| le_programa := p; le_mes := nome;
                              le_credito := total_credito m;
                              le_rend_cap := rendimento_capital m;
                              le_rend_cust := rendimento_custeio m;
                              le_rend_total := total_rendimento m;
                              le_debito := total_debito m;
                              le_s_custeio :=
                                cus + (credito_custeio m + rendimento_custeio m
                                       - debito_custeio m);
                              le_s_capital :=
                                cap + (credito_capital m + rendimento_capital m
                                       - debito_capital m);
                              le_s_total :=
                                cap + (credito_capital m + rendimento_capital m
                                       - debito_capital m)
                                + (cus + (credito_custeio m + rendimento_custeio m
                                          - debito_custeio m)) |} ]))
      as (linhas & Hl & H1 & H2 & H3 & H4 & H5 & H6 & H7 & H8).
    eexists (_ :: linhas). rewrite Hl, <- app_assoc.
    split; [reflexivity|]. rewrite !map_cons, H1, H2, H3, H4, H5.
    do 5 (split; [reflexivity|]).
    split; [constructor; [done|exact H6]|].
    rewrite !last_cons_default. cbn [le_s_capital le_s_custeio].
    rewrite H7, H8. split; ring.
Qed.

Lemma laco_extrato_erro (p : string) (movs : list Mov) (cap cus : Q)
    (acc : list LinhaExtrato) :
  Exists (λ m, meses !! mes_num m = None) movs →
  ∃ k, laco_extrato p movs cap cus acc = Raise (KeyError k).
Proof.
  intros Hm. revert cap cus acc.
  induction movs as [|m movs IH]; intros cap cus acc.
  - by apply Exists_nil in Hm.
  - simpl. destruct (meses !! mes_num m) as [nome|] eqn:E; simpl.
    + apply Exists_cons in Hm as [Hm|Hm]; [congruence|]. by apply IH.
    + by eexists.
Qed.

Lemma anteriores_virada_padrao current_year prog Y m :
  (1 ≤ mes_num m)%Z →
  if do_ano_padrao current_year prog Y m
  then anteriores current_year prog 1 Y m = false
       ∧ anteriores current_year prog 1 (Y + 1) m = true
  else anteriores current_year prog 1 (Y + 1) m = anteriores current_year prog 1 Y m.
Proof.
  intros Hmes. unfold do_ano_padrao, anteriores, antes.
  destruct (String.eqb_spec (programa m) prog) as [Hp|Hp]; simpl.
  - destruct (Z.eqb_spec (mov_ano_de current_year m) Y) as [Hy|Hne].
    + split.
      * apply bool_decide_eq_false. intros [_ H]. lia.
      * apply bool_decide_eq_true. split; [done|lia].
    + apply bool_decide_ext. split; intros [H1 H2]; (split; [done|lia]).
  - apply bool_decide_ext. tauto.
Qed.

Lemma saldo_conta_virada_padrao current_year (c : Conta) prog tipo Y :
  Forall (λ m, (1 ≤ mes_num m ≤ 12)%Z) (movs_de c) →
  saldo_conta current_year c prog tipo 1 (Y + 1)
  == saldo_conta current_year c prog tipo 1 Y
     + soma (map (liquido tipo)
               (List.filter (do_ano_padrao current_year prog Y) (movs_de c))).
Proof.
  intros Hwf. rewrite !saldo_conta_priorBalance. unfold priorBalance.
  assert (Hs : soma (map (liquido tipo)
                  (List.filter (anteriores current_year prog 1 (Y + 1)) (movs_de c)))
               == soma (map (liquido tipo)
                    (List.filter (anteriores current_year prog 1 Y) (movs_de c)))
                  + soma (map (liquido tipo)
                      (List.filter (do_ano_padrao current_year prog Y) (movs_de c))));
    [|rewrite Hs; ring].
  induction Hwf as [|m l [Hlo _] _ IH]; simpl; [ring|].
  pose proof (anteriores_virada_padrao current_year prog Y m Hlo) as Hv.
  destruct (do_ano_padrao current_year prog Y m).
  - destruct Hv as [-> ->]. simpl. rewrite IH. ring.
  - rewrite Hv. destruct (anteriores current_year prog 1 Y m); simpl; rewrite IH; ring.
Qed.

Lemma Forall_ordenar_por_mes (P : Mov → Prop) (l : list Mov) :
  Forall P l → Forall P (ordenar_por_mes l).
Proof. intros H. by rewrite ordenar_por_mes_Permutation. Qed.

Lemma ordenar_por_mes_length (l : list Mov) :
  length (ordenar_por_mes l) = length l.
Proof. by rewrite ordenar_por_mes_Permutation. Qed.

(** The rows of one program, when its movements of the year all have a
    month among the twelve. *)
Lemma extrato_programa_ok current_year accounts conta c Y movs p :
  accounts !! conta = Some c →
  Forall (λ m, (1 ≤ mes_num m ≤ 12)%Z)
    (List.filter (do_ano_padrao current_year p Y) movs) →
  (List.filter (do_ano_padrao current_year p Y) movs = [] →
   extrato_programa current_year accounts conta Y movs p = Ok [])
  ∧ (List.filter (do_ano_padrao current_year p Y) movs ≠ [] →
     ∃ linhas,
       extrato_programa current_year accounts conta Y movs p
       = Ok (linhas ++ [linha_total_extrato linhas])
       ∧ length linhas
         = length (List.filter (do_ano_padrao current_year p Y) movs)
       ∧ Forall (λ l, le_programa l = p
                      ∧ le_s_total l = le_s_capital l + le_s_custeio l) linhas
       ∧ le_credito (linha_total_extrato linhas)
         == soma (map total_credito
                    (List.filter (do_ano_padrao current_year p Y) movs))
       ∧ le_rend_total (linha_total_extrato linhas)
         == soma (map total_rendimento
                    (List.filter (do_ano_padrao current_year p Y) movs))
       ∧ le_debito (linha_total_extrato linhas)
         == soma (map total_debito
                    (List.filter (do_ano_padrao current_year p Y) movs))
       ∧ le_s_capital (linha_total_extrato linhas)
         == saldo_conta current_year c p Capital 1 Y
            + soma (map (liquido Capital)
                      (List.filter (do_ano_padrao current_year p Y) movs))
       ∧ le_s_custeio (linha_total_extrato linhas)
         == saldo_conta current_year c p Custeio 1 Y
            + soma (map (liquido Custeio)
                      (List.filter (do_ano_padrao current_year p Y) movs))
       ∧ le_s_total (linha_total_extrato linhas)
         = le_s_capital (linha_total_extrato linhas)
           + le_s_custeio (linha_total_extrato linhas)).
Proof.
  intros Hc Hm. unfold extrato_programa.
  rewrite !(get_saldo_anterior_found _ _ _ c) by done. simpl.
  set (ms := List.filter (do_ano_padrao current_year p Y) movs) in *.
  split.
  - intros ->. done.
  - intros Hne.
    assert (Hms : Forall (λ m, is_Some (meses !! mes_num m)) (ordenar_por_mes ms)).
    { apply Forall_ordenar_por_mes. eapply Forall_impl; [exact Hm|].
      intros m Hk. by apply meses_definido. }
    destruct (laco_extrato_ok p (ordenar_por_mes ms)
                (saldo_conta current_year c p Capital 1 Y)
                (saldo_conta current_year c p Custeio 1 Y) [] Hms)
      as (linhas & Hl & H1 & H2 & H3 & H4 & H5 & H6 & H7 & H8).
    rewrite Hl. simpl.
    assert (Hlen : length linhas = length ms).
    { apply Forall2_length in H6. by rewrite <- H6, ordenar_por_mes_length. }
    destruct linhas as [|l0 linhas].
    { destruct ms; [done|discriminate Hlen]. }
    exists (l0 :: linhas). split; [done|]. split; [exact Hlen|].
    assert (Hrows : Forall (λ l, le_programa l = p
                                 ∧ le_s_total l = le_s_capital l + le_s_custeio l)
                      (l0 :: linhas)).
    { clear -H6. induction H6 as [|m l ms' ls (Ha & _ & Hb) _ IH]; constructor; done. }
    split; [exact Hrows|].
    unfold linha_total_extrato.
    cbn [le_credito le_rend_total le_debito le_s_capital le_s_custeio le_s_total].
    rewrite !pysum_soma, H1, H4, H5, !soma_ordenar_por_mes.
    do 3 (split; [reflexivity|]).
    rewrite !map_cons in *.
    split.
    { rewrite (last_default (le_s_capital l0) 0
                 (saldo_conta current_year c p Capital 1 Y)).
      rewrite H7. by rewrite soma_ordenar_por_mes. }
    split.
    { rewrite (last_default (le_s_custeio l0) 0
                 (saldo_conta current_year c p Custeio 1 Y)).
      rewrite H8. by rewrite soma_ordenar_por_mes. }
    clear -Hrows. revert l0 Hrows.
    induction linhas as [|l1 linhas IH]; intros l0 Hrows.
    + apply Forall_cons in Hrows as [[_ H] _]. exact H.
    + apply Forall_cons in Hrows as [_ Hrows]. apply (IH l1 Hrows).
Qed.

Lemma extrato_programa_erro current_year accounts conta c Y movs p :
  accounts !! conta = Some c →
  Exists (λ m, ¬ (1 ≤ mes_num m ≤ 12)%Z)
    (List.filter (do_ano_padrao current_year p Y) movs) →
  ∃ k, extrato_programa current_year accounts conta Y movs p = Raise (KeyError k).
Proof.
  intros Hc Hm. unfold extrato_programa.
  rewrite !(get_saldo_anterior_found _ _ _ c) by done. simpl.
  destruct (laco_extrato_erro p
              (ordenar_por_mes (List.filter (do_ano_padrao current_year p Y) movs))
              (saldo_conta current_year c p Capital 1 Y)
              (saldo_conta current_year c p Custeio 1 Y) []) as [k Hk].
  - rewrite ordenar_por_mes_Permutation.
    eapply Exists_impl; [exact Hm|]. intros m Hmes. simpl in Hmes.
    destruct (meses !! mes_num m) eqn:E; [|done].
    exfalso. apply Hmes, meses_definido. by eexists.
  - exists k. by rewrite Hk.
Qed.

(** The statement of a single program is the body of the loop. *)
Lemma extrato_mensal_um current_year accounts conta c Y p :
  accounts !! conta = Some c →
  extrato_mensal current_year accounts conta Y [p]
  = extrato_programa current_year accounts conta Y (movs_de c) p.
Proof.
  intros Hc. unfold extrato_mensal, dict_index. rewrite Hc. simpl.
  unfold movs_de.
  by destruct (extrato_programa current_year accounts conta Y
                 (default [] (movimentacoes c)) p).
Qed.

(** X19. The monthly statement of a program and year can be produced
    exactly when every movement of that program in that year has a month
    from 1 to 12: then it returns its rows, and otherwise it fails with a
    [KeyError] on the month name. The balance query and the annual
    summary answer for the same ledger in both cases. *)
Theorem X19_extrato_needs_known_months
    (current_year : Z) (accounts : gmap string Conta) (conta : string) (c : Conta)
    (Y : Z) (p : string) :
  accounts !! conta = Some c →
  ((∃ linhas, extrato_mensal current_year accounts conta Y [p] = Ok linhas)
   ↔ Forall (λ m, (1 ≤ mes_num m ≤ 12)%Z)
       (List.filter (do_ano_padrao current_year p Y) (movs_de c)))
  ∧ ((∃ k, extrato_mensal current_year accounts conta Y [p] = Raise (KeyError k))
     ↔ Exists (λ m, ¬ (1 ≤ mes_num m ≤ 12)%Z)
         (List.filter (do_ano_padrao current_year p Y) (movs_de c)))
  ∧ (∃ linhas, resumo_anual current_year accounts conta Y [p] = Ok linhas)
  ∧ (∀ tipo mes, ∃ b,
       get_saldo_anterior current_year accounts conta p tipo mes Y = Ok b).
Proof.
  intros Hc.
  set (ms := List.filter (do_ano_padrao current_year p Y) (movs_de c)).
  pose proof (extrato_mensal_um current_year accounts conta c Y p Hc) as Heq.
  assert (Hdec : Forall (λ m, (1 ≤ mes_num m ≤ 12)%Z) ms
                 ∨ Exists (λ m, ¬ (1 ≤ mes_num m ≤ 12)%Z) ms).
  { destruct (decide (Forall (λ m, (1 ≤ mes_num m ≤ 12)%Z) ms)) as [H|H];
      [by left|right]. by apply not_Forall_Exists in H; [|apply _]. }
  assert (Hok : Forall (λ m, (1 ≤ mes_num m ≤ 12)%Z) ms →
                ∃ linhas, extrato_mensal current_year accounts conta Y [p] = Ok linhas).
  { intros Hm. rewrite Heq.
    destruct (extrato_programa_ok current_year accounts conta c Y (movs_de c) p Hc Hm)
      as [H0 H1].
    destruct (decide (ms = [])) as [He|Hne].
    - rewrite (H0 He). by eexists.
    - destruct (H1 Hne) as (linhas & -> & _). by eexists. }
  assert (Herr : Exists (λ m, ¬ (1 ≤ mes_num m ≤ 12)%Z) ms →
                 ∃ k, extrato_mensal current_year accounts conta Y [p]
                      = Raise (KeyError k)).
  { intros Hm. rewrite Heq.
    by apply (extrato_programa_erro current_year accounts conta c Y (movs_de c) p). }
  split; [|split; [|split]].
  - split; [|exact Hok]. intros [linhas Hl].
    destruct Hdec as [H|H]; [done|]. destruct (Herr H) as [k Hk]. congruence.
  - split; [|exact Herr]. intros [k Hk].
    destruct Hdec as [H|H]; [|done]. destruct (Hok H) as [linhas Hl]. congruence.
  - unfold resumo_anual, dict_index. rewrite Hc. simpl.
    destruct (laco_resumo_found current_year accounts conta c Y (movs_de c) [p] [] Hc)
      as (linhas & Hl & _).
    exists linhas. exact Hl.
  - intros tipo mes. eexists. by apply get_saldo_anterior_found.
Qed.

Lemma X19_witness :
  ({[ "A" := conta_A ]} : gmap string Conta) !! "A" = Some conta_A ∧
  ∃ linhas, extrato_mensal 2024 {[ "A" := conta_A ]} "A" 2024 ["P1"] = Ok linhas.
Proof.
  split; [reflexivity|].
  destruct (X19_extrato_needs_known_months 2024 {[ "A" := conta_A ]} "A" conta_A
              2024 "P1") as [[_ H] _]; [reflexivity|].
  apply H. unfold conta_A, movs_de. simpl.
  repeat (constructor; [simpl; lia|]). constructor.
Defined.

(** A movement of month 13 is accepted by the balance query and breaks the
    statement of its year. *)
Example extrato_mes_13 :
  extrato_mensal 2024
    {[ "A" := set_movimentacoes conta_A0
                [ {| programa := "P1"; mes_num := 13; ano := Some 2024%Z;
                     credito_capital := 1; credito_custeio := 0;
                     debito_capital := 0; debito_custeio := 0;
                     rendimento_capital := 0; rendimento_custeio := 0;
                     total_credito := 1; total_debito := 0;
                     total_rendimento := 0 |} ] ]} "A" 2024 ["P1"]
  = Raise (KeyError "13").
Proof. vm_compute. reflexivity. Qed.

Lemma Forall_filter_bool {A} (P : A → Prop) (f : A → bool) (l : list A) :
  Forall P l → Forall P (List.filter f l).
Proof.
  induction 1 as [|x l Hx _ IH]; simpl; [constructor|].
  destruct (f x); [by constructor|done].
Qed.

(** X20. When every movement of the account has a month from 1 to 12,
    the statement of a program with no movement in the year is empty, and
    otherwise it has one row per movement of the year followed by the
    TOTAL row; the TOTAL row carries the sums of the credit, yield and
    debit columns, and its balances are the balances before January of the
    following year: capital, operating, and their sum. *)
Theorem X20_extrato_closes_on_next_january
    (current_year : Z) (accounts : gmap string Conta) (conta : string) (c : Conta)
    (Y : Z) (p : string) :
  accounts !! conta = Some c →
  Forall (λ m, (1 ≤ mes_num m ≤ 12)%Z) (movs_de c) →
  (List.filter (do_ano_padrao current_year p Y) (movs_de c) = [] →
   extrato_mensal current_year accounts conta Y [p] = Ok [])
  ∧ (List.filter (do_ano_padrao current_year p Y) (movs_de c) ≠ [] →
     ∃ linhas bC bU,
       extrato_mensal current_year accounts conta Y [p]
       = Ok (linhas ++ [linha_total_extrato linhas])
       ∧ length linhas
         = length (List.filter (do_ano_padrao current_year p Y) (movs_de c))
       ∧ le_credito (linha_total_extrato linhas)
         == soma (map total_credito
                    (List.filter (do_ano_padrao current_year p Y) (movs_de c)))
       ∧ le_rend_total (linha_total_extrato linhas)
         == soma (map total_rendimento
                    (List.filter (do_ano_padrao current_year p Y) (movs_de c)))
       ∧ le_debito (linha_total_extrato linhas)
         == soma (map total_debito
                    (List.filter (do_ano_padrao current_year p Y) (movs_de c)))
       ∧ get_saldo_anterior current_year accounts conta p Capital 1 (Y + 1) = Ok bC
       ∧ get_saldo_anterior current_year accounts conta p Custeio 1 (Y + 1) = Ok bU
       ∧ le_s_capital (linha_total_extrato linhas) == bC
       ∧ le_s_custeio (linha_total_extrato linhas) == bU
       ∧ le_s_total (linha_total_extrato linhas) == bC + bU).
Proof.
  intros Hc Hwf.
  rewrite (extrato_mensal_um current_year accounts conta c Y p Hc).
  destruct (extrato_programa_ok current_year accounts conta c Y (movs_de c) p Hc
              (Forall_filter_bool _ _ _ Hwf)) as [H0 H1].
  split; [exact H0|]. intros Hne.
  destruct (H1 Hne) as (linhas & Hl & Hlen & _ & Hcr & Hre & Hde & Hca & Hcu & Hto).
  exists linhas. do 2 eexists.
  split; [exact Hl|]. split; [exact Hlen|].
  split; [exact Hcr|]. split; [exact Hre|]. split; [exact Hde|].
  split; [by apply get_saldo_anterior_found|].
  split; [by apply get_saldo_anterior_found|].
  pose proof (saldo_conta_virada_padrao current_year c p Capital Y Hwf) as HvC.
  pose proof (saldo_conta_virada_padrao current_year c p Custeio Y Hwf) as HvU.
  assert (HC : le_s_capital (linha_total_extrato linhas)
               == saldo_conta current_year c p Capital 1 (Y + 1)).
  { by rewrite Hca, HvC. }
  assert (HU : le_s_custeio (linha_total_extrato linhas)
               == saldo_conta current_year c p Custeio 1 (Y + 1)).
  { by rewrite Hcu, HvU. }
  split; [exact HC|]. split; [exact HU|].
  rewrite Hto, HC, HU. reflexivity.
Qed.

Lemma X20_witness :
  ({[ "A" := conta_A ]} : gmap string Conta) !! "A" = Some conta_A ∧
  Forall (λ m, (1 ≤ mes_num m ≤ 12)%Z) (movs_de conta_A) ∧
  List.filter (do_ano_padrao 2024 "P1" 2024) (movs_de conta_A) ≠ [] ∧
  ∃ linhas bC bU,
    extrato_mensal 2024 {[ "A" := conta_A ]} "A" 2024 ["P1"]
    = Ok (linhas ++ [linha_total_extrato linhas])
    ∧ get_saldo_anterior 2024 {[ "A" := conta_A ]} "A" "P1" Capital 1 (2024 + 1)
      = Ok bC
    ∧ get_saldo_anterior 2024 {[ "A" := conta_A ]} "A" "P1" Custeio 1 (2024 + 1)
      = Ok bU
    ∧ le_s_total (linha_total_extrato linhas) == bC + bU.
Proof.
  assert (Hwf : Forall (λ m, (1 ≤ mes_num m ≤ 12)%Z) (movs_de conta_A)).
  { unfold conta_A, movs_de. simpl.
    repeat (constructor; [simpl; lia|]). constructor. }
  assert (Hne : List.filter (do_ano_padrao 2024 "P1" 2024) (movs_de conta_A) ≠ []).
  { vm_compute. discriminate. }
  split; [reflexivity|]. split; [exact Hwf|]. split; [exact Hne|].
  destruct (X20_extrato_closes_on_next_january 2024 {[ "A" := conta_A ]} "A" conta_A
              2024 "P1") as [_ H]; [reflexivity | exact Hwf |].
  destruct (H Hne) as (linhas & bC & bU & H1 & _ & _ & _ & _ & H2 & H3 & _ & _ & H4).
  by exists linhas, bC, bU.
Defined.

Example extrato_janeiro :
  (λ r, match r with
        | Ok l => map (λ x, (le_programa x, le_mes x, le_credito x, le_s_capital x)) l
        | Raise _ => []
        end)
    (extrato_mensal 2024 {[ "A" := conta_A ]} "A" 2024 ["P1"; "P2"])
  = [ ("P1", "Janeiro", 0, 0 + 100 + (0 + 5 - 0));
      ("TOTAL", "---", 0 + 0, 0 + 100 + (0 + 5 - 0));
      ("P2", "Janeiro", 100, 0 + 0 + (100 + 5 - 0));
      ("TOTAL", "---", 0 + 100, 0 + 0 + (100 + 5 - 0)) ].
Proof. vm_compute. reflexivity. Qed.

(** ** Statement against summary *)

Lemma soma_liquido_consistente (l : list Mov) :
  Forall totais_consistentes l →
  soma (map (liquido Total) l)
  == soma (map (liquido Capital) l) + soma (map (liquido Custeio) l).
Proof.
  induction 1 as [|m l (H1 & H2 & H3) _ IH]; simpl; [ring|].
  rewrite H1, H2, H3, IH. ring.
Qed.

Lemma saldo_conta_total_soma current_year (c : Conta) prog mes ano_ :
  Forall totais_consistentes (movs_de c) →
  saldo_conta current_year c prog Total mes ano_
  == saldo_conta current_year c prog Capital mes ano_
     + saldo_conta current_year c prog Custeio mes ano_.
Proof.
  intros Hcons. rewrite !saldo_conta_priorBalance. unfold priorBalance.
  rewrite (soma_liquido_consistente _ (Forall_filter_bool _ _ _ Hcons)).
  unfold saldo_inicial. destruct (saldos_de c !! prog); ring.
Qed.

Lemma do_ano_padrao_com_ano current_year prog Y (l : list Mov) :
  Forall (λ m, is_Some (ano m)) l →
  List.filter (do_ano_padrao current_year prog Y) l = List.filter (do_ano prog Y) l.
Proof.
  induction 1 as [|m l [y Hy] _ IH]; simpl; [done|].
  rewrite IH. unfold do_ano_padrao, do_ano, mov_ano_de. by rewrite Hy.
Qed.

(** X21. On a ledger whose movements all carry a year, a month from 1
    to 12 and derived totals that agree with their base fields, the
    monthly statement and the annual summary of a program that moved in
    the year tell the same story: the TOTAL row of the statement and the
    row of the summary have the same credits, yields and debits, and the
    same closing balance. *)
Theorem X21_extrato_agrees_with_resumo
    (current_year : Z) (accounts : gmap string Conta) (conta : string) (c : Conta)
    (Y : Z) (p : string) :
  accounts !! conta = Some c →
  Forall (λ m, is_Some (ano m) ∧ (1 ≤ mes_num m ≤ 12)%Z ∧ totais_consistentes m)
    (movs_de c) →
  List.filter (do_ano p Y) (movs_de c) ≠ [] →
  ∃ linhas linha,
    extrato_mensal current_year accounts conta Y [p]
    = Ok (linhas ++ [linha_total_extrato linhas])
    ∧ resumo_anual current_year accounts conta Y [p] = Ok [linha]
    ∧ le_credito (linha_total_extrato linhas) == lr_credito linha
    ∧ le_rend_total (linha_total_extrato linhas) == lr_rendimento linha
    ∧ le_debito (linha_total_extrato linhas) == lr_debito linha
    ∧ le_s_total (linha_total_extrato linhas) == lr_saldo_final linha.
Proof.
  intros Hc Hwf Hne.
  assert (Hano : Forall (λ m, is_Some (ano m)) (movs_de c)).
  { eapply Forall_impl; [exact Hwf|]. by intros m (H & _ & _). }
  assert (Hmes : Forall (λ m, (1 ≤ mes_num m ≤ 12)%Z) (movs_de c)).
  { eapply Forall_impl; [exact Hwf|]. by intros m (_ & H & _). }
  assert (Hcons : Forall totais_consistentes (movs_de c)).
  { eapply Forall_impl; [exact Hwf|]. by intros m (_ & _ & H). }
  pose proof (do_ano_padrao_com_ano current_year p Y (movs_de c) Hano) as Hf.
  rewrite (extrato_mensal_um current_year accounts conta c Y p Hc).
  destruct (extrato_programa_ok current_year accounts conta c Y (movs_de c) p Hc
              (Forall_filter_bool _ _ _ Hmes)) as [_ H1].
  rewrite Hf in H1.
  destruct (H1 Hne) as (linhas & Hl & _ & _ & Hcr & Hre & Hde & Hca & Hcu & Hto).
  exists linhas. eexists. split; [exact Hl|].
  split.
  { unfold resumo_anual, dict_index. rewrite Hc. simpl. unfold resumo_programa.
    rewrite (get_saldo_anterior_found _ _ _ c) by done. simpl. reflexivity. }
  cbn [lr_credito lr_rendimento lr_debito lr_saldo_final].
  fold (movs_de c). rewrite !pysum_soma.
  split; [exact Hcr|]. split; [exact Hre|]. split; [exact Hde|].
  rewrite Hto, Hca, Hcu.
  rewrite (saldo_conta_total_soma current_year c p 1 Y Hcons).
  pose proof (soma_liquido_consistente _
                (Forall_filter_bool _ (do_ano p Y) _ Hcons)) as Hs.
  rewrite soma_liquido_total in Hs. lra.
Qed.

Lemma X21_witness :
  ({[ "A" := conta_A ]} : gmap string Conta) !! "A" = Some conta_A ∧
  List.filter (do_ano "P2" 2024) (movs_de conta_A) ≠ [] ∧
  ∃ linhas linha,
    extrato_mensal 2024 {[ "A" := conta_A ]} "A" 2024 ["P2"]
    = Ok (linhas ++ [linha_total_extrato linhas])
    ∧ resumo_anual 2024 {[ "A" := conta_A ]} "A" 2024 ["P2"] = Ok [linha]
    ∧ le_s_total (linha_total_extrato linhas) == lr_saldo_final linha.
Proof.
  assert (Hwf : Forall (λ m, is_Some (ano m) ∧ (1 ≤ mes_num m ≤ 12)%Z
                             ∧ totais_consistentes m) (movs_de conta_A)).
  { unfold conta_A, movs_de. simpl.
    repeat (constructor; [split; [by eexists|split; [simpl; lia|by repeat split]]|]).
    constructor. }
  assert (Hne : List.filter (do_ano "P2" 2024) (movs_de conta_A) ≠ []).
  { vm_compute. discriminate. }
  split; [reflexivity|]. split; [exact Hne|].
  destruct (X21_extrato_agrees_with_resumo 2024 {[ "A" := conta_A ]} "A" conta_A
              2024 "P2") as (linhas & linha & H1 & H2 & _ & _ & _ & H3);
    [reflexivity | exact Hwf | exact Hne |].
  by exists linhas, linha.
Defined.

(** ** The total row of the summary *)

Lemma resumo_programa_linha current_year accounts conta c Y movs prog linha :
  accounts !! conta = Some c →
  resumo_programa current_year accounts conta Y movs prog = Ok linha →
  lr_programa linha = prog
  ∧ lr_saldo_final linha
    = lr_saldo_anterior linha + lr_credito linha + lr_rendimento linha
      - lr_debito linha.
Proof.
  intros Hc. unfold resumo_programa.
  rewrite (get_saldo_anterior_found _ _ _ c) by done. simpl.
  intros [= <-]. done.
Qed.

Lemma soma_linhas_resumo (linhas : list LinhaResumo) :
  Forall (λ l, lr_saldo_final l
               = lr_saldo_anterior l + lr_credito l + lr_rendimento l - lr_debito l)
    linhas →
  soma (map lr_saldo_final linhas)
  == soma (map lr_saldo_anterior linhas) + soma (map lr_credito linhas)
     + soma (map lr_rendimento linhas) - soma (map lr_debito linhas).
Proof.
  induction 1 as [|l linhas Hl _ IH]; simpl; [ring|]. rewrite Hl, IH. ring.
Qed.

(** X22. The annual summary of an account closes with a TOTAL GERAL row
    whenever at least one program is listed: it follows one row per
    program, in the order of the programs, each of its five amounts is the
    sum of its column, and the row itself adds up, its closing balance
    being its opening balance plus credits plus yields minus debits.
    With no program the summary is empty and only the notice is shown. *)
Theorem X22_total_geral_adds_up
    (current_year : Z) (accounts : gmap string Conta) (conta : string) (c : Conta)
    (Y : Z) (progs : list string) :
  accounts !! conta = Some c →
  (progs = [] →
   resumo_com_total current_year accounts conta Y progs
   = Ok ([], [st_info "Sem dados para gerar resumo."]))
  ∧ (progs ≠ [] →
     ∃ linhas,
       resumo_anual current_year accounts conta Y progs = Ok linhas
       ∧ resumo_com_total current_year accounts conta Y progs
         = Ok (linhas ++ [linha_total_geral linhas], [])
       ∧ map lr_programa linhas = progs
       ∧ lr_programa (linha_total_geral linhas) = "TOTAL GERAL"
       ∧ lr_saldo_anterior (linha_total_geral linhas)
         == soma (map lr_saldo_anterior linhas)
       ∧ lr_credito (linha_total_geral linhas) == soma (map lr_credito linhas)
       ∧ lr_rendimento (linha_total_geral linhas)
         == soma (map lr_rendimento linhas)
       ∧ lr_debito (linha_total_geral linhas) == soma (map lr_debito linhas)
       ∧ lr_saldo_final (linha_total_geral linhas)
         == soma (map lr_saldo_final linhas)
       ∧ lr_saldo_final (linha_total_geral linhas)
         == lr_saldo_anterior (linha_total_geral linhas)
            + lr_credito (linha_total_geral linhas)
            + lr_rendimento (linha_total_geral linhas)
            - lr_debito (linha_total_geral linhas)).
Proof.
  intros Hc. split.
  - intros ->. unfold resumo_com_total, resumo_anual, dict_index.
    by rewrite Hc.
  - intros Hne.
    destruct (laco_resumo_found current_year accounts conta c Y (movs_de c) progs []
                Hc) as (linhas & Hl & Hall).
    assert (Hres : resumo_anual current_year accounts conta Y progs = Ok linhas).
    { unfold resumo_anual, dict_index. rewrite Hc. exact Hl. }
    assert (Hrows : Forall2 (λ prog l,
              lr_programa l = prog
              ∧ lr_saldo_final l
                = lr_saldo_anterior l + lr_credito l + lr_rendimento l - lr_debito l)
              progs linhas).
    { eapply Forall2_impl; [exact Hall|]. intros prog l Hpl. simpl in Hpl.
      by eapply resumo_programa_linha. }
    exists linhas. split; [exact Hres|]. split.
    { unfold resumo_com_total. rewrite Hres. simpl.
      destruct linhas as [|l0 linhas]; [|done].
      apply Forall2_length in Hrows. by destruct progs. }
    split.
    { clear -Hrows. induction Hrows as [|prog l progs linhas [Hp _] _ IH]; simpl;
        [done|]. by rewrite Hp, IH. }
    split; [done|].
    unfold linha_total_geral.
    cbn [lr_saldo_anterior lr_credito lr_rendimento lr_debito lr_saldo_final].
    rewrite !pysum_soma. do 5 (split; [reflexivity|]).
    apply soma_linhas_resumo.
    clear -Hrows. induction Hrows as [|prog l progs linhas [_ Hp] _ IH];
      constructor; done.
Qed.

Lemma X22_witness :
  ({[ "A" := conta_A ]} : gmap string Conta) !! "A" = Some conta_A ∧
  ["P1"; "P2"] ≠ [] ∧
  ∃ linhas,
    resumo_com_total 2024 {[ "A" := conta_A ]} "A" 2024 ["P1"; "P2"]
    = Ok (linhas ++ [linha_total_geral linhas], [])
    ∧ lr_saldo_final (linha_total_geral linhas)
      == lr_saldo_anterior (linha_total_geral linhas)
         + lr_credito (linha_total_geral linhas)
         + lr_rendimento (linha_total_geral linhas)
         - lr_debito (linha_total_geral linhas).
Proof.
  split; [reflexivity|]. split; [discriminate|].
  destruct (X22_total_geral_adds_up 2024 {[ "A" := conta_A ]} "A" conta_A 2024
              ["P1"; "P2"]) as [_ H]; [reflexivity|].
  destruct H as (linhas & _ & H1 & _ & _ & _ & _ & _ & _ & _ & H2); [discriminate|].
  by exists linhas.
Defined.

Example resumo_2024 :
  (λ r, match r with
        | Ok (l, _) => map (λ x, (lr_programa x, lr_saldo_final x)) l
        | Raise _ => []
        end)
    (resumo_com_total 2024 {[ "A" := conta_A ]} "A" 2024 ["P1"; "P2"])
  = [ ("P1", 0 + (100 + 0) + (0 + 0) + (0 + 5) - (0 + 0));
      ("P2", 0 + (0 + 0) + (0 + 100) + (0 + 5) - (0 + 0));
      ("TOTAL GERAL",
       0 + (0 + (100 + 0) + (0 + 0) + (0 + 5) - (0 + 0))
       + (0 + (0 + 0) + (0 + 100) + (0 + 5) - (0 + 0))) ].
Proof. vm_compute. reflexivity. Qed.

(** ** Ledgers built by the application *)

Lemma conta_ok_nova current_year : conta_ok current_year nova_estrutura.
Proof. repeat split; constructor. Qed.

(** An account keeps what is expected of it when its programs stay listed
    once and its movements are the same. *)
Lemma conta_ok_mesmos_movs current_year (c c' : Conta) :
  movimentacoes c' = movimentacoes c →
  (NoDup (programas c) → NoDup (programas c')) →
  conta_ok current_year c → conta_ok current_year c'.
Proof.
  intros Hm Hp (H1 & H2 & H3). unfold conta_ok, movs_de in *. rewrite Hm.
  split; [by apply Hp|]. done.
Qed.

Lemma garantir_saldos_mesmos (l : list string) (c : Conta) :
  programas (laco_saldos_iniciais l c).1 = programas c
  ∧ movimentacoes (laco_saldos_iniciais l c).1 = movimentacoes c.
Proof.
  revert c. induction l as [|p l IH]; intros c; cbn [laco_saldos_iniciais]; [done|].
  destruct (_ ← dict_index _ p; _) as [v|e]; [|done].
  destruct (IH (garantir_saldo_inicial c p)) as [-> ->]. done.
Qed.

Lemma salvar_lancamento_missing current_year db accounts conta mes ano_ R dados :
  accounts !! conta = None →
  salvar_lancamento current_year db accounts conta mes ano_ R dados
  = Raise (KeyError conta).
Proof.
  intros Hc. unfold salvar_lancamento. destruct dados as [|pv dados].
  - simpl. unfold dict_index. by rewrite Hc.
  - unfold calcular_rateio_rendimento, calcular_bases.
    by rewrite laco_bases_missing.
Qed.

Lemma conta_ok_apos_salvar current_year (c : Conta) mes ano_ R t
    (f : string * Entrada → Bases) (dados : list (string * Entrada)) :
  is_Some (meses !! mes) →
  NoDup dados.*1 →
  conta_ok current_year c →
  conta_ok current_year
    (set_movimentacoes c
       (List.filter (λ m, negb (mesmo_periodo current_year mes ano_ m)) (movs_de c)
        ++ map (λ pv, registro mes ano_ R t (f pv) pv) dados)).
Proof.
  intros Hmes Hnd (H1 & H2 & H3). split; [exact H1|]. split.
  - by apply no_maximo_um_apos_salvar.
  - change (movs_de (set_movimentacoes c ?l)) with l.
    apply Forall_app. split; [by apply Forall_filter_bool|].
    apply Forall_forall. intros m Hm.
    apply list_elem_of_In, in_map_iff in Hm as (pv & <- & _).
    split; [by eexists|]. split; [by apply meses_definido|].
    apply registro_consistente.
Qed.

Lemma salvar_saldo_inicial_inv db accounts nome p n_cap n_cus accounts' msgs :
  salvar_saldo_inicial db accounts nome p n_cap n_cus = Ok (accounts', msgs) →
  ∃ c0 c1, accounts !! nome = Some c0
           ∧ accounts' = <[nome := c1]> accounts
           ∧ programas c1 = programas c0
           ∧ movimentacoes c1 = movimentacoes c0.
Proof.
  unfold salvar_saldo_inicial, dict_index.
  destruct (accounts !! nome) as [c0|]; [|discriminate].
  cbn -[garantir_saldo_inicial].
  destruct (default ∅ (saldos_iniciais (garantir_saldo_inicial c0 p)) !! p)
    as [si|]; [|discriminate].
  cbn -[garantir_saldo_inicial].
  destruct (si_Capital si); [|discriminate]. cbn -[garantir_saldo_inicial].
  destruct (si_Custeio si); [|discriminate]. cbn -[garantir_saldo_inicial].
  intros [= <- _]. by exists c0; eexists.
Qed.

Lemma passo_preserva current_year db accounts accounts' :
  passo current_year db accounts accounts' →
  (∀ a c, accounts !! a = Some c → conta_ok current_year c) →
  ∀ a c, accounts' !! a = Some c → conta_ok current_year c.
Proof.
  intros Hp Hinv. destruct Hp as
    [accounts nova
    |accounts nome novo accounts' msgs Hadd
    |accounts nome c0 Hc0
    |accounts nome p n_cap n_cus accounts' msgs Hsi
    |accounts conta mes ano_ R progs digitado accounts' msgs Hmes Hsalvar];
    intros a c Ha.
  - unfold adicionar_conta in Ha.
    destruct (accounts !! nova) eqn:E; [by eapply Hinv|].
    destruct (str_truthy nova); [|by eapply Hinv]. simpl in Ha.
    apply lookup_insert_Some in Ha as [[_ <-]|[_ Ha]];
      [apply conta_ok_nova|by eapply Hinv].
  - unfold adicionar_programa, dict_index in Hadd.
    destruct (str_truthy novo); [|injection Hadd as <- _; by eapply Hinv].
    destruct (accounts !! nome) as [c0|] eqn:E; [|discriminate Hadd].
    simpl in Hadd. case_bool_decide as Hin.
    { injection Hadd as <- _. by eapply Hinv. }
    injection Hadd as <- _.
    apply lookup_insert_Some in Ha as [[_ <-]|[_ Ha]]; [|by eapply Hinv].
    eapply (conta_ok_mesmos_movs current_year c0); [done| |by eapply Hinv].
    simpl. intros Hnd. apply NoDup_app. split; [done|].
    split; [|apply NoDup_singleton].
    intros q Hq ->%list_elem_of_singleton. done.
  - apply lookup_insert_Some in Ha as [[_ <-]|[_ Ha]]; [|by eapply Hinv].
    unfold garantir_saldos_iniciais.
    destruct (garantir_saldos_mesmos (programas c0) c0) as [Hprog Hmov].
    eapply (conta_ok_mesmos_movs current_year c0); [done| |by eapply Hinv].
    by rewrite Hprog.
  - apply salvar_saldo_inicial_inv in Hsi as (c0 & c1 & E & -> & Hprog & Hmov).
    apply lookup_insert_Some in Ha as [[_ <-]|[_ Ha]]; [|by eapply Hinv].
    eapply (conta_ok_mesmos_movs current_year c0); [done| |by eapply Hinv].
    by rewrite Hprog.
  - destruct (accounts !! conta) as [c0|] eqn:E.
    + assert (Hnd : NoDup (montar_dados_entrada progs digitado).*1).
      { unfold montar_dados_entrada.
        apply (montar_dados_entrada_acc digitado progs []); [constructor|].
        intros q w Hq. by apply elem_of_nil in Hq. }
      pose proof (calcular_rateio_rendimento_NoDup current_year accounts conta
                    mes ano_ c0 R _ E Hnd) as Hn.
      rewrite (salvar_lancamento_found current_year mes ano_ db accounts conta c0
                 R _ _ E Hn) in Hsalvar.
      injection Hsalvar as <- _.
      apply lookup_insert_Some in Ha as [[_ <-]|[_ Ha]]; [|by eapply Hinv].
      apply conta_ok_apos_salvar; [done|done|by eapply Hinv].
    + rewrite salvar_lancamento_missing in Hsalvar by done. discriminate Hsalvar.
Qed.

(** X23. Whatever the user does — adding accounts and programs, showing
    and saving initial balances, saving months from the form — a ledger
    that met the expectations keeps meeting them: in every account the
    programs are listed once, there is at most one movement per program,
    year and month, and every movement carries a year, a month from 1 to
    12 and totals that agree with its base fields. The empty ledger meets
    them, so every ledger built from nothing does. *)
Theorem X23_ledger_invariants
    (current_year : Z) (db : Db) (accounts accounts' : gmap string Conta) :
  rtc (passo current_year db) accounts accounts' →
  (∀ a c, accounts !! a = Some c → conta_ok current_year c) →
  ∀ a c, accounts' !! a = Some c → conta_ok current_year c.
Proof.
  induction 1 as [accounts|accounts accounts1 accounts' Hp _ IH]; intros Hinv;
    [exact Hinv|].
  apply IH. by eapply passo_preserva.
Qed.

Lemma X23_witness :
  ∃ accounts',
    rtc (passo 2024 SemConexao) ∅ accounts'
    ∧ (∀ a c, (∅ : gmap string Conta) !! a = Some c → conta_ok 2024 c)
    ∧ is_Some (accounts' !! "A")
    ∧ ∀ a c, accounts' !! a = Some c → conta_ok 2024 c.
Proof.
  assert (H0 : ∀ a c, (∅ : gmap string Conta) !! a = Some c → conta_ok 2024 c).
  { intros a c H. by rewrite lookup_empty in H. }
  assert (Hpath : ∃ accounts', rtc (passo 2024 SemConexao) ∅ accounts'
                               ∧ is_Some (accounts' !! "A")).
  { eexists. split.
    - eapply rtc_l; [apply (passo_adicionar_conta 2024 SemConexao ∅ "A")|].
      eapply rtc_l.
      { eapply (passo_adicionar_programa 2024 SemConexao _ "A" "P1"). reflexivity. }
      eapply rtc_l; [|apply rtc_refl].
      eapply (passo_salvar_lancamento 2024 SemConexao _ "A" 1 2024 10 ["P1"]
                (λ _, mkEntrada 100 0 0 0)).
      + by eexists.
      + reflexivity.
    - by eexists. }
  destruct Hpath as (accounts' & Hrtc & Hsome).
  exists accounts'. split; [exact Hrtc|]. split; [exact H0|]. split; [exact Hsome|].
  exact (X23_ledger_invariants 2024 SemConexao ∅ accounts' Hrtc H0).
Defined.

(** ** From one month to the next *)

Lemma anteriores_mes_seguinte current_year prog mes ano_ m :
  if String.eqb (programa m) prog && mesmo_periodo current_year mes ano_ m
  then anteriores current_year prog mes ano_ m = false
       ∧ anteriores current_year prog (mes + 1) ano_ m = true
  else anteriores current_year prog (mes + 1) ano_ m
       = anteriores current_year prog mes ano_ m.
Proof.
  unfold mesmo_periodo, anteriores, antes.
  destruct (String.eqb_spec (programa m) prog) as [Hp|Hp]; simpl.
  - destruct (Z.eqb_spec (mes_num m) mes) as [Hm|Hm]; simpl.
    + destruct (Z.eqb_spec (mov_ano_de current_year m) ano_) as [Hy|Hy].
      * split.
        -- apply bool_decide_eq_false. intros [_ H]. lia.
        -- apply bool_decide_eq_true. split; [done|lia].
      * apply bool_decide_ext. split; intros [H1 H2]; (split; [done|lia]).
    + apply bool_decide_ext. split; intros [H1 H2]; (split; [done|lia]).
  - apply bool_decide_ext. tauto.
Qed.

Lemma saldo_conta_mes_seguinte current_year (c : Conta) prog tipo mes ano_ :
  saldo_conta current_year c prog tipo (mes + 1) ano_
  == saldo_conta current_year c prog tipo mes ano_
     + soma (map (liquido tipo)
               (List.filter (λ m, String.eqb (programa m) prog
                                  && mesmo_periodo current_year mes ano_ m)
                  (movs_de c))).
Proof.
  rewrite !saldo_conta_priorBalance. unfold priorBalance.
  assert (Hs : soma (map (liquido tipo)
                  (List.filter (anteriores current_year prog (mes + 1) ano_)
                     (movs_de c)))
               == soma (map (liquido tipo)
                    (List.filter (anteriores current_year prog mes ano_) (movs_de c)))
                  + soma (map (liquido tipo)
                      (List.filter (λ m, String.eqb (programa m) prog
                                         && mesmo_periodo current_year mes ano_ m)
                         (movs_de c))));
    [|rewrite Hs; ring].
  induction (movs_de c) as [|m l IH]; simpl; [ring|].
  pose proof (anteriores_mes_seguinte current_year prog mes ano_ m) as Hv.
  destruct (String.eqb (programa m) prog
            && mesmo_periodo current_year mes ano_ m).
  - destruct Hv as [-> ->]. simpl. rewrite IH. ring.
  - rewrite Hv. destruct (anteriores current_year prog mes ano_ m); simpl;
      rewrite IH; ring.
Qed.

(** X24. Month by month the balance moves by what the month holds:
    for every program, category, month and year, with no condition on the
    ledger, the balance before the following month is the balance before
    the month plus the nets of the program's movements of that month. *)
Theorem X24_month_continuity
    (current_year : Z) (accounts : gmap string Conta) (a : string) (c : Conta)
    (prog : string) (tipo : TipoRecurso) (mes ano_ : Z) :
  accounts !! a = Some c →
  ∃ b0 b1,
    get_saldo_anterior current_year accounts a prog tipo mes ano_ = Ok b0
    ∧ get_saldo_anterior current_year accounts a prog tipo (mes + 1) ano_ = Ok b1
    ∧ b1 == b0 + soma (map (liquido tipo)
                         (List.filter
                            (λ m, String.eqb (programa m) prog
                                  && mesmo_periodo current_year mes ano_ m)
                            (movs_de c))).
Proof.
  intros Hc. do 2 eexists.
  split; [by apply get_saldo_anterior_found|].
  split; [by apply get_saldo_anterior_found|].
  apply saldo_conta_mes_seguinte.
Qed.

Lemma X24_witness :
  ({[ "A" := conta_A ]} : gmap string Conta) !! "A" = Some conta_A ∧
  ∃ b0 b1,
    get_saldo_anterior 2024 {[ "A" := conta_A ]} "A" "P2" Capital 1 2024 = Ok b0
    ∧ get_saldo_anterior 2024 {[ "A" := conta_A ]} "A" "P2" Capital (1 + 1) 2024
      = Ok b1
    ∧ b1 == b0 + soma (map (liquido Capital)
                         (List.filter
                            (λ m, String.eqb (programa m) "P2"
                                  && mesmo_periodo 2024 1 2024 m)
                            (movs_de conta_A))).
Proof.
  split; [reflexivity|].
  apply (X24_month_continuity 2024 {[ "A" := conta_A ]} "A" conta_A "P2" Capital
           1 2024).
  reflexivity.
Defined.

Lemma filter_programa_registros (mes ano_ : Z) (R t : Q)
    (f : string * Entrada → Bases) (dados : list (string * Entrada))
    (p : string) (v : Entrada) :
  NoDup dados.*1 → (p, v) ∈ dados →
  List.filter (λ m, String.eqb (programa m) p)
    (map (λ pv, registro mes ano_ R t (f pv) pv) dados)
  = [registro mes ano_ R t (f (p, v)) (p, v)].
Proof.
  induction dados as [|x dados IH]; intros Hnd Hin.
  - by apply elem_of_nil in Hin.
  - rewrite fmap_cons in Hnd. apply NoDup_cons in Hnd as [Hx Hnd]. simpl.
    apply elem_of_cons in Hin as [<-|Hin].
    + simpl. rewrite String.eqb_refl. f_equal.
      apply filter_nenhum, Forall_forall. intros m Hm.
      apply list_elem_of_In, in_map_iff in Hm as (pv & <- & Hpv). simpl.
      destruct (String.eqb_spec pv.1 p) as [Heq|]; [|done].
      exfalso. apply Hx. simpl. rewrite <- Heq.
      apply (list_elem_of_fmap_2 fst dados pv). by apply list_elem_of_In.
    + destruct (String.eqb_spec x.1 p) as [Heq|Hne]; [|by apply IH].
      exfalso. apply Hx. rewrite Heq.
      apply (list_elem_of_fmap_2 fst dados (p, v)). done.
Qed.

(** X25. The bookkeeping equation of a save. After a month is saved,
    for every program of the entries the balance before the following
    month is the balance before the saved month plus the credit entered,
    plus the yield share of its record, minus the debit entered, in each
    category; for Total, the two categories together. *)
Theorem X25_salvar_bookkeeping
    (current_year : Z) (db : Db) (accounts : gmap string Conta) (conta : string)
    (c : Conta) (mes ano_ : Z) (rendimento : Q)
    (dados : list (string * Entrada)) (p : string) (v : Entrada) :
  accounts !! conta = Some c →
  NoDup dados.*1 →
  (p, v) ∈ dados →
  ∃ accounts' msgs m bC bU,
    salvar_lancamento current_year db accounts conta mes ano_ rendimento dados
      = Ok (accounts', msgs)
    ∧ get_saldo_anterior current_year accounts conta p Capital mes ano_ = Ok bC
    ∧ get_saldo_anterior current_year accounts conta p Custeio mes ano_ = Ok bU
    ∧ (∃ c', accounts' !! conta = Some c'
             ∧ List.filter (λ x, String.eqb (programa x) p
                                 && mesmo_periodo current_year mes ano_ x)
                 (movs_de c') = [m])
    ∧ (∃ b, get_saldo_anterior current_year accounts' conta p Capital (mes + 1) ano_
            = Ok b
          ∧ b == bC + cred_cap v + rendimento_capital m - deb_cap v)
    ∧ (∃ b, get_saldo_anterior current_year accounts' conta p Custeio (mes + 1) ano_
            = Ok b
          ∧ b == bU + cred_cus v + rendimento_custeio m - deb_cus v)
    ∧ (∃ b bT,
         get_saldo_anterior current_year accounts' conta p Total (mes + 1) ano_
           = Ok b
         ∧ get_saldo_anterior current_year accounts conta p Total mes ano_ = Ok bT
         ∧ b == bT + (cred_cap v + cred_cus v)
                + (rendimento_capital m + rendimento_custeio m)
                - (deb_cap v + deb_cus v)).
Proof.
  intros Hc Hnd Hin.
  pose proof (calcular_rateio_rendimento_NoDup current_year accounts conta mes ano_
                c rendimento dados Hc Hnd) as Hn.
  set (t := total_final current_year c mes ano_ dados 0) in *.
  set (f := base_de current_year c mes ano_) in *.
  set (novos := map (λ pv, registro mes ano_ rendimento t (f pv) pv) dados) in *.
  set (outros := List.filter (λ m, negb (mesmo_periodo current_year mes ano_ m))
                   (movs_de c)).
  set (c' := set_movimentacoes c (outros ++ novos)).
  set (m := registro mes ano_ rendimento t (f (p, v)) (p, v)).
  assert (Hper : Forall (λ x, mesmo_periodo current_year mes ano_ x = true) novos)
    by apply mesmo_periodo_reg.
  assert (Hfilt : List.filter (λ x, String.eqb (programa x) p
                                    && mesmo_periodo current_year mes ano_ x)
                    (movs_de c') = [m]).
  { change (movs_de c') with (outros ++ novos). rewrite List.filter_app.
    rewrite (filter_nenhum _ outros).
    - simpl. unfold m.
      rewrite <- (filter_programa_registros mes ano_ rendimento t f dados p v)
        by done.
      fold novos. clear -Hper.
      induction Hper as [|x l Hx _ IH]; simpl; [done|].
      rewrite Hx, andb_true_r. by rewrite IH.
    - apply Forall_forall. intros x Hx.
      apply list_elem_of_In, filter_In in Hx as [_ Hx].
      apply negb_true_iff in Hx. by rewrite Hx, andb_false_r. }
  assert (Hc' : <[conta := c']> accounts !! conta = Some c') by apply lookup_insert_eq.
  assert (Hsame : ∀ tipo, saldo_conta current_year c' p tipo mes ano_
                          = saldo_conta current_year c p tipo mes ano_).
  { intros tipo. apply saldo_conta_periodo_ext; [done|].
    by apply outros_apos_salvar. }
  assert (Hnext : ∀ tipo, saldo_conta current_year c' p tipo (mes + 1) ano_
                          == saldo_conta current_year c p tipo mes ano_
                             + liquido tipo m).
  { intros tipo. rewrite saldo_conta_mes_seguinte, Hfilt, Hsame. simpl. ring. }
  exists (<[conta := c']> accounts),
         (save_account_to_firebase db ++ [st_success "Dados salvos com sucesso!"]),
         m.
  do 2 eexists.
  split; [by apply salvar_lancamento_found|].
  split; [by apply get_saldo_anterior_found|].
  split; [by apply get_saldo_anterior_found|].
  split; [by exists c'|].
  split; [|split].
  - eexists. split; [by apply (get_saldo_anterior_found _ _ _ c')|].
    rewrite (Hnext Capital). simpl. ring.
  - eexists. split; [by apply (get_saldo_anterior_found _ _ _ c')|].
    rewrite (Hnext Custeio). simpl. ring.
  - do 2 eexists. split; [by apply (get_saldo_anterior_found _ _ _ c')|].
    split; [by apply get_saldo_anterior_found|].
    rewrite (Hnext Total). simpl. ring.
Qed.

Lemma X25_witness :
  ({[ "A" := conta_A0 ]} : gmap string Conta) !! "A" = Some conta_A0 ∧
  NoDup entradas_jan.*1 ∧
  ("P2", mkEntrada 100 0 0 0) ∈ entradas_jan ∧
  ∃ accounts' msgs m bC,
    salvar_lancamento 2024 SemConexao {[ "A" := conta_A0 ]} "A" 1 2024 10 entradas_jan
      = Ok (accounts', msgs)
    ∧ get_saldo_anterior 2024 {[ "A" := conta_A0 ]} "A" "P2" Capital 1 2024 = Ok bC
    ∧ ∃ b, get_saldo_anterior 2024 accounts' "A" "P2" Capital (1 + 1) 2024 = Ok b
           ∧ b == bC + cred_cap (mkEntrada 100 0 0 0) + rendimento_capital m
                  - deb_cap (mkEntrada 100 0 0 0).
Proof.
  assert (Hnd : NoDup entradas_jan.*1).
  { apply (bool_decide_unpack _). vm_compute. exact I. }
  assert (Hin : ("P2", mkEntrada 100 0 0 0) ∈ entradas_jan).
  { right. left. }
  split; [reflexivity|]. split; [exact Hnd|]. split; [exact Hin|].
  destruct (X25_salvar_bookkeeping 2024 SemConexao {[ "A" := conta_A0 ]} "A" conta_A0
              1 2024 10 entradas_jan "P2" (mkEntrada 100 0 0 0))
    as (accounts' & msgs & m & bC & bU & H1 & H2 & _ & _ & H3 & _);
    [reflexivity | exact Hnd | exact Hin |].
  by exists accounts', msgs, m, bC.
Defined.

(** ** The rows of the statement *)

Lemma laco_extrato_linhas (p : string) (movs : list Mov) (cap cus : Q)
    (acc : list LinhaExtrato) :
  Forall (λ m, is_Some (meses !! mes_num m)) movs →
  ∃ linhas,
    laco_extrato p movs cap cus acc = Ok (acc ++ linhas)
    ∧ ∀ i m, movs !! i = Some m →
        ∃ l, linhas !! i = Some l
             ∧ meses !! mes_num m = Some (le_mes l)
             ∧ le_s_total l = le_s_capital l + le_s_custeio l
             ∧ le_s_capital l
               == cap + soma (map (liquido Capital) (take (S i) movs))
             ∧ le_s_custeio l
               == cus + soma (map (liquido Custeio) (take (S i) movs)).
Proof.
  intros Hm. revert cap cus acc.
  induction Hm as [|m movs [nome Hnome] _ IH]; intros cap cus acc.
  - exists []. split; [by rewrite app_nil_r|]. intros i m Hi.
    by rewrite lookup_nil in Hi.
  - cbn [laco_extrato]. rewrite Hnome. cbn [mbind result_bind].
    match goal with
    | |- ∃ _, laco_extrato _ _ ?cap' ?cus' (_ ++ [?row]) = _ ∧ _ =>
        destruct (IH cap' cus' (acc ++ [row])) as (linhas & Hl & Hrows);
        exists (row :: linhas)
    end.
    split; [by rewrite Hl, <- app_assoc|].
    intros [|i] x Hi.
    + injection Hi as <-. eexists. split; [done|].
      cbn [le_mes le_s_total le_s_capital le_s_custeio].
      split; [done|]. split; [done|]. simpl. split; ring.
    + destruct (Hrows i x Hi) as (l & H1 & H2 & H3 & H4 & H5).
      exists l. split; [exact H1|]. split; [exact H2|]. split; [exact H3|].
      rewrite H4, H5. simpl. split; ring.
Qed.

Lemma take_ordenado (l : list Mov) (i : nat) (m : Mov) :
  StronglySorted (λ a b, (mes_num a ≤ mes_num b)%Z) l →
  NoDup (map mes_num l) →
  l !! i = Some m →
  take (S i) l = List.filter (λ x, (mes_num x <=? mes_num m)%Z) l.
Proof.
  intros Hs. revert i. induction Hs as [|x l Hs IH Hx]; intros i Hnd Hi.
  - by rewrite lookup_nil in Hi.
  - simpl in Hnd. apply NoDup_cons in Hnd as [Hnx Hnd].
    destruct i as [|i].
    + injection Hi as <-. simpl. rewrite Z.leb_refl. f_equal.
      rewrite take_0. symmetry. apply filter_nenhum, Forall_forall.
      intros y Hy. rewrite Forall_forall in Hx. specialize (Hx y Hy).
      apply Z.leb_gt.
      assert (mes_num y ≠ mes_num x); [|lia].
      intros Heq. apply Hnx. rewrite <- Heq.
      by apply (list_elem_of_fmap_2 mes_num l y).
    + simpl in Hi. simpl.
      assert (Hle : (mes_num x <=? mes_num m)%Z = true).
      { apply Z.leb_le. rewrite Forall_forall in Hx. apply Hx.
        by eapply list_elem_of_lookup_2. }
      rewrite Hle. f_equal. by apply IH.
Qed.

Lemma soma_filter_insere (f : Mov → Q) (g : Mov → bool) (m : Mov) (l : list Mov) :
  soma (map f (List.filter g (insere_por_mes m l)))
  == soma (map f (List.filter g (m :: l))).
Proof.
  induction l as [|x l IH]; [reflexivity|]. cbn [insere_por_mes].
  destruct (mes_num m <=? mes_num x)%Z; [reflexivity|].
  simpl in *. destruct (g x), (g m); simpl in *; rewrite IH; ring.
Qed.

Lemma soma_filter_ordenar (f : Mov → Q) (g : Mov → bool) (l : list Mov) :
  soma (map f (List.filter g (ordenar_por_mes l)))
  == soma (map f (List.filter g l)).
Proof.
  induction l as [|x l IH]; [reflexivity|]. cbn [ordenar_por_mes fold_right].
  rewrite soma_filter_insere. simpl.
  fold (ordenar_por_mes l). destruct (g x); simpl; by rewrite IH.
Qed.

Lemma filter_filter_bool {A} (f g : A → bool) (l : list A) :
  List.filter f (List.filter g l) = List.filter (λ x, g x && f x) l.
Proof.
  induction l as [|x l IH]; simpl; [done|].
  destruct (g x); simpl; [|done]. destruct (f x); by rewrite IH.
Qed.

Lemma NoDup_meses_do_ano current_year p Y (l : list Mov) :
  no_maximo_um current_year l →
  NoDup (map mes_num (List.filter (do_ano_padrao current_year p Y) l)).
Proof.
  unfold no_maximo_um. induction l as [|x l IH]; simpl; [constructor|].
  intros [Hx Hnd]%NoDup_cons.
  destruct (do_ano_padrao current_year p Y x) eqn:E; [|by apply IH].
  simpl. apply NoDup_cons. split; [|by apply IH].
  intros (y & Hy & Hin)%list_elem_of_fmap.
  apply list_elem_of_In, filter_In in Hin as [Hin Ey].
  apply Hx, list_elem_of_fmap. exists y. split; [|by apply list_elem_of_In].
  unfold do_ano_padrao in E, Ey.
  apply andb_true_iff in E as [E1 E2]. apply andb_true_iff in Ey as [Ey1 Ey2].
  apply String.eqb_eq in E1, Ey1. apply Z.eqb_eq in E2, Ey2.
  unfold chave. by rewrite E1, Ey1, E2, Ey2, Hy.
Qed.

Lemma anteriores_ate_mes current_year prog Y k m :
  (1 ≤ mes_num m)%Z →
  if do_ano_padrao current_year prog Y m && (mes_num m <=? k)%Z
  then anteriores current_year prog 1 Y m = false
       ∧ anteriores current_year prog (k + 1) Y m = true
  else anteriores current_year prog (k + 1) Y m = anteriores current_year prog 1 Y m.
Proof.
  intros Hmes. unfold do_ano_padrao, anteriores, antes.
  destruct (String.eqb_spec (programa m) prog) as [Hp|Hp]; simpl.
  - destruct (Z.eqb_spec (mov_ano_de current_year m) Y) as [Hy|Hne]; simpl.
    + destruct (Z.leb_spec (mes_num m) k) as [Hk|Hk].
      * split.
        -- apply bool_decide_eq_false. intros [_ H]. lia.
        -- apply bool_decide_eq_true. split; [done|lia].
      * apply bool_decide_ext. split; intros [H1 H2]; (split; [done|lia]).
    + apply bool_decide_ext. split; intros [H1 H2]; (split; [done|lia]).
  - apply bool_decide_ext. tauto.
Qed.

Lemma saldo_conta_ate_mes current_year (c : Conta) prog tipo Y k :
  Forall (λ m, (1 ≤ mes_num m ≤ 12)%Z) (movs_de c) →
  saldo_conta current_year c prog tipo (k + 1) Y
  == saldo_conta current_year c prog tipo 1 Y
     + soma (map (liquido tipo)
               (List.filter (λ m, do_ano_padrao current_year prog Y m
                                  && (mes_num m <=? k)%Z) (movs_de c))).
Proof.
  intros Hwf. rewrite !saldo_conta_priorBalance. unfold priorBalance.
  assert (Hs : soma (map (liquido tipo)
                  (List.filter (anteriores current_year prog (k + 1) Y) (movs_de c)))
               == soma (map (liquido tipo)
                    (List.filter (anteriores current_year prog 1 Y) (movs_de c)))
                  + soma (map (liquido tipo)
                      (List.filter (λ m, do_ano_padrao current_year prog Y m
                                         && (mes_num m <=? k)%Z) (movs_de c))));
    [|rewrite Hs; ring].
  induction Hwf as [|m l [Hlo _] _ IH]; simpl; [ring|].
  pose proof (anteriores_ate_mes current_year prog Y k m Hlo) as Hv.
  destruct (do_ano_padrao current_year prog Y m && (mes_num m <=? k)%Z).
  - destruct Hv as [-> ->]. simpl. rewrite IH. ring.
  - rewrite Hv. destruct (anteriores current_year prog 1 Y m); simpl; rewrite IH; ring.
Qed.

(** X26. On an account with at most one movement per program, year
    and month, all of months 1 to 12, every row of the monthly statement
    shows the balance at the end of its month: the rows follow the
    movements of the year in month order, each is labelled with the name
    of its month, and its capital and operating balances are the balances
    before the following month, its total their sum. *)
Theorem X26_extrato_rows_are_month_end_balances
    (current_year : Z) (accounts : gmap string Conta) (conta : string) (c : Conta)
    (Y : Z) (p : string) :
  accounts !! conta = Some c →
  Forall (λ m, (1 ≤ mes_num m ≤ 12)%Z) (movs_de c) →
  no_maximo_um current_year (movs_de c) →
  ∃ linhas,
    extrato_mensal current_year accounts conta Y [p] = Ok linhas
    ∧ StronglySorted (λ a b, (mes_num a ≤ mes_num b)%Z)
        (ordenar_por_mes (List.filter (do_ano_padrao current_year p Y) (movs_de c)))
    ∧ ∀ i m,
        ordenar_por_mes (List.filter (do_ano_padrao current_year p Y) (movs_de c))
          !! i = Some m →
        ∃ l bC bU,
          linhas !! i = Some l
          ∧ meses !! mes_num m = Some (le_mes l)
          ∧ get_saldo_anterior current_year accounts conta p Capital
              (mes_num m + 1) Y = Ok bC
          ∧ get_saldo_anterior current_year accounts conta p Custeio
              (mes_num m + 1) Y = Ok bU
          ∧ le_s_capital l == bC
          ∧ le_s_custeio l == bU
          ∧ le_s_total l == bC + bU.
Proof.
  intros Hc Hwf Hum.
  set (ms := List.filter (do_ano_padrao current_year p Y) (movs_de c)).
  assert (Hms : Forall (λ m, is_Some (meses !! mes_num m)) (ordenar_por_mes ms)).
  { apply Forall_ordenar_por_mes, Forall_filter_bool.
    eapply Forall_impl; [exact Hwf|]. intros m Hk. by apply meses_definido. }
  assert (Hsorted := ordenar_por_mes_Sorted ms).
  assert (Hnd : NoDup (map mes_num (ordenar_por_mes ms))).
  { rewrite ordenar_por_mes_Permutation. by apply NoDup_meses_do_ano. }
  destruct (laco_extrato_linhas p (ordenar_por_mes ms)
              (saldo_conta current_year c p Capital 1 Y)
              (saldo_conta current_year c p Custeio 1 Y) [] Hms)
    as (linhas & Hl & Hrows).
  assert (Hext : ∃ resto,
            extrato_mensal current_year accounts conta Y [p] = Ok (linhas ++ resto)).
  { rewrite (extrato_mensal_um current_year accounts conta c Y p Hc).
    unfold extrato_programa.
    rewrite !(get_saldo_anterior_found _ _ _ c) by done.
    cbn [mbind result_bind]. fold ms. rewrite Hl. cbn [mbind result_bind app].
    destruct linhas as [|l0 linhas]; [by exists []|]. by eexists. }
  destruct Hext as [resto Hext].
  exists (linhas ++ resto). split; [exact Hext|]. split; [exact Hsorted|].
  intros i m Hi.
  destruct (Hrows i m Hi) as (l & H1 & H2 & H3 & H4 & H5).
  exists l. do 2 eexists.
  split; [by apply lookup_app_l_Some|]. split; [exact H2|].
  split; [by apply get_saldo_anterior_found|].
  split; [by apply get_saldo_anterior_found|].
  assert (Hsum : ∀ tipo,
    soma (map (liquido tipo) (take (S i) (ordenar_por_mes ms)))
    == soma (map (liquido tipo)
               (List.filter (λ x, do_ano_padrao current_year p Y x
                                  && (mes_num x <=? mes_num m)%Z) (movs_de c)))).
  { intros tipo. rewrite (take_ordenado _ i m Hsorted Hnd Hi).
    rewrite soma_filter_ordenar. unfold ms. by rewrite filter_filter_bool. }
  assert (HC : le_s_capital l
               == saldo_conta current_year c p Capital (mes_num m + 1) Y).
  { by rewrite H4, Hsum, (saldo_conta_ate_mes current_year c p Capital Y _ Hwf). }
  assert (HU : le_s_custeio l
               == saldo_conta current_year c p Custeio (mes_num m + 1) Y).
  { by rewrite H5, Hsum, (saldo_conta_ate_mes current_year c p Custeio Y _ Hwf). }
  split; [exact HC|]. split; [exact HU|].
  rewrite H3, HC, HU. reflexivity.
Qed.

Lemma X26_witness :
  ({[ "A" := conta_A ]} : gmap string Conta) !! "A" = Some conta_A ∧
  Forall (λ m, (1 ≤ mes_num m ≤ 12)%Z) (movs_de conta_A) ∧
  no_maximo_um 2024 (movs_de conta_A) ∧
  ∃ linhas l bC,
    extrato_mensal 2024 {[ "A" := conta_A ]} "A" 2024 ["P2"] = Ok linhas
    ∧ linhas !! 0%nat = Some l
    ∧ get_saldo_anterior 2024 {[ "A" := conta_A ]} "A" "P2" Capital (1 + 1) 2024
      = Ok bC
    ∧ le_s_capital l == bC.
Proof.
  assert (Hwf : Forall (λ m, (1 ≤ mes_num m ≤ 12)%Z) (movs_de conta_A)).
  { unfold conta_A, movs_de. simpl. repeat (constructor; [simpl; lia|]).
    constructor. }
  assert (Hum : no_maximo_um 2024 (movs_de conta_A)).
  { unfold no_maximo_um. apply (bool_decide_unpack _). vm_compute. exact I. }
  split; [reflexivity|]. split; [exact Hwf|]. split; [exact Hum|].
  destruct (X26_extrato_rows_are_month_end_balances 2024 {[ "A" := conta_A ]}
              "A" conta_A 2024 "P2") as (linhas & H1 & _ & Hrows);
    [reflexivity | exact Hwf | exact Hum |].
  destruct (Hrows 0%nat mov_P2_jan) as (l & bC & bU & H2 & _ & H3 & _ & H4 & _);
    [reflexivity|].
  by exists linhas, l, bC.
Defined.
